(** * CF-Clearance-Server: a shallow embedding of [cf_clearance.py]

    The development follows the source file top to bottom:
    - [get_chrome_user_agent] (lines 64-73);
    - the class [CloudflareSolver] with its resolver [solve_cloudflare]
      (lines 75-227), written in a small state-and-exception monad over
      the browser capability;
    - the module-level dictionaries [task_results] and [active_solvers],
      the sweeper [cleanup_tasks], the coroutine [solve_cloudflare_task]
      and the two request handlers [solve] and [get_result]
      (lines 229-538), as a labelled transition function on the state of
      the event loop.  The page [index], [get_status], the shutdown hook
      and the command line only read that state and are left out.

    Conventions.  Python [str] is [string]; Python [int] is [Z]; a value
    of [time.time()] is a [Z] counting milliseconds, so that
    [round(x, 3)] is the identity and the constant [86400] of the
    sweeper reads [86400 * 1000]; a Python [dict] with string keys is a
    [gmap string _]; [None] is [None].  An exception is represented by
    its description [str(e)]; only instances of [Exception] are
    modelled: what is not one, such as the cancellation of a task,
    passes the clauses [except Exception] of the source and is outside
    this development.  The clock of a run never goes back and a sleep
    lasts at least the time asked for: the time a call takes and the
    lateness of the loop are natural numbers of milliseconds. *)

From Stdlib Require Import ZArith String List Lia.
From stdpp Require Import gmap strings list fin_maps pretty.

Local Open Scope string_scope.
Local Open Scope Z_scope.

(** ** Values *)

Definition exn := string.

(** What [Cookie.to_json()] yields, restricted to the keys the program
    reads ([name], [value]) and one it only passes on. *)
Record Cookie := mkCookie {
  cookie_name : string;
  cookie_value : string;
  cookie_domain : string
}.

(** The values stored under the keys of a result dictionary. *)
Inductive Value :=
| VStr (s : string)
| VNum (n : Z)
| VCookies (cs : list Cookie).

Abbreviation Dict := (gmap string Value).

(** Python truthiness of an [Optional[str]]: [None] and [""] are false. *)
Definition truthy (s : option string) : bool :=
  match s with
  | None => false
  | Some s => negb (String.eqb s "")
  end.

(** [pat in s] on strings. *)
Fixpoint contains (pat s : string) : bool :=
  String.prefix pat s ||
  match s with
  | EmptyString => false
  | String _ rest => contains pat rest
  end.

(** ** [get_chrome_user_agent] (lines 64-73) *)

Inductive reply (A : Type) :=
| Returns (a : A)
| Raises (e : exn).
Arguments Returns {A} a.
Arguments Raises {A} e.

(** [random.choice(seq)]: [seq[k]] for a [k] below [len(seq)] drawn by
    the generator, [IndexError] on an empty sequence.  [rnd] is the
    number the generator supplies. *)
Definition random_choice {A : Type} (seq : list A) (rnd : nat) : reply A :=
  match nth_error seq (Nat.modulo rnd (length seq)) with
  | Some x => Returns x
  | None => Raises "Cannot choose from an empty sequence"
  end.

(** [latest] is the list [latest_user_agents.get_latest_user_agents()]
    returns. *)
Definition get_chrome_user_agent (latest : list string) (rnd : nat) : reply string :=
  let chrome_user_agents :=
    List.filter (fun user_agent => contains "Chrome" user_agent) latest in
  random_choice chrome_user_agents rnd.

(** ** The browser capability

    [zendriver.Browser] is not part of the program: it is an interface
    the program calls.  An instance gives, for each call the program
    makes, the reply, the state of the browser afterwards and the time
    the call took in milliseconds.  [loop_lateness] is the time by which
    the event loop wakes a sleeping coroutine late. *)

Definition Element := nat.

Record Answer (B A : Type) := mkAnswer {
  ans : reply A;
  after : B;
  took : N
}.
Arguments mkAnswer {B A} ans after took.
Arguments ans {B A} _.
Arguments after {B A} _.
Arguments took {B A} _.

Class Capability (B : Type) := {
  drv_start : B -> Answer B unit;
  drv_stop : B -> Answer B unit;
  drv_get : string -> B -> Answer B unit;
  drv_cookies_get_all : B -> Answer B (list Cookie);
  drv_find_all : string -> B -> Answer B (list Element);
  drv_mouse_click : Element -> B -> Answer B unit;
  drv_evaluate : string -> B -> Answer B string;
  loop_lateness : B -> N * B
}.

(** ** The monad of one run: wall clock, browser, exceptions *)

Inductive outcome (A : Type) :=
| Ok (a : A)
| Raise (e : exn)
| Diverge.
Arguments Ok {A} a.
Arguments Raise {A} e.
Arguments Diverge {A}.

Record World (B : Type) := mkWorld {
  clock : Z;
  driver : B
}.
Arguments mkWorld {B} clock driver.
Arguments clock {B} _.
Arguments driver {B} _.

Definition M (B A : Type) := World B -> outcome A * World B.

Definition ret {B A : Type} (a : A) : M B A := fun w => (Ok a, w).

Definition bind {B A C : Type} (m : M B A) (k : A -> M B C) : M B C :=
  fun w =>
    match m w with
    | (Ok a, w') => k a w'
    | (Raise e, w') => (Raise e, w')
    | (Diverge, w') => (Diverge, w')
    end.

(** [try: m except Exception as e: h e] *)
Definition try_except {B A : Type} (m : M B A) (h : exn -> M B A) : M B A :=
  fun w =>
    match m w with
    | (Ok a, w') => (Ok a, w')
    | (Raise e, w') => h e w'
    | (Diverge, w') => (Diverge, w')
    end.

Definition diverge {B A : Type} : M B A := fun w => (Diverge, w).

Notation "x <- c1 ;; c2" := (bind c1 (fun x => c2))
  (at level 100, c1 at next level, right associativity).
Notation "c1 ;; c2" := (bind c1 (fun _ => c2))
  (at level 100, right associativity).

(** [for x in xs: body x] *)
Fixpoint for_each {B A : Type} (xs : list A) (body : A -> M B unit) : M B unit :=
  match xs with
  | [] => ret tt
  | x :: rest => body x ;; for_each rest body
  end.

(** ** [CloudflareSolver] (lines 75-227) *)

(** The attributes of a solver object other than its driver, which is
    the [driver] of the run's [World]. *)
Record CloudflareSolver := mkSolver {
  solver_timeout : Z;
  solver_user_agent : option string
}.

(** [_format_cookies]: [cookie.to_json()] for each cookie. *)
Definition format_cookies (cookies : list Cookie) : list Cookie :=
  List.map (fun cookie => cookie) cookies.

Fixpoint extract_clearance_cookie (cookies : list Cookie) : option Cookie :=
  match cookies with
  | [] => None
  | cookie :: rest =>
      if String.eqb (cookie_name cookie) "cf_clearance" then Some cookie
      else extract_clearance_cookie rest
  end.

(** The two dictionaries [solve_cloudflare] returns. *)
Definition success_result (elapsed_time : Z) (clearance_cookie : Cookie)
    (current_user_agent : string) (all_cookies : list Cookie) : Dict :=
  <["status" := VStr "success"]>
  (<["elapsed_time" := VNum elapsed_time]>
  (<["cf_clearance" := VStr (cookie_value clearance_cookie)]>
  (<["user_agent" := VStr current_user_agent]>
  (<["all_cookies" := VCookies all_cookies]> ∅)))).

Definition error_result (reason : string) (elapsed_time : Z) : Dict :=
  <["status" := VStr "error"]>
  (<["reason" := VStr reason]>
  (<["elapsed_time" := VNum elapsed_time]> ∅)).

Section Run.
Context {B : Type} `{Capability B}.

(** [time.time()] *)
Definition time_time : M B Z := fun w => (Ok (clock w), w).

(** [await op(...)] on the browser *)
Definition await {A : Type} (op : B -> Answer B A) : M B A :=
  fun w =>
    let a := op (driver w) in
    let w' := mkWorld (clock w + Z.of_N (took a)) (after a) in
    match ans a with
    | Returns x => (Ok x, w')
    | Raises e => (Raise e, w')
    end.

(** [await asyncio.sleep(seconds)] *)
Definition asyncio_sleep (seconds : Z) : M B unit :=
  fun w =>
    let '(late, b) := loop_lateness (driver w) in
    (Ok tt, mkWorld (clock w + seconds * 1000 + Z.of_N late) b).

Definition get_user_agent : M B string :=
  await (drv_evaluate "navigator.userAgent").

Definition get_cookies : M B (list Cookie) :=
  cookies <- await drv_cookies_get_all ;;
  ret (format_cookies cookies).

(** Lines 162-168: the polling loop.  It is entered with
    [clearance_cookie = None]; it yields the last value of
    [(all_cookies, clearance_cookie)].  [fuel] bounds the number of
    iterations the model follows; with the clock in whole milliseconds
    [wait_loop_terminates] shows that [Z.to_nat timeout] iterations
    suffice. *)
Fixpoint wait_loop (fuel : nat) (timeout start_wait : Z)
    (all_cookies : list Cookie) : M B (list Cookie * option Cookie) :=
  now <- time_time ;;
  if now - start_wait <? timeout * 1000 then
    match fuel with
    | O => diverge
    | S fuel' =>
        asyncio_sleep 1 ;;
        all_cookies <- get_cookies ;;
        match extract_clearance_cookie all_cookies with
        | Some clearance_cookie => ret (all_cookies, Some clearance_cookie)
        | None => wait_loop fuel' timeout start_wait all_cookies
        end
    end
  else ret (all_cookies, None).

(** Lines 176-181 and 185-190: click every element, two seconds of
    settling after a click that did not raise, every exception dropped. *)
Definition click_all (elements : list Element) : M B unit :=
  for_each elements (fun element =>
    try_except
      (await (drv_mouse_click element) ;; asyncio_sleep 2)
      (fun _ => ret tt)).

(** Lines 171-196: the interaction sweep, entered with
    [clearance_cookie = None]. *)
Definition interact (all_cookies : list Cookie)
    : M B (list Cookie * option Cookie) :=
  try_except
    (buttons <- await (drv_find_all "button") ;;
     click_all buttons ;;
     checkboxes <- await (drv_find_all "input[type=checkbox]") ;;
     click_all checkboxes ;;
     all_cookies <- get_cookies ;;
     ret (all_cookies, extract_clearance_cookie all_cookies))
    (fun e => ret (all_cookies, None)).

(** Lines 150-218: the body of the outer [try]. *)
Definition solve_body (fuel : nat) (self : CloudflareSolver) (url : string)
    (start_time : Z) : M B Dict :=
  await (drv_get url) ;;
  all_cookies <- get_cookies ;;
  let clearance_cookie := extract_clearance_cookie all_cookies in
  found <-
    match clearance_cookie with
    | None =>
        start_wait <- time_time ;;
        waited <- wait_loop fuel (solver_timeout self) start_wait all_cookies ;;
        match snd waited with
        | None => interact (fst waited)
        | Some _ => ret waited
        end
    | Some _ => ret (all_cookies, clearance_cookie)
    end ;;
  current_user_agent <- get_user_agent ;;
  now <- time_time ;;
  let elapsed_time := now - start_time in
  match snd found with
  | Some clearance_cookie =>
      ret (success_result elapsed_time clearance_cookie current_user_agent
             (fst found))
  | None =>
      ret (error_result "Failed to retrieve cf_clearance cookie" elapsed_time)
  end.

(** Lines 141-227. *)
Definition solve_cloudflare (fuel : nat) (self : CloudflareSolver)
    (url : string) : M B Dict :=
  start_time <- time_time ;;
  try_except
    (solve_body fuel self url start_time)
    (fun e =>
       now <- time_time ;;
       ret (error_result e (now - start_time))).

End Run.

(** ** The server state (lines 229-240) and the event loop

    A coroutine created by [asyncio.create_task] is kept with the point
    where it is suspended and the local variables that are live there:
    [Scheduled] before it has run; [Starting] from
    [await self.driver.start()] until the result of the resolver is
    stored, which covers the suspension points inside the resolver as
    well; [Stopping] in [await self.driver.stop()]; [Finished] once it
    has returned; [Crashed] once it has ended in an exception. *)

Inductive Coroutine (B : Type) :=
| Scheduled (url : string) (user_agent proxy : option string) (timeout : Z)
| Starting (url : string) (start_time : Z) (solver : CloudflareSolver)
    (w : World B)
| Stopping (start_time : Z) (w : World B)
| Finished
| Crashed (e : exn).
Arguments Scheduled {B} url user_agent proxy timeout.
Arguments Starting {B} url start_time solver w.
Arguments Stopping {B} start_time w.
Arguments Finished {B}.
Arguments Crashed {B} e.

(** The two writes to [active_solvers], recorded as they happen. *)
Inductive Event :=
| Acquired (task_id : string)
| Released (task_id : string).

Global Instance Event_eq_dec : EqDecision Event.
Proof. solve_decision. Defined.

Record State (B : Type) := mkState {
  task_results : gmap string Dict;
  active_solvers : gmap string CloudflareSolver;
  coroutines : gmap string (Coroutine B);
  history : list Event
}.
Arguments mkState {B} task_results active_solvers coroutines history.
Arguments task_results {B} _.
Arguments active_solvers {B} _.
Arguments coroutines {B} _.
Arguments history {B} _.

Definition initial {B : Type} : State B := mkState ∅ ∅ ∅ [].

Definition set_result {B : Type} (task_id : string) (result : Dict)
    (s : State B) : State B :=
  mkState (<[task_id := result]> (task_results s)) (active_solvers s)
    (coroutines s) (history s).

Definition set_coroutine {B : Type} (task_id : string) (c : Coroutine B)
    (s : State B) : State B :=
  mkState (task_results s) (active_solvers s)
    (<[task_id := c]> (coroutines s)) (history s).

(** [active_solvers[task_id] = solver] (line 305) *)
Definition acquire {B : Type} (task_id : string) (solver : CloudflareSolver)
    (s : State B) : State B :=
  mkState (task_results s) (<[task_id := solver]> (active_solvers s))
    (coroutines s) (history s ++ [Acquired task_id]).

(** Lines 325-326: [if task_id in active_solvers: del active_solvers[task_id]] *)
Definition release {B : Type} (task_id : string) (s : State B) : State B :=
  match active_solvers s !! task_id with
  | Some _ =>
      mkState (task_results s) (delete task_id (active_solvers s))
        (coroutines s) (history s ++ [Released task_id])
  | None => s
  end.

(** ** [cleanup_tasks] (lines 242-259): one turn of the loop, at time [now] *)

Definition DAY : Z := 86400 * 1000.

(** [result.get("timestamp", 0)]; every stored dictionary carries a
    number under that key (see [shaped]). *)
Definition timestamp_of (result : Dict) : Z :=
  match result !! "timestamp" with
  | Some (VNum t) => t
  | _ => 0
  end.

Definition keys_to_delete (now : Z) (results : gmap string Dict) : list string :=
  List.map fst
    (List.filter (fun item => timestamp_of (snd item) <? now - DAY)
       (map_to_list results)).

Definition delete_keys (keys : list string) (results : gmap string Dict)
    : gmap string Dict :=
  List.fold_left (fun m task_id => delete task_id m) keys results.

Definition cleanup_tasks {B : Type} (now : Z) (s : State B) : State B :=
  mkState (delete_keys (keys_to_delete now (task_results s)) (task_results s))
    (active_solvers s) (coroutines s) (history s).

(** ** [solve_cloudflare_task] (lines 281-326), between suspension points *)

Definition processing_entry (now : Z) : Dict :=
  <["status" := VStr "processing"]> (<["timestamp" := VNum now]> ∅).

(** Lines 315-326: the [except] clause followed by [finally]. *)
Definition task_failed {B : Type} (task_id : string) (start_time : Z)
    (e : exn) (now : Z) (s : State B) : State B :=
  set_coroutine task_id Finished
    (release task_id
       (set_result task_id
          (<["timestamp" := VNum now]> (error_result e (now - start_time)))
          s)).

(** Lines 285-307, up to [await self.driver.start()].  [now] is the time
    at which the coroutine first runs, [latest] and [rnd] are what
    [latest_user_agents] and [random] supply, [browser] is what the
    constructor of [CloudflareSolver] yields. *)
Definition task_enter {B : Type} (task_id : string) (now : Z)
    (latest : reply (list string)) (rnd : nat) (browser : reply B)
    (s : State B) : option (State B) :=
  match coroutines s !! task_id with
  | Some (Scheduled url user_agent proxy timeout) =>
      let start_time := now in
      let chosen :=
        if truthy user_agent then Returns user_agent
        else
          match latest with
          | Returns agents =>
              match get_chrome_user_agent agents rnd with
              | Returns ua => Returns (Some ua)
              | Raises e => Raises e
              end
          | Raises e => Raises e
          end in
      match chosen with
      | Raises e => Some (set_coroutine task_id (Crashed e) s)
      | Returns user_agent =>
          let s := set_result task_id (processing_entry now) s in
          match browser with
          | Raises e => Some (task_failed task_id start_time e now s)
          | Returns b =>
              let solver := mkSolver timeout user_agent in
              let s := acquire task_id solver s in
              Some (set_coroutine task_id
                      (Starting url start_time solver (mkWorld now b)) s)
          end
      end
  | _ => None
  end.

Section Server.
Context {B : Type} `{Capability B}.
Variable max_concurrent_tasks : Z.

(** Lines 307-313: [driver.start()] has completed; the resolver runs and
    its result is stored; the coroutine is suspended again in
    [await self.driver.stop()]. *)
Definition task_started (task_id : string) (s : State B) : option (State B) :=
  match coroutines s !! task_id with
  | Some (Starting url start_time solver w) =>
      let fuel := Z.to_nat (solver_timeout solver) in
      match (await drv_start ;; solve_cloudflare fuel solver url) w with
      | (Ok result, w') =>
          let result := <["timestamp" := VNum (clock w')]> result in
          Some (set_coroutine task_id (Stopping start_time w')
                  (set_result task_id result s))
      | (Raise e, w') => Some (task_failed task_id start_time e (clock w') s)
      | (Diverge, _) => None
      end
  | _ => None
  end.

(** [driver.stop()] has completed: lines 315-326. *)
Definition task_stopped (task_id : string) (s : State B) : option (State B) :=
  match coroutines s !! task_id with
  | Some (Stopping start_time w) =>
      match await drv_stop w with
      | (Raise e, w') => Some (task_failed task_id start_time e (clock w') s)
      | (_, _) => Some (set_coroutine task_id Finished (release task_id s))
      end
  | _ => None
  end.

(** ** The request handlers *)

(** [request.args] of a request: [arg_timeout] is what
    [request.args.get('timeout', 60, type=int)] converts, [None] when
    the parameter is absent or is not an integer. *)
Record Request := mkRequest {
  arg_url : option string;
  arg_proxy : option string;
  arg_user_agent : option string;
  arg_timeout : option Z
}.

(** [jsonify(body), code] *)
Record Response := mkResponse {
  body : Dict;
  code : Z
}.

Definition error_body (message : string) : Dict :=
  <["status" := VStr "error"]> (<["error" := VStr message]> ∅).

(** Lines 469-472 *)
Definition proxy_scheme_ok (proxy : string) : bool :=
  String.prefix "http://" proxy || String.prefix "https://" proxy ||
  String.prefix "socks4://" proxy || String.prefix "socks5://" proxy.

(** Lines 479-481 *)
Definition limit_timeout (timeout : Z) : Z :=
  if 120 <? timeout then 120 else timeout.

(** Lines 450-509.  [uuid] is the value of [str(uuid.uuid4())]. *)
Definition solve (req : Request) (uuid : string) (s : State B)
    : Response * State B :=
  let url := arg_url req in
  let proxy := arg_proxy req in
  let user_agent := arg_user_agent req in
  let timeout := default 60 (arg_timeout req) in
  if negb (truthy url) then
    (mkResponse (error_body "URL parameter is required") 400, s)
  else if truthy proxy && negb (proxy_scheme_ok (default "" proxy)) then
    (mkResponse
       (error_body
          "Invalid proxy format. Must start with http://, https://, socks4:// or socks5://")
       400, s)
  else
    let timeout := limit_timeout timeout in
    if Z.of_nat (size (active_solvers s)) >=? max_concurrent_tasks then
      (mkResponse
         (error_body
            ("Server đang xử lý tối đa số lượng task (" +:+
             pretty max_concurrent_tasks +:+ "). Vui lòng thử lại sau."))
         429, s)
    else
      let task_id := uuid in
      let s :=
        set_coroutine task_id
          (Scheduled (default "" url) user_agent proxy timeout) s in
      (mkResponse
         (<["status" := VStr "success"]>
          (<["task_id" := VStr task_id]>
          (<["message" :=
               VStr ("Task đã được tạo, kết quả sẽ sẵn sàng trong tối đa " +:+
                     pretty timeout +:+ " giây")]> ∅)))
         202, s).

(** [result.get("status") == status] *)
Definition status_is (result : Dict) (status : string) : bool :=
  match result !! "status" with
  | Some (VStr v) => String.eqb v status
  | _ => false
  end.

(** Lines 511-538 *)
Definition get_result (id : option string) (s : State B) : Response :=
  let task_id := id in
  if negb (truthy task_id) then
    mkResponse (error_body "id parameter is required") 400
  else
    match task_results s !! default "" task_id with
    | None => mkResponse (error_body "Task ID không tồn tại") 404
    | Some result =>
        if status_is result "processing" then
          mkResponse
            (<["status" := VStr "processing"]>
             (<["message" := VStr "Task đang được xử lý"]> ∅))
            202
        else mkResponse result 200
    end.

(** ** The event loop

    One label per piece of code the loop runs without interruption: a
    request handler, a coroutine between two suspension points, or one
    turn of the sweeper.  The suspension points inside the resolver
    touch neither dictionary, so [driver.start()] and the resolver that
    follows it are one step.  A label is refused ([None]) when the
    coroutine it names is not suspended at that point;
    [str(uuid.uuid4())] never repeats an identifier. *)
Inductive Label :=
| Submit (req : Request) (uuid : string)
| Enter (task_id : string) (now : Z) (latest : reply (list string))
    (rnd : nat) (browser : reply B)
| Started (task_id : string)
| Stopped (task_id : string)
| Query (id : option string)
| Sweep (now : Z).

Definition step (s : State B) (l : Label) : option (State B) :=
  match l with
  | Submit req uuid =>
      match coroutines s !! uuid with
      | None => Some (snd (solve req uuid s))
      | Some _ => None
      end
  | Enter task_id now latest rnd browser =>
      task_enter task_id now latest rnd browser s
  | Started task_id => task_started task_id s
  | Stopped task_id => task_stopped task_id s
  | Query id => Some s
  | Sweep now => Some (cleanup_tasks now s)
  end.

Fixpoint run (s : State B) (ls : list Label) : option (State B) :=
  match ls with
  | [] => Some s
  | l :: rest =>
      match step s l with
      | Some s' => run s' rest
      | None => None
      end
  end.

Definition reachable (s : State B) : Prop :=
  exists ls, run initial ls = Some s.

End Server.

(** ** A scripted browser

    An instance of the capability that replays a fixed script: the
    reply of every call is chosen in advance, the [k]-th read of the
    cookie jar has its own reply, navigation takes [get_ms]
    milliseconds, every other call takes no time and the loop is never
    late.  The state counts the reads of the cookie jar. *)

Record Script := mkScript {
  on_start : reply unit;
  on_stop : reply unit;
  on_get : reply unit;
  get_ms : N;
  on_cookies : nat -> reply (list Cookie);
  on_find_all : string -> reply (list Element);
  on_click : Element -> reply unit;
  on_evaluate : reply string
}.

Record Scripted := mkScripted {
  script : Script;
  reads : nat
}.

Global Instance Scripted_capability : Capability Scripted := {
  drv_start b := mkAnswer (on_start (script b)) b 0%N;
  drv_stop b := mkAnswer (on_stop (script b)) b 0%N;
  drv_get _ b := mkAnswer (on_get (script b)) b (get_ms (script b));
  drv_cookies_get_all b :=
    mkAnswer (on_cookies (script b) (reads b))
      (mkScripted (script b) (S (reads b))) 0%N;
  drv_find_all selector b := mkAnswer (on_find_all (script b) selector) b 0%N;
  drv_mouse_click element b := mkAnswer (on_click (script b) element) b 0%N;
  drv_evaluate _ b := mkAnswer (on_evaluate (script b)) b 0%N;
  loop_lateness b := (0%N, b)
}.

Definition clearance : Cookie := mkCookie "cf_clearance" "token" "example.com".

(** A page that hands out the clearance cookie at once. *)
Definition friendly : Script :=
  mkScript (Returns tt) (Returns tt) (Returns tt) 0%N
    (fun _ => Returns [clearance]) (fun _ => Returns [])
    (fun _ => Returns tt) (Returns "Mozilla/5.0 Chrome/120").

(** A page that never hands out the cookie and has nothing to click;
    loading it takes [ms] milliseconds. *)
Definition stubborn (ms : N) : Script :=
  mkScript (Returns tt) (Returns tt) (Returns tt) ms
    (fun _ => Returns []) (fun _ => Returns [])
    (fun _ => Returns tt) (Returns "Mozilla/5.0 Chrome/120").

(** The cookie is there at once, but closing the browser fails. *)
Definition flaky_stop : Script :=
  mkScript (Returns tt) (Raises "browser process is gone") (Returns tt) 0%N
    (fun _ => Returns [clearance]) (fun _ => Returns [])
    (fun _ => Returns tt) (Returns "Mozilla/5.0 Chrome/120").

(** No cookie, and looking up elements fails. *)
Definition detached : Script :=
  mkScript (Returns tt) (Returns tt) (Returns tt) 0%N
    (fun _ => Returns []) (fun _ => Raises "DOM detached")
    (fun _ => Returns tt) (Returns "Mozilla/5.0 Chrome/120").

(** Navigation fails. *)
Definition unreachable_site : Script :=
  mkScript (Returns tt) (Returns tt) (Raises "net::ERR_NAME_NOT_RESOLVED") 7%N
    (fun _ => Returns []) (fun _ => Returns [])
    (fun _ => Returns tt) (Returns "Mozilla/5.0 Chrome/120").

Definition example_request : Request :=
  mkRequest (Some "https://example.com") None None None.

Definition socks5_request : Request :=
  mkRequest (Some "https://example.com") (Some "socks5://x") None None.

Definition empty_proxy_request : Request :=
  mkRequest (Some "https://example.com") (Some "") None None.

Definition slow_request : Request :=
  mkRequest (Some "https://example.com") None None (Some 300).

Definition agents : list string :=
  ["Mozilla/5.0 Firefox/121.0"; "Mozilla/5.0 Chrome/120.0"].

(** The coroutine of [task_id] runs for the first time, at time 0, and
    gets a browser that follows [page]. *)
Definition open_page (task_id : string) (page : Script) : Label :=
  Enter task_id 0 (Returns agents) 0 (Returns (mkScripted page 0)).

(** A whole run of task "a" against the friendly page. *)
Definition one_task_done : list (Label (B := Scripted)) :=
  [Submit example_request "a"; open_page "a" friendly; Started "a";
   Stopped "a"].

Definition after_one_task : State Scripted :=
  default initial (run 10 initial one_task_done).

(** Task "a" has begun and waits for [driver.start()]. *)
Definition one_task_starting : State Scripted :=
  default initial
    (run 10 initial [Submit example_request "a"; open_page "a" friendly]).

(** What a run against the friendly page, begun at time 0, stores. *)
Definition friendly_entry : Dict :=
  <["timestamp" := VNum 0]>
    (success_result 0 clearance "Mozilla/5.0 Chrome/120" [clearance]).

(** * Vocabulary of the properties *)

(** ** Three properties of a computation, closed under the monad *)

(** The clock never goes back. *)
Definition mono {B A : Type} (m : M B A) : Prop :=
  forall w, clock w <= clock (snd (m w)).

(** The computation comes to an end. *)
Definition total {B A : Type} (m : M B A) : Prop :=
  forall w, fst (m w) <> Diverge.

(** No exception escapes. *)
Definition quiet {B A : Type} (m : M B A) : Prop :=
  forall w e, fst (m w) <> Raise e.

(** ** Stored dictionaries *)

(** The three forms of a dictionary stored in [task_results]. *)
Inductive shaped : Dict -> Prop :=
| shaped_processing t :
    shaped (processing_entry t)
| shaped_success elapsed c ua cs t :
    shaped (<["timestamp" := VNum t]> (success_result elapsed c ua cs))
| shaped_error reason elapsed t :
    shaped (<["timestamp" := VNum t]> (error_result reason elapsed)).

(** The same, by keys: the status decides which keys are present. *)
Definition consistent (result : Dict) : Prop :=
  (status_is result "processing" = true /\
   dom result = list_to_set ["status"; "timestamp"]) \/
  (status_is result "success" = true /\
   dom result =
     list_to_set ["status"; "elapsed_time"; "cf_clearance"; "user_agent";
                  "all_cookies"; "timestamp"]) \/
  (status_is result "error" = true /\
   dom result =
     list_to_set ["status"; "reason"; "elapsed_time"; "timestamp"]).

Definition terminal (result : Dict) : Prop :=
  status_is result "success" = true \/ status_is result "error" = true.

Definition has_status {B : Type} (s : State B) (task_id status : string)
    : Prop :=
  exists result,
    task_results s !! task_id = Some result /\
    status_is result status = true.

(** ** States of the event loop *)

Definition occurrences {B : Type} (e : Event) (s : State B) : nat :=
  count_occ Event_eq_dec (history s) e.

(** What the state holds for one task, by the point its coroutine has
    reached: an entry in [active_solvers] exactly between
    [active_solvers[task_id] = solver] and the [finally] clause, and
    never more deletions than insertions. *)
Definition coherent {B : Type} (s : State B) (task_id : string) : Prop :=
  let acquired := occurrences (Acquired task_id) s in
  let released := occurrences (Released task_id) s in
  match coroutines s !! task_id with
  | Some (Starting _ _ solver _) =>
      active_solvers s !! task_id = Some solver /\
      acquired = 1%nat /\ released = 0%nat
  | Some (Stopping _ _) =>
      is_Some (active_solvers s !! task_id) /\
      acquired = 1%nat /\ released = 0%nat
  | Some Finished =>
      active_solvers s !! task_id = None /\
      released = acquired /\ (acquired <= 1)%nat
  | _ =>
      task_results s !! task_id = None /\
      active_solvers s !! task_id = None /\
      acquired = 0%nat /\ released = 0%nat
  end.

Definition well_formed {B : Type} (s : State B) : Prop :=
  (forall task_id, coherent s task_id) /\
  (forall task_id result,
      task_results s !! task_id = Some result -> shaped result).

(** [s'] differs from [s] at most in what it holds for [task_id]. *)
Definition same_elsewhere {B : Type} (task_id : string) (s s' : State B)
    : Prop :=
  forall other, other <> task_id ->
    task_results s' !! other = task_results s !! other /\
    active_solvers s' !! other = active_solvers s !! other /\
    coroutines s' !! other = coroutines s !! other /\
    occurrences (Acquired other) s' = occurrences (Acquired other) s /\
    occurrences (Released other) s' = occurrences (Released other) s.

(** * The status page and further vocabulary *)

(** ** [get_status] (lines 540-567)

    The dictionary the handler returns, as a record of the fields it
    computes from the state; the fields copied from [server_info] and
    the current time are left out. *)
Record StatusReport := mkStatusReport {
  report_active_tasks : Z;
  report_max_concurrent_tasks : Z;
  report_tasks_stats : gmap string Z;
  report_total_tasks : Z
}.

(** Lines 552-555: one turn of the loop over [task_results.values()]. *)
Definition count_status (status_counts : gmap string Z) (result : Dict)
    : gmap string Z :=
  match result !! "status" with
  | Some (VStr status) =>
      match status_counts !! status with
      | Some n => <[status := n + 1]> status_counts
      | None => status_counts
      end
  | _ => status_counts
  end.

Definition get_status {B : Type} (max_concurrent_tasks : Z) (s : State B)
    : StatusReport * Z :=
  let status_counts : gmap string Z :=
    <["processing" := 0]> (<["success" := 0]> (<["error" := 0]> ∅)) in
  let status_counts :=
    List.fold_left count_status
      (List.map snd (map_to_list (task_results s))) status_counts in
  (mkStatusReport (Z.of_nat (size (active_solvers s))) max_concurrent_tasks
     status_counts (Z.of_nat (size (task_results s))),
   200).

(** The number of dictionaries of a list that have the given status. *)
Definition with_status (status : string) (results : list Dict) : nat :=
  length (List.filter (fun result => status_is result status) results).

(** ** Coroutines that have not run yet *)

Definition is_scheduled {B : Type} (c : Coroutine B) : bool :=
  match c with
  | Scheduled _ _ _ _ => true
  | _ => false
  end.

Definition pending {B : Type} (s : State B) : gmap string (Coroutine B) :=
  filter (fun item => is_scheduled (snd item) = true) (coroutines s).

Definition is_submit {B : Type} (l : Label (B := B)) : bool :=
  match l with
  | Submit _ _ => true
  | _ => false
  end.

(** A schedule in which a request is handled only when every coroutine
    created before it has run its first piece. *)
Fixpoint prompt {B : Type} `{Capability B} (max_concurrent_tasks : Z)
    (s : State B) (ls : list Label) : Prop :=
  match ls with
  | [] => True
  | l :: rest =>
      (is_submit l = true -> pending s = ∅) /\
      match step max_concurrent_tasks s l with
      | Some s' => prompt max_concurrent_tasks s' rest
      | None => True
      end
  end.

(** ** The entry of a task follows its coroutine *)

(** Until the result of the resolver is stored (a coroutine that is
    [Starting]) the entry of a task, when there is one, has the status
    "processing"; from then on it is a success or a failure; before the
    coroutine has run there is none. *)
Definition tracked {B : Type} (s : State B) (task_id : string) : Prop :=
  match coroutines s !! task_id, task_results s !! task_id with
  | _, None => True
  | Some (Starting _ _ _ _), Some result =>
      status_is result "processing" = true
  | Some (Stopping _ _), Some result => terminal result
  | Some Finished, Some result => terminal result
  | _, Some _ => False
  end.

(** What holds of every solver in [active_solvers] and of every
    coroutine that waits to run. *)
Definition solver_ok (solver : CloudflareSolver) : Prop :=
  solver_timeout solver <= 120 /\
  exists ua, solver_user_agent solver = Some ua /\ ua <> "".

Definition configured {B : Type} (s : State B) : Prop :=
  (forall task_id url user_agent proxy timeout,
      coroutines s !! task_id = Some (Scheduled url user_agent proxy timeout) ->
      timeout <= 120) /\
  (forall task_id solver,
      active_solvers s !! task_id = Some solver -> solver_ok solver).

(** The task a label is about. *)
Definition label_task {B : Type} (l : Label (B := B)) : option string :=
  match l with
  | Submit _ uuid => Some uuid
  | Enter task_id _ _ _ _ => Some task_id
  | Started task_id => Some task_id
  | Stopped task_id => Some task_id
  | Query _ => None
  | Sweep _ => None
  end.

(** ** A browser with one fixed script

    The scripted browser again, as a capability of its own for each
    script: the state is only the count of the reads of the cookie jar,
    so that a property of the script holds in every state. *)
Definition replay (sc : Script) : Capability nat := {|
  drv_start b := mkAnswer (on_start sc) b 0%N;
  drv_stop b := mkAnswer (on_stop sc) b 0%N;
  drv_get _ b := mkAnswer (on_get sc) b (get_ms sc);
  drv_cookies_get_all b := mkAnswer (on_cookies sc b) (S b) 0%N;
  drv_find_all selector b := mkAnswer (on_find_all sc selector) b 0%N;
  drv_mouse_click element b := mkAnswer (on_click sc element) b 0%N;
  drv_evaluate _ b := mkAnswer (on_evaluate sc) b 0%N;
  loop_lateness b := (0%N, b)
|}.

(** The cookie is there, but the browser does not tell its user agent. *)
Definition mute : Script :=
  mkScript (Returns tt) (Returns tt) (Returns tt) 0%N
    (fun _ => Returns [clearance]) (fun _ => Returns [])
    (fun _ => Returns tt) (Raises "Runtime.evaluate failed").

(** Task "a" runs; then a second request comes in. *)
Definition one_after_the_other : list (Label (B := Scripted)) :=
  [Submit example_request "a"; open_page "a" friendly;
   Submit example_request "b"].

(** ** The resolver up to the read of the user agent *)

(** The body of the outer [try] in two pieces, to speak of the state in
    which the user agent is read; [solve_body_find_cookie] shows that
    [solve_body] is the first followed by the second.

    Lines 150-196 of [solve_cloudflare]: navigation, the first read of
    the cookies, the polling loop and the interaction sweep. *)
Definition find_cookie {B : Type} `{Capability B} (fuel : nat)
    (self : CloudflareSolver) (url : string)
    : M B (list Cookie * option Cookie) :=
  await (drv_get url) ;;
  all_cookies <- get_cookies ;;
  let clearance_cookie := extract_clearance_cookie all_cookies in
  match clearance_cookie with
  | None =>
      start_wait <- time_time ;;
      waited <- wait_loop fuel (solver_timeout self) start_wait all_cookies ;;
      match snd waited with
      | None => interact (fst waited)
      | Some _ => ret waited
      end
  | Some _ => ret (all_cookies, clearance_cookie)
  end.

(** Lines 198-218: the read of the user agent and the building of the
    result. *)
Definition report {B : Type} `{Capability B} (start_time : Z)
    (found : list Cookie * option Cookie) : M B Dict :=
  current_user_agent <- get_user_agent ;;
  now <- time_time ;;
  let elapsed_time := now - start_time in
  match snd found with
  | Some clearance_cookie =>
      ret (success_result elapsed_time clearance_cookie current_user_agent
             (fst found))
  | None =>
      ret (error_result "Failed to retrieve cf_clearance cookie" elapsed_time)
  end.

(** ** Further scripts and inputs *)

(** The third read of the cookies, the second of the polling loop,
    raises; the reads before it find no clearance cookie. *)
Definition breaks_while_polling : Script :=
  mkScript (Returns tt) (Returns tt) (Returns tt) 0%N
    (fun k => if (k <? 2)%nat then Returns [] else Raises "connection closed")
    (fun _ => Returns [])
    (fun _ => Returns tt) (Returns "Mozilla/5.0 Chrome/120").

(** The clearance cookie appears at the third read of the cookies, the
    second of the polling loop. *)
Definition second_poll : Script :=
  mkScript (Returns tt) (Returns tt) (Returns tt) 0%N
    (fun k => if (k <? 2)%nat then Returns [] else Returns [clearance])
    (fun _ => Returns [])
    (fun _ => Returns tt) (Returns "Mozilla/5.0 Chrome/120").

(** Every user agent on the list is one of Firefox. *)
Definition firefox_only : list string := ["Mozilla/5.0 Firefox/121.0"].

(** * Properties of one run *)

Lemma bind_inv {B A C : Type} (m : M B A) (k : A -> M B C) w r w' :
  bind m k w = (r, w') ->
  (exists a w1, m w = (Ok a, w1) /\ k a w1 = (r, w')) \/
  (exists e, m w = (Raise e, w') /\ r = Raise e) \/
  (m w = (Diverge, w') /\ r = Diverge).
Proof.
  unfold bind. destruct (m w) as [[a|e|] w1]; intros Heq.
  - left. eauto.
  - right. left. inversion Heq; subst. eauto.
  - right. right. inversion Heq; subst. eauto.
Qed.

Lemma mono_ret {B A : Type} (a : A) : mono (@ret B A a).
Proof. intros w. simpl. lia. Qed.

Lemma mono_bind {B A C : Type} (m : M B A) (k : A -> M B C) :
  mono m -> (forall a, mono (k a)) -> mono (bind m k).
Proof.
  intros Hm Hk w. unfold bind. specialize (Hm w).
  destruct (m w) as [[a|e|] w1]; simpl in *; try lia.
  specialize (Hk a w1). lia.
Qed.

Lemma mono_try {B A : Type} (m : M B A) (h : exn -> M B A) :
  mono m -> (forall e, mono (h e)) -> mono (try_except m h).
Proof.
  intros Hm Hh w. unfold try_except. specialize (Hm w).
  destruct (m w) as [[a|e|] w1]; simpl in *; try lia.
  specialize (Hh e w1). lia.
Qed.

Lemma mono_for_each {B A : Type} (xs : list A) (body : A -> M B unit) :
  (forall x, mono (body x)) -> mono (for_each xs body).
Proof.
  intros Hb. induction xs as [|x xs IH]; simpl.
  - apply mono_ret.
  - apply mono_bind; auto.
Qed.

Lemma total_ret {B A : Type} (a : A) : total (@ret B A a).
Proof. intros w. simpl. discriminate. Qed.

Lemma total_bind {B A C : Type} (m : M B A) (k : A -> M B C) :
  total m -> (forall a, total (k a)) -> total (bind m k).
Proof.
  intros Hm Hk w. unfold bind. specialize (Hm w).
  destruct (m w) as [[a|e|] w1]; simpl in *;
    [apply Hk | discriminate | congruence].
Qed.

Lemma total_try {B A : Type} (m : M B A) (h : exn -> M B A) :
  total m -> (forall e, total (h e)) -> total (try_except m h).
Proof.
  intros Hm Hh w. unfold try_except. specialize (Hm w).
  destruct (m w) as [[a|e|] w1]; simpl in *;
    [discriminate | apply Hh | congruence].
Qed.

Lemma total_for_each {B A : Type} (xs : list A) (body : A -> M B unit) :
  (forall x, total (body x)) -> total (for_each xs body).
Proof.
  intros Hb. induction xs as [|x xs IH]; simpl.
  - apply total_ret.
  - apply total_bind; auto.
Qed.

Lemma quiet_ret {B A : Type} (a : A) : quiet (@ret B A a).
Proof. intros w e. simpl. discriminate. Qed.

Lemma quiet_bind {B A C : Type} (m : M B A) (k : A -> M B C) :
  quiet m -> (forall a, quiet (k a)) -> quiet (bind m k).
Proof.
  intros Hm Hk w e. unfold bind. specialize (Hm w).
  destruct (m w) as [[a|e'|] w1]; simpl in *.
  - apply Hk.
  - exfalso. apply (Hm e'). reflexivity.
  - discriminate.
Qed.

Lemma quiet_try {B A : Type} (m : M B A) (h : exn -> M B A) :
  (forall e, quiet (h e)) -> quiet (try_except m h).
Proof.
  intros Hh w e. unfold try_except.
  destruct (m w) as [[a|e'|] w1]; simpl;
    [discriminate | apply Hh | discriminate].
Qed.

Lemma quiet_for_each {B A : Type} (xs : list A) (body : A -> M B unit) :
  (forall x, quiet (body x)) -> quiet (for_each xs body).
Proof.
  intros Hb. induction xs as [|x xs IH]; simpl.
  - apply quiet_ret.
  - apply quiet_bind; auto.
Qed.

Create HintDb run discriminated.
#[export] Hint Resolve mono_ret mono_bind mono_try mono_for_each : run.
#[export] Hint Resolve total_ret total_bind total_try total_for_each : run.
#[export] Hint Resolve quiet_ret quiet_bind quiet_try quiet_for_each : run.

Section RunFacts.
Context {B : Type} `{Capability B}.

Lemma mono_time : mono (time_time (B := B)).
Proof. intros w. simpl. lia. Qed.

Lemma mono_await {A : Type} (op : B -> Answer B A) : mono (await op).
Proof. intros w. unfold await. destruct (ans (op (driver w))); simpl; lia. Qed.

Lemma mono_sleep (seconds : Z) : 0 <= seconds -> mono (asyncio_sleep seconds).
Proof.
  intros Hs w. unfold asyncio_sleep.
  destruct (loop_lateness (driver w)) as [late b]. simpl. lia.
Qed.

Lemma total_time : total (time_time (B := B)).
Proof. intros w. simpl. discriminate. Qed.

Lemma total_await {A : Type} (op : B -> Answer B A) : total (await op).
Proof.
  intros w. unfold await. destruct (ans (op (driver w))); simpl; discriminate.
Qed.

Lemma total_sleep (seconds : Z) : total (asyncio_sleep seconds).
Proof.
  intros w. unfold asyncio_sleep.
  destruct (loop_lateness (driver w)) as [late b]. simpl. discriminate.
Qed.

Lemma quiet_time : quiet (time_time (B := B)).
Proof. intros w e. simpl. discriminate. Qed.

Lemma mono_get_cookies : mono get_cookies.
Proof. unfold get_cookies. auto using mono_await with run. Qed.

Lemma total_get_cookies : total get_cookies.
Proof. unfold get_cookies. auto using total_await with run. Qed.

Lemma mono_click_all elements : mono (click_all elements).
Proof.
  unfold click_all. apply mono_for_each. intros x.
  apply mono_try; [|auto with run].
  apply mono_bind; [apply mono_await|]. intros _. apply mono_sleep. lia.
Qed.

Lemma total_click_all elements : total (click_all elements).
Proof.
  unfold click_all. apply total_for_each. intros x.
  apply total_try; [|auto with run].
  apply total_bind; [apply total_await|]. intros _. apply total_sleep.
Qed.

Lemma quiet_click_all elements : quiet (click_all elements).
Proof.
  unfold click_all. apply quiet_for_each. intros x.
  apply quiet_try. auto with run.
Qed.

Lemma mono_interact all_cookies : mono (interact all_cookies).
Proof.
  unfold interact. apply mono_try; [|auto with run].
  apply mono_bind; [apply mono_await|]. intros buttons.
  apply mono_bind; [apply mono_click_all|]. intros _.
  apply mono_bind; [apply mono_await|]. intros checkboxes.
  apply mono_bind; [apply mono_click_all|]. intros _.
  apply mono_bind; [apply mono_get_cookies|]. intros cs. apply mono_ret.
Qed.

Lemma total_interact all_cookies : total (interact all_cookies).
Proof.
  unfold interact. apply total_try; [|auto with run].
  apply total_bind; [apply total_await|]. intros buttons.
  apply total_bind; [apply total_click_all|]. intros _.
  apply total_bind; [apply total_await|]. intros checkboxes.
  apply total_bind; [apply total_click_all|]. intros _.
  apply total_bind; [apply total_get_cookies|]. intros cs. apply total_ret.
Qed.

(** Whatever the page does during the sweep, [interact] returns. *)
Lemma quiet_interact all_cookies : quiet (interact all_cookies).
Proof. unfold interact. apply quiet_try. auto with run. Qed.

Lemma mono_wait_loop fuel timeout start_wait all_cookies :
  mono (wait_loop fuel timeout start_wait all_cookies).
Proof.
  revert all_cookies. induction fuel as [|fuel IH]; intros all_cookies; simpl.
  - apply mono_bind; [apply mono_time|]. intros now.
    destruct (now - start_wait <? timeout * 1000); [|apply mono_ret].
    intros w. simpl. lia.
  - apply mono_bind; [apply mono_time|]. intros now.
    destruct (now - start_wait <? timeout * 1000); [|apply mono_ret].
    apply mono_bind; [apply mono_sleep; lia|]. intros _.
    apply mono_bind; [apply mono_get_cookies|]. intros cs.
    destruct (extract_clearance_cookie cs); [apply mono_ret|apply IH].
Qed.

End RunFacts.

(** ** The polling loop *)

Section Polling.
Context {B : Type} `{Capability B}.

Lemma wait_loop_unfold fuel timeout start_wait all_cookies w :
  wait_loop fuel timeout start_wait all_cookies w =
  if clock w - start_wait <? timeout * 1000 then
    match fuel with
    | O => (Diverge, w)
    | S fuel' =>
        (asyncio_sleep 1 ;;
         all_cookies <- get_cookies ;;
         match extract_clearance_cookie all_cookies with
         | Some clearance_cookie => ret (all_cookies, Some clearance_cookie)
         | None => wait_loop fuel' timeout start_wait all_cookies
         end) w
    end
  else (Ok (all_cookies, None), w).
Proof.
  destruct fuel; simpl; unfold bind at 1, time_time;
    destruct (clock w - start_wait <? timeout * 1000); reflexivity.
Qed.

(** One turn of the loop takes a second or more. *)
Lemma poll_takes_a_second w r w' :
  (asyncio_sleep 1 ;; get_cookies) w = (r, w') -> clock w + 1000 <= clock w'.
Proof.
  intros Heq. unfold bind, asyncio_sleep in Heq.
  destruct (loop_lateness (driver w)) as [late b].
  pose proof (mono_get_cookies (mkWorld (clock w + 1 * 1000 + Z.of_N late) b))
    as Hm.
  destruct (get_cookies _) as [[cs|e|] w1]; inversion Heq; subst;
    simpl in Hm; lia.
Qed.

(** The loop needs at most as many turns as there are seconds left. *)
Lemma wait_loop_terminates fuel timeout start_wait all_cookies w :
  timeout * 1000 - (clock w - start_wait) <= Z.of_nat fuel * 1000 ->
  fst (wait_loop fuel timeout start_wait all_cookies w) <> Diverge.
Proof.
  revert all_cookies w.
  induction fuel as [|fuel IH]; intros all_cookies w Hleft;
    rewrite wait_loop_unfold;
    destruct (Z.ltb_spec (clock w - start_wait) (timeout * 1000)) as [Hlt|Hge];
    try (simpl; discriminate); try lia.
  destruct ((asyncio_sleep 1 ;; get_cookies) w) as [r w1] eqn:Hpoll.
  pose proof (poll_takes_a_second _ _ _ Hpoll) as Hsec.
  pose proof (total_sleep 1 w) as Hs.
  unfold bind in *. destruct (asyncio_sleep 1 w) as [[[]|e|] w0].
  - pose proof (total_get_cookies w0) as Hg.
    destruct (get_cookies w0) as [[cs|e|] w2]; inversion Hpoll; subst;
      [|simpl; discriminate|simpl in Hg; congruence].
    destruct (extract_clearance_cookie cs); [simpl; discriminate|].
    apply IH. lia.
  - simpl. discriminate.
  - simpl in Hs. congruence.
Qed.

(** The loop is left either with the cookie that the last read found,
    or without one once [timeout] seconds have passed since
    [start_wait]. *)
Lemma wait_loop_exit fuel timeout start_wait all_cookies w cs found w' :
  wait_loop fuel timeout start_wait all_cookies w = (Ok (cs, found), w') ->
  match found with
  | Some c => extract_clearance_cookie cs = Some c
  | None => timeout * 1000 <= clock w' - start_wait
  end.
Proof.
  revert all_cookies w.
  induction fuel as [|fuel IH]; intros all_cookies w;
    rewrite wait_loop_unfold;
    destruct (Z.ltb_spec (clock w - start_wait) (timeout * 1000)) as [Hlt|Hge];
    intros Heq; try discriminate;
    try (inversion Heq; subst; lia).
  unfold bind in Heq. destruct (asyncio_sleep 1 w) as [[[]|e|] w0];
    try discriminate.
  destruct (get_cookies w0) as [[cs0|e|] w2]; try discriminate.
  destruct (extract_clearance_cookie cs0) eqn:Hc.
  - inversion Heq; subst. exact Hc.
  - eapply IH. exact Heq.
Qed.

Lemma total_wait_phase fuel timeout all_cookies :
  (Z.to_nat timeout <= fuel)%nat ->
  total (start_wait <- time_time ;;
         wait_loop fuel timeout start_wait all_cookies).
Proof.
  intros Hfuel w. unfold bind at 1, time_time.
  apply wait_loop_terminates. lia.
Qed.

End Polling.

(** ** The resolver *)

Section Resolver.
Context {B : Type} `{Capability B}.

Ltac bind_ok H a w Hm :=
  apply bind_inv in H as [(a & w & Hm & H) | [(? & ? & ?) | (? & ?)]];
  [| discriminate | discriminate].

Lemma mono_at {A : Type} (m : M B A) w r w' :
  mono m -> m w = (r, w') -> clock w <= clock w'.
Proof. intros Hm Heq. specialize (Hm w). rewrite Heq in Hm. exact Hm. Qed.

Lemma interact_found all_cookies w cs found w' :
  interact all_cookies w = (Ok (cs, found), w') ->
  match found with
  | Some c => extract_clearance_cookie cs = Some c
  | None => True
  end.
Proof.
  unfold interact, try_except. intros Heq.
  match type of Heq with
  | context [match ?m w with _ => _ end] => destruct (m w) as [[r|e|] w1] eqn:Hm
  end; try discriminate.
  - inversion Heq; subst.
    bind_ok Hm buttons w2 H1. bind_ok Hm u1 w3 H2.
    bind_ok Hm checkboxes w4 H3. bind_ok Hm u2 w5 H4.
    bind_ok Hm cs' w6 H5. inversion Hm; subst.
    destruct (extract_clearance_cookie cs); auto.
  - inversion Heq; subst. exact I.
Qed.

(** What the body of the outer [try] yields when nothing escapes it: a
    success built from a cookie named [cf_clearance], or the failure
    "Failed to retrieve cf_clearance cookie", and in that case the
    polling loop has run its full [timeout] seconds. *)
Lemma solve_body_returns fuel self url start_time w result w' :
  solve_body fuel self url start_time w = (Ok result, w') ->
  (exists c ua cs,
      result = success_result (clock w' - start_time) c ua cs /\
      extract_clearance_cookie cs = Some c) \/
  (result =
     error_result "Failed to retrieve cf_clearance cookie"
       (clock w' - start_time) /\
   solver_timeout self * 1000 <= clock w' - clock w).
Proof.
  unfold solve_body. intros Heq.
  bind_ok Heq u w1 Hget. apply (mono_at _ _ _ _ (mono_await _)) in Hget.
  bind_ok Heq all_cookies w2 Hcookies.
  apply (mono_at _ _ _ _ mono_get_cookies) in Hcookies.
  bind_ok Heq found w3 Hfound.
  bind_ok Heq ua w4 Hua. apply (mono_at _ _ _ _ (mono_await _)) in Hua.
  bind_ok Heq now w5 Hnow. inversion Hnow; subst now w5. clear Hnow.
  assert (Hphase :
    match snd found with
    | Some c => extract_clearance_cookie (fst found) = Some c
    | None => solver_timeout self * 1000 <= clock w3 - clock w2
    end).
  { destruct (extract_clearance_cookie all_cookies) as [c|] eqn:Hfirst.
    - inversion Hfound; subst. simpl. exact Hfirst.
    - bind_ok Hfound start_wait w6 Hsw. inversion Hsw; subst start_wait w6.
      bind_ok Hfound waited w7 Hwait. destruct waited as [cs [c|]]; simpl in *.
      + inversion Hfound; subst. simpl.
        exact (wait_loop_exit _ _ _ _ _ _ _ _ Hwait).
      + pose proof (wait_loop_exit _ _ _ _ _ _ _ _ Hwait) as Hexit.
        simpl in Hexit. destruct found as [cs' found'].
        pose proof (interact_found _ _ _ _ _ Hfound) as Hi.
        apply (mono_at _ _ _ _ (mono_interact _)) in Hfound.
        simpl. destruct found'; [exact Hi | lia]. }
  destruct found as [cs [c|]]; simpl in *; inversion Heq; subst.
  - left. eauto.
  - right. split; [reflexivity | lia].
Qed.

Lemma total_solve_body fuel self url start_time :
  (Z.to_nat (solver_timeout self) <= fuel)%nat ->
  total (solve_body fuel self url start_time).
Proof.
  intros Hfuel. unfold solve_body.
  apply total_bind; [apply total_await|]. intros _.
  apply total_bind; [apply total_get_cookies|]. intros all_cookies.
  apply total_bind.
  - destruct (extract_clearance_cookie all_cookies); [apply total_ret|].
    intros w. unfold bind at 1, time_time.
    pose proof (wait_loop_terminates fuel (solver_timeout self) (clock w)
                  all_cookies w) as Hw.
    unfold bind.
    destruct (wait_loop fuel (solver_timeout self) (clock w) all_cookies w)
      as [[[cs [c|]]|e|] w1]; simpl in *; try discriminate.
    + apply total_interact.
    + apply Hw. lia.
  - intros found. apply total_bind; [apply total_await|]. intros ua.
    apply total_bind; [apply total_time|]. intros now.
    destruct (snd found); apply total_ret.
Qed.

(** No exception leaves [solve_cloudflare]. *)
Lemma quiet_solve_cloudflare fuel self url :
  quiet (solve_cloudflare fuel self url).
Proof.
  unfold solve_cloudflare. apply quiet_bind; [apply quiet_time|].
  intros start_time. apply quiet_try. intros e.
  apply quiet_bind; [apply quiet_time|]. intros now. apply quiet_ret.
Qed.

Lemma total_solve_cloudflare fuel self url :
  (Z.to_nat (solver_timeout self) <= fuel)%nat ->
  total (solve_cloudflare fuel self url).
Proof.
  intros Hfuel. unfold solve_cloudflare.
  apply total_bind; [apply total_time|]. intros start_time.
  apply total_try; [apply total_solve_body; exact Hfuel|]. intros e.
  apply total_bind; [apply total_time|]. intros now. apply total_ret.
Qed.

(** [solve_cloudflare] in terms of the body of its [try]. *)
Lemma solve_cloudflare_unfold fuel self url w :
  solve_cloudflare fuel self url w =
  match solve_body fuel self url (clock w) w with
  | (Ok result, w') => (Ok result, w')
  | (Raise e, w') => (Ok (error_result e (clock w' - clock w)), w')
  | (Diverge, w') => (Diverge, w')
  end.
Proof.
  unfold solve_cloudflare, bind at 1, time_time, try_except.
  destruct (solve_body fuel self url (clock w) w) as [[r|e|] w']; reflexivity.
Qed.

(** The dictionary [solve_cloudflare] returns has one of two forms. *)
Lemma solve_cloudflare_returns fuel self url w result w' :
  solve_cloudflare fuel self url w = (Ok result, w') ->
  (exists elapsed c ua cs, result = success_result elapsed c ua cs) \/
  (exists reason elapsed, result = error_result reason elapsed).
Proof.
  rewrite solve_cloudflare_unfold.
  destruct (solve_body fuel self url (clock w) w) as [[r|e|] w1] eqn:Hbody;
    intros Heq; inversion Heq; subst.
  - apply solve_body_returns in Hbody as [(c & ua & cs & -> & _) | [-> _]];
      eauto 6.
  - eauto.
Qed.

End Resolver.

(** * Properties of the server *)

(** ** Stored dictionaries *)

Lemma shaped_consistent result : shaped result -> consistent result.
Proof.
  intros [t | elapsed c ua cs t | reason elapsed t]; unfold consistent.
  - left. split; [reflexivity|].
    unfold processing_entry.
    rewrite !dom_insert_L, dom_empty_L. set_solver.
  - right. left. split; [reflexivity|].
    unfold success_result.
    rewrite !dom_insert_L, dom_empty_L. set_solver.
  - right. right. split; [reflexivity|].
    unfold error_result.
    rewrite !dom_insert_L, dom_empty_L. set_solver.
Qed.

Lemma status_is_stored result t status :
  status_is (<["timestamp" := VNum t]> result) status = status_is result status.
Proof. unfold status_is. rewrite lookup_insert_ne; [reflexivity | discriminate]. Qed.

Lemma timestamp_of_stored result t :
  timestamp_of (<["timestamp" := VNum t]> result) = t.
Proof. unfold timestamp_of. rewrite lookup_insert_eq. reflexivity. Qed.

(** ** Updates of the state *)

Section Updates.
Context {B : Type}.
Implicit Types (s : State B) (e : Event).

Lemma count_snoc (l : list Event) e e' :
  count_occ Event_eq_dec (l ++ [e']) e =
  (count_occ Event_eq_dec l e + if decide (e' = e) then 1 else 0)%nat.
Proof.
  rewrite count_occ_app. simpl.
  destruct (decide (e' = e)); destruct (Event_eq_dec e' e);
    congruence.
Qed.

Lemma release_results t s : task_results (release t s) = task_results s.
Proof. unfold release. destruct (active_solvers s !! t); reflexivity. Qed.

Lemma release_coroutines t s : coroutines (release t s) = coroutines s.
Proof. unfold release. destruct (active_solvers s !! t); reflexivity. Qed.

Lemma release_active t s :
  active_solvers (release t s) = delete t (active_solvers s).
Proof.
  unfold release. destruct (active_solvers s !! t) eqn:Ht; simpl.
  - reflexivity.
  - symmetry. apply delete_id. exact Ht.
Qed.

Lemma release_history t s :
  history (release t s) =
  (history s ++ match active_solvers s !! t with
                | Some _ => [Released t]
                | None => []
                end)%list.
Proof.
  unfold release. destruct (active_solvers s !! t); simpl.
  - reflexivity.
  - rewrite app_nil_r. reflexivity.
Qed.

Lemma release_acquired t other s :
  occurrences (Acquired other) (release t s) = occurrences (Acquired other) s.
Proof.
  unfold occurrences. rewrite release_history.
  destruct (active_solvers s !! t).
  - rewrite count_snoc. rewrite decide_False by discriminate. lia.
  - rewrite app_nil_r. reflexivity.
Qed.

Lemma release_released t s :
  occurrences (Released t) (release t s) =
  (occurrences (Released t) s +
   match active_solvers s !! t with Some _ => 1 | None => 0 end)%nat.
Proof.
  unfold occurrences. rewrite release_history.
  destruct (active_solvers s !! t).
  - rewrite count_snoc. rewrite decide_True by reflexivity. reflexivity.
  - rewrite app_nil_r. lia.
Qed.

Lemma same_elsewhere_refl t s : same_elsewhere t s s.
Proof. intros other _. auto. Qed.

Lemma same_elsewhere_trans t s1 s2 s3 :
  same_elsewhere t s1 s2 -> same_elsewhere t s2 s3 -> same_elsewhere t s1 s3.
Proof.
  intros H12 H23 other Hne.
  destruct (H12 other Hne) as (? & ? & ? & ? & ?).
  destruct (H23 other Hne) as (? & ? & ? & ? & ?).
  repeat split; congruence.
Qed.

Lemma same_elsewhere_set_result t result s :
  same_elsewhere t s (set_result t result s).
Proof.
  intros other Hne. unfold set_result, occurrences. simpl.
  rewrite lookup_insert_ne by congruence. auto.
Qed.

Lemma same_elsewhere_set_coroutine t c s :
  same_elsewhere t s (set_coroutine t c s).
Proof.
  intros other Hne. unfold set_coroutine, occurrences. simpl.
  rewrite lookup_insert_ne by congruence. auto.
Qed.

Lemma same_elsewhere_acquire t solver s :
  same_elsewhere t s (acquire t solver s).
Proof.
  intros other Hne. unfold acquire, occurrences. simpl.
  rewrite lookup_insert_ne by congruence. rewrite !count_snoc.
  rewrite decide_False by congruence. rewrite decide_False by discriminate.
  repeat split; lia.
Qed.

Lemma same_elsewhere_release t s : same_elsewhere t s (release t s).
Proof.
  intros other Hne.
  rewrite release_results, release_coroutines, release_active,
    release_acquired.
  rewrite lookup_delete_ne by congruence.
  repeat split. unfold occurrences. rewrite release_history.
  destruct (active_solvers s !! t).
  - rewrite count_snoc. rewrite decide_False by congruence. lia.
  - rewrite app_nil_r. reflexivity.
Qed.

Lemma same_elsewhere_task_failed t start_time (e : exn) now s :
  same_elsewhere t s (task_failed t start_time e now s).
Proof.
  unfold task_failed.
  eapply same_elsewhere_trans; [apply same_elsewhere_set_result|].
  eapply same_elsewhere_trans; [apply same_elsewhere_release|].
  apply same_elsewhere_set_coroutine.
Qed.

Lemma coherent_elsewhere t s s' other :
  same_elsewhere t s s' -> other <> t -> coherent s other -> coherent s' other.
Proof.
  intros Hsame Hne. destruct (Hsame other Hne) as (Hr & Ha & Hc & Hx & Hy).
  unfold coherent. rewrite Hr, Ha, Hc, Hx, Hy. auto.
Qed.

End Updates.

(** ** The sweeper *)

Lemma delete_keys_lookup (keys : list string) (results : gmap string Dict) k :
  delete_keys keys results !! k =
  if decide (k ∈ keys) then None else results !! k.
Proof.
  unfold delete_keys. revert results.
  induction keys as [|key keys IH]; intros results; cbn [fold_left].
  - rewrite decide_False; [reflexivity | apply not_elem_of_nil].
  - rewrite IH. destruct (decide (k ∈ keys)) as [Hin|Hout].
    + rewrite decide_True; [reflexivity | apply elem_of_cons; auto].
    + destruct (decide (k = key)) as [->|Hne].
      * rewrite lookup_delete_eq.
        rewrite decide_True; [reflexivity | apply elem_of_cons; auto].
      * rewrite lookup_delete_ne by congruence.
        rewrite decide_False; [reflexivity|].
        rewrite elem_of_cons. tauto.
Qed.

Lemma keys_to_delete_spec now (results : gmap string Dict) k :
  k ∈ keys_to_delete now results <->
  exists result, results !! k = Some result /\ timestamp_of result < now - DAY.
Proof.
  unfold keys_to_delete. rewrite list_elem_of_In, in_map_iff. split.
  - intros ([k' result] & Hk & Hin). simpl in Hk. subst k'.
    apply filter_In in Hin as [Hin Hold]. simpl in Hold.
    apply list_elem_of_In, elem_of_map_to_list in Hin.
    exists result. split; [exact Hin | lia].
  - intros (result & Hk & Hold). exists (k, result). split; [reflexivity|].
    apply filter_In. split.
    + apply list_elem_of_In, elem_of_map_to_list. exact Hk.
    + simpl. lia.
Qed.

(** One turn of the sweeper, entry by entry. *)
Lemma cleanup_tasks_lookup {B : Type} now (s : State B) k :
  task_results (cleanup_tasks now s) !! k =
  match task_results s !! k with
  | Some result =>
      if timestamp_of result <? now - DAY then None else Some result
  | None => None
  end.
Proof.
  unfold cleanup_tasks. simpl. rewrite delete_keys_lookup.
  destruct (decide (k ∈ keys_to_delete now (task_results s))) as [Hin|Hout].
  - apply keys_to_delete_spec in Hin as (result & -> & Hold).
    destruct (Z.ltb_spec (timestamp_of result) (now - DAY)); [reflexivity|lia].
  - destruct (task_results s !! k) as [result|] eqn:Hk; [|reflexivity].
    destruct (Z.ltb_spec (timestamp_of result) (now - DAY)); [|reflexivity].
    exfalso. apply Hout. apply keys_to_delete_spec. eauto.
Qed.

(** ** Every reachable state is well formed *)

Section Invariant.
Context {B : Type} `{Capability B}.
Variable max_concurrent_tasks : Z.
Implicit Types (s : State B).

Lemma task_failed_at t start_time (e : exn) now s :
  let s' := task_failed t start_time e now s in
  task_results s' !! t =
    Some (<["timestamp" := VNum now]> (error_result e (now - start_time))) /\
  active_solvers s' !! t = None /\
  coroutines s' !! t = Some Finished /\
  occurrences (Acquired t) s' = occurrences (Acquired t) s /\
  occurrences (Released t) s' =
    (occurrences (Released t) s +
     match active_solvers s !! t with Some _ => 1 | None => 0 end)%nat.
Proof.
  unfold task_failed. simpl.
  change (occurrences ?e (set_coroutine ?t ?c ?s)) with (occurrences e s).
  rewrite release_results, release_active, release_acquired, release_released.
  simpl. rewrite !lookup_insert_eq, lookup_delete_eq. auto.
Qed.

Lemma well_formed_update t s s' :
  well_formed s -> same_elsewhere t s s' -> coherent s' t ->
  (forall result, task_results s' !! t = Some result -> shaped result) ->
  well_formed s'.
Proof.
  intros [Hco Hsh] Hsame Ht Hshape. split.
  - intros other. destruct (decide (other = t)) as [->|Hne]; [exact Ht|].
    eapply coherent_elsewhere; eauto.
  - intros other result. destruct (decide (other = t)) as [->|Hne]; [auto|].
    destruct (Hsame other Hne) as (-> & _). apply Hsh.
Qed.

Lemma well_formed_initial : well_formed (initial (B := B)).
Proof.
  split.
  - intros t. unfold coherent, occurrences. simpl.
    rewrite !lookup_empty. auto.
  - intros t result. simpl. rewrite lookup_empty. discriminate.
Qed.

Lemma solve_state req uuid s :
  snd (solve max_concurrent_tasks req uuid s) = s \/
  exists url user_agent proxy timeout,
    snd (solve max_concurrent_tasks req uuid s) =
    set_coroutine uuid (Scheduled url user_agent proxy timeout) s.
Proof.
  unfold solve.
  destruct (negb (truthy (arg_url req))); [left; reflexivity|].
  destruct (truthy (arg_proxy req) && _); [left; reflexivity|].
  destruct (_ >=? _); [left; reflexivity|].
  right. simpl. eauto.
Qed.

Lemma well_formed_submit req uuid s :
  coroutines s !! uuid = None -> well_formed s ->
  well_formed (snd (solve max_concurrent_tasks req uuid s)).
Proof.
  intros Hfresh Hwf.
  destruct (solve_state req uuid s)
    as [-> | (url & ua & proxy & timeout & ->)]; [exact Hwf|].
  pose proof (proj1 Hwf uuid) as Hco. unfold coherent in Hco.
  rewrite Hfresh in Hco. destruct Hco as (Hr & Ha & Hx & Hy).
  apply (well_formed_update uuid s); auto using same_elsewhere_set_coroutine.
  - unfold coherent, set_coroutine, occurrences in *. simpl.
    rewrite lookup_insert_eq. auto.
  - intros result. simpl. rewrite Hr. discriminate.
Qed.

Lemma well_formed_enter t now latest rnd browser s s' :
  task_enter t now latest rnd browser s = Some s' ->
  well_formed s -> well_formed s'.
Proof.
  unfold task_enter. intros Hstep Hwf.
  pose proof (proj1 Hwf t) as Hco. unfold coherent in Hco.
  destruct (coroutines s !! t) as [[url ua proxy timeout| | | |]|];
    try discriminate.
  destruct Hco as (Hr & Ha & Hx & Hy).
  match type of Hstep with
  | context [match ?c with Returns _ => _ | Raises _ => _ end] =>
      destruct c as [user_agent|e]
  end.
  - destruct browser as [b|e]; inversion Hstep; subst s'; clear Hstep.
    + apply (well_formed_update t s); auto.
      * eapply same_elsewhere_trans; [apply same_elsewhere_set_result|].
        eapply same_elsewhere_trans; [apply same_elsewhere_acquire|].
        apply same_elsewhere_set_coroutine.
      * unfold coherent, occurrences in *. simpl.
        rewrite !lookup_insert_eq, !count_snoc.
        rewrite decide_True by reflexivity.
        rewrite decide_False by discriminate. repeat split; lia.
      * intros result. simpl. rewrite lookup_insert_eq.
        intros [= <-]. apply shaped_processing.
    + pose proof (task_failed_at t now e now
                    (set_result t (processing_entry now) s)) as Hf.
      cbv zeta in Hf. destruct Hf as (Hr' & Ha' & Hc' & Hx' & Hy').
      apply (well_formed_update t s); auto.
      * eapply same_elsewhere_trans; [apply same_elsewhere_set_result|].
        apply same_elsewhere_task_failed.
      * unfold coherent. rewrite Hc', Ha', Hx', Hy'.
        change (active_solvers (set_result ?t ?r ?s)) with (active_solvers s).
        rewrite Ha.
        unfold occurrences in *. simpl. repeat split; lia.
      * intros result. rewrite Hr'. intros [= <-]. apply shaped_error.
  - inversion Hstep; subst s'; clear Hstep.
    apply (well_formed_update t s); auto using same_elsewhere_set_coroutine.
    + unfold coherent, set_coroutine, occurrences in *. simpl.
      rewrite lookup_insert_eq. auto.
    + intros result. simpl. rewrite Hr. discriminate.
Qed.

Lemma started_from_resolver (solver : CloudflareSolver) url fuel
    (w : World B) result w' :
  (await drv_start ;; solve_cloudflare fuel solver url) w = (Ok result, w') ->
  exists w1, solve_cloudflare fuel solver url w1 = (Ok result, w').
Proof.
  intros Heq.
  apply bind_inv in Heq as [(a & w1 & _ & Heq) | [(? & ? & ?) | (? & ?)]];
    [eauto | discriminate | discriminate].
Qed.

Lemma well_formed_started t s s' :
  task_started t s = Some s' -> well_formed s -> well_formed s'.
Proof.
  unfold task_started. intros Hstep Hwf.
  pose proof (proj1 Hwf t) as Hco. unfold coherent in Hco.
  destruct (coroutines s !! t) as [[| url start_time solver w | | |]|];
    try discriminate.
  destruct Hco as (Ha & Hx & Hy).
  match type of Hstep with
  | context [match ?m w with _ => _ end] =>
      destruct (m w) as [[result|e|] w'] eqn:Hrun
  end; inversion Hstep; subst s'; clear Hstep.
  - apply (well_formed_update t s); auto.
    + eapply same_elsewhere_trans; [apply same_elsewhere_set_result|].
      apply same_elsewhere_set_coroutine.
    + unfold coherent, occurrences in *. simpl.
      rewrite lookup_insert_eq, Ha. auto.
    + intros r. simpl. rewrite lookup_insert_eq. intros [= <-].
      apply started_from_resolver in Hrun as [w1 Hrun].
      apply solve_cloudflare_returns in Hrun
        as [(el & c & ua & cs & ->) | (reason & el & ->)];
        [apply shaped_success | apply shaped_error].
  - pose proof (task_failed_at t start_time e (clock w') s) as Hf.
    cbv zeta in Hf. destruct Hf as (Hr' & Ha' & Hc' & Hx' & Hy').
    apply (well_formed_update t s); auto using same_elsewhere_task_failed.
    + unfold coherent. rewrite Hc', Ha', Hx', Hy', Ha.
      repeat split; lia.
    + intros r. rewrite Hr'. intros [= <-]. apply shaped_error.
Qed.

Lemma well_formed_stopped t s s' :
  task_stopped t s = Some s' -> well_formed s -> well_formed s'.
Proof.
  unfold task_stopped. intros Hstep Hwf.
  pose proof (proj1 Hwf t) as Hco. unfold coherent in Hco.
  destruct (coroutines s !! t) as [[| | start_time w | |]|] eqn:Hc;
    try discriminate.
  destruct Hco as ([solver Ha] & Hx & Hy).
  assert (Hdone : well_formed (set_coroutine t Finished (release t s))).
  { apply (well_formed_update t s); auto.
    - eapply same_elsewhere_trans; [apply same_elsewhere_release|].
      apply same_elsewhere_set_coroutine.
    - unfold coherent.
      change (occurrences ?e (set_coroutine ?t ?c ?s)) with (occurrences e s).
      simpl. rewrite lookup_insert_eq.
      rewrite release_active, release_acquired, release_released.
      rewrite lookup_delete_eq, Ha. repeat split; lia.
    - intros r. simpl. rewrite release_results. apply (proj2 Hwf). }
  destruct (await drv_stop w) as [[[]|e|] w'];
    inversion Hstep; subst s'; clear Hstep; auto.
  pose proof (task_failed_at t start_time e (clock w') s) as Hf.
  cbv zeta in Hf. destruct Hf as (Hr' & Ha' & Hc' & Hx' & Hy').
  apply (well_formed_update t s); auto using same_elsewhere_task_failed.
  - unfold coherent. rewrite Hc', Ha', Hx', Hy', Ha. repeat split; lia.
  - intros r. rewrite Hr'. intros [= <-]. apply shaped_error.
Qed.

Lemma well_formed_sweep now s : well_formed s -> well_formed (cleanup_tasks now s).
Proof.
  intros [Hco Hsh]. split.
  - intros t. specialize (Hco t). unfold coherent in *.
    change (occurrences ?e (cleanup_tasks now s)) with (occurrences e s).
    rewrite cleanup_tasks_lookup. simpl.
    destruct (coroutines s !! t) as [[| | | |]|]; auto;
      destruct Hco as (-> & ?); auto.
  - intros t result. rewrite cleanup_tasks_lookup.
    destruct (task_results s !! t) as [r|] eqn:Hr; [|discriminate].
    destruct (timestamp_of r <? now - DAY); [discriminate|].
    intros [= <-]. eauto.
Qed.

Lemma well_formed_step s l s' :
  step max_concurrent_tasks s l = Some s' -> well_formed s -> well_formed s'.
Proof.
  destruct l as [req uuid | t now latest rnd browser | t | t | id | now];
    simpl; intros Hstep Hwf.
  - destruct (coroutines s !! uuid) eqn:Hfresh; [discriminate|].
    inversion Hstep; subst. apply well_formed_submit; assumption.
  - eapply well_formed_enter; eassumption.
  - eapply well_formed_started; eassumption.
  - eapply well_formed_stopped; eassumption.
  - inversion Hstep; subst. exact Hwf.
  - inversion Hstep; subst. apply well_formed_sweep. exact Hwf.
Qed.

Lemma well_formed_run ls s s' :
  run max_concurrent_tasks s ls = Some s' -> well_formed s -> well_formed s'.
Proof.
  revert s. induction ls as [|l ls IH]; simpl; intros s Hrun Hwf.
  - inversion Hrun; subst. exact Hwf.
  - destruct (step max_concurrent_tasks s l) as [s1|] eqn:Hstep;
      [|discriminate].
    eapply IH; [exact Hrun|]. eapply well_formed_step; eassumption.
Qed.

Lemma reachable_well_formed s :
  reachable max_concurrent_tasks s -> well_formed s.
Proof.
  intros [ls Hrun]. eapply well_formed_run; [exact Hrun|].
  apply well_formed_initial.
Qed.

End Invariant.

(** ** What a step leaves alone *)

Section Frames.
Context {B : Type} `{Capability B}.
Variable max_concurrent_tasks : Z.
Implicit Types (s : State B).

Lemma task_enter_scheduled t now latest rnd browser s s' :
  task_enter t now latest rnd browser s = Some s' ->
  exists url user_agent proxy timeout,
    coroutines s !! t = Some (Scheduled url user_agent proxy timeout).
Proof.
  unfold task_enter.
  destruct (coroutines s !! t) as [[url ua proxy timeout| | | |]|];
    try discriminate.
  eauto.
Qed.

Lemma task_enter_elsewhere t now latest rnd browser s s' :
  task_enter t now latest rnd browser s = Some s' -> same_elsewhere t s s'.
Proof.
  unfold task_enter.
  destruct (coroutines s !! t) as [[url ua proxy timeout| | | |]|];
    try discriminate.
  match goal with
  | |- context [match ?c with Returns _ => _ | Raises _ => _ end] =>
      destruct c as [user_agent|e]
  end.
  - destruct browser as [b|e]; intros [= <-].
    + eapply same_elsewhere_trans; [apply same_elsewhere_set_result|].
      eapply same_elsewhere_trans; [apply same_elsewhere_acquire|].
      apply same_elsewhere_set_coroutine.
    + eapply same_elsewhere_trans; [apply same_elsewhere_set_result|].
      apply same_elsewhere_task_failed.
  - intros [= <-]. apply same_elsewhere_set_coroutine.
Qed.

Lemma task_started_elsewhere t s s' :
  task_started t s = Some s' -> same_elsewhere t s s'.
Proof.
  unfold task_started.
  destruct (coroutines s !! t) as [[| url start_time solver w | | |]|];
    try discriminate.
  match goal with
  | |- context [match ?m w with _ => _ end] =>
      destruct (m w) as [[result|e|] w']
  end; intros [= <-].
  - eapply same_elsewhere_trans; [apply same_elsewhere_set_result|].
    apply same_elsewhere_set_coroutine.
  - apply same_elsewhere_task_failed.
Qed.

Lemma task_stopped_elsewhere t s s' :
  task_stopped t s = Some s' -> same_elsewhere t s s'.
Proof.
  unfold task_stopped.
  destruct (coroutines s !! t) as [[| | start_time w | |]|];
    try discriminate.
  destruct (await drv_stop w) as [[[]|e|] w']; intros [= <-];
    try apply same_elsewhere_task_failed;
    (eapply same_elsewhere_trans; [apply same_elsewhere_release|];
     apply same_elsewhere_set_coroutine).
Qed.

(** [solve] writes neither [task_results] nor [active_solvers]. *)
Lemma solve_leaves_dictionaries req uuid s :
  task_results (snd (solve max_concurrent_tasks req uuid s)) = task_results s /\
  active_solvers (snd (solve max_concurrent_tasks req uuid s)) =
    active_solvers s /\
  history (snd (solve max_concurrent_tasks req uuid s)) = history s.
Proof.
  destruct (solve_state max_concurrent_tasks req uuid s)
    as [-> | (url & ua & proxy & timeout & ->)]; auto.
Qed.

(** Once a coroutine has finished, no step writes its entry again; only
    the sweeper can still remove it. *)
Lemma step_keeps_finished t s l s' :
  coroutines s !! t = Some Finished ->
  step max_concurrent_tasks s l = Some s' ->
  coroutines s' !! t = Some Finished /\
  (task_results s' !! t = task_results s !! t \/
   (exists now, l = Sweep now) /\ task_results s' !! t = None).
Proof.
  intros Hfin.
  destruct l as [req uuid | t' now latest rnd browser | t' | t' | id | now];
    simpl; intros Hstep.
  - destruct (coroutines s !! uuid) eqn:Hfresh; [discriminate|].
    inversion Hstep; subst s'; clear Hstep.
    destruct (solve_state max_concurrent_tasks req uuid s)
      as [-> | (url & ua & proxy & timeout & ->)]; [auto|].
    simpl. rewrite lookup_insert_ne by congruence. auto.
  - assert (t <> t') as Hne.
    { apply task_enter_scheduled in Hstep as (? & ? & ? & ? & Hs). congruence. }
    apply task_enter_elsewhere in Hstep.
    destruct (Hstep t Hne) as (-> & _ & -> & _). auto.
  - assert (t <> t') as Hne.
    { intros ->. unfold task_started in Hstep. rewrite Hfin in Hstep.
      discriminate. }
    apply task_started_elsewhere in Hstep.
    destruct (Hstep t Hne) as (-> & _ & -> & _). auto.
  - assert (t <> t') as Hne.
    { intros ->. unfold task_stopped in Hstep. rewrite Hfin in Hstep.
      discriminate. }
    apply task_stopped_elsewhere in Hstep.
    destruct (Hstep t Hne) as (-> & _ & -> & _). auto.
  - inversion Hstep; subst. auto.
  - inversion Hstep; subst s'; clear Hstep. split; [exact Hfin|].
    rewrite cleanup_tasks_lookup.
    destruct (task_results s !! t) as [r|]; [|auto].
    destruct (timestamp_of r <? now - DAY); eauto.
Qed.

Lemma run_keeps_finished t ls s s' :
  coroutines s !! t = Some Finished ->
  run max_concurrent_tasks s ls = Some s' ->
  coroutines s' !! t = Some Finished /\
  (task_results s' !! t = task_results s !! t \/
   (exists now, In (Sweep now) ls) /\ task_results s' !! t = None).
Proof.
  revert s. induction ls as [|l ls IH]; simpl; intros s Hfin Hrun.
  - inversion Hrun; subst. auto.
  - destruct (step max_concurrent_tasks s l) as [s1|] eqn:Hstep;
      [|discriminate].
    destruct (step_keeps_finished _ _ _ _ Hfin Hstep) as [Hfin1 Hres1].
    destruct (IH _ Hfin1 Hrun) as [Hfin' Hres']. split; [exact Hfin'|].
    destruct Hres' as [Hsame | [[now Hin] Hnone]].
    + rewrite Hsame. destruct Hres1 as [? | [[now ->] ?]]; [auto|].
      right. split; [exists now; auto | assumption].
    + right. split; [exists now; auto | assumption].
Qed.

(** ** A suspended coroutine can always go on *)

Lemma task_started_enabled t s url start_time solver w :
  coroutines s !! t = Some (Starting url start_time solver w) ->
  exists s', task_started t s = Some s'.
Proof.
  intros Hc. unfold task_started. rewrite Hc.
  match goal with
  | |- context [match ?m w with _ => _ end] =>
      assert (total m) as Htot
  end.
  { apply total_bind; [apply total_await|]. intros _.
    apply total_solve_cloudflare. lia. }
  specialize (Htot w).
  match goal with
  | |- context [match ?m w with _ => _ end] =>
      destruct (m w) as [[result|e|] w']
  end; simpl in Htot; [eauto | eauto | congruence].
Qed.

Lemma task_stopped_enabled t s start_time w :
  coroutines s !! t = Some (Stopping start_time w) ->
  exists s', task_stopped t s = Some s'.
Proof.
  intros Hc. unfold task_stopped. rewrite Hc.
  destruct (await drv_stop w) as [[[]|e|] w']; eauto.
Qed.

End Frames.

(** * The claims *)

(** ** Admission *)

(** [solve] accepts only below the maximum. *)
Lemma solve_accepts_below_maximum {B : Type} max_concurrent_tasks req uuid
    (s : State B) :
  code (fst (solve max_concurrent_tasks req uuid s)) = 202 ->
  Z.of_nat (size (active_solvers s)) < max_concurrent_tasks.
Proof.
  unfold solve.
  destruct (negb (truthy (arg_url req))); [discriminate|].
  destruct (truthy (arg_proxy req) && _); [discriminate|].
  destruct (Z.geb_spec (Z.of_nat (size (active_solvers s)))
              max_concurrent_tasks); [discriminate|].
  intros _. lia.
Qed.

(** C1, a defect of the code.  With [max_concurrent_tasks = 1], two
    requests whose handlers run before the first scheduled coroutine has
    started are both accepted with 202; once both coroutines have run
    up to [await self.driver.start()], [active_solvers] holds two
    entries and both tasks have the status "processing".  The test of
    [solve] reads [len(active_solvers)], which grows only when the
    coroutine runs, so test and insertion are not one step. *)
Theorem admission_race :
  let s1 := snd (solve 1 example_request "a" (initial (B := Scripted))) in
  code (fst (solve 1 example_request "a" (initial (B := Scripted)))) = 202 /\
  code (fst (solve 1 example_request "b" s1)) = 202 /\
  exists s,
    run 1 initial
      [Submit example_request "a"; Submit example_request "b";
       open_page "a" friendly; open_page "b" friendly] = Some s /\
    size (active_solvers s) = 2%nat /\
    has_status s "a" "processing" /\ has_status s "b" "processing".
Proof.
  cbv zeta. split; [vm_compute; reflexivity|].
  split; [vm_compute; reflexivity|].
  exists (default initial
            (run 1 initial
               [Submit example_request "a"; Submit example_request "b";
                open_page "a" friendly; open_page "b" friendly])).
  split; [vm_compute; reflexivity|].
  split; [vm_compute; reflexivity|].
  split; exists (processing_entry 0); split; vm_compute; reflexivity.
Qed.

(** ** Retention *)

(** C2, against the claim as stated: a task whose coroutine is still
    waiting for [driver.start()], with the status "processing" and an
    entry in [active_solvers], loses its entry in [task_results] as soon
    as one turn of the sweeper runs more than a day after the task
    began. *)
Lemma sweeper_removes_running_task :
  exists s : State Scripted,
    run 10 initial [Submit example_request "a"; open_page "a" friendly]
      = Some s /\
    has_status s "a" "processing" /\
    is_Some (active_solvers s !! "a") /\
    task_results (cleanup_tasks (DAY + 1) s) !! "a" = None.
Proof.
  exists one_task_starting. split; [vm_compute; reflexivity|].
  split; [exists (processing_entry 0); split; vm_compute; reflexivity|].
  split; [exists (mkSolver 60 (Some "Mozilla/5.0 Chrome/120.0"));
          vm_compute; reflexivity|].
  vm_compute. reflexivity.
Qed.

(** C2, as amended.  One turn of the sweeper at time [now] decides by
    the timestamp alone, whatever the status: an entry whose timestamp
    is older than [now - DAY] is removed, so every terminal entry whose
    completion time precedes the cutoff is removed; an entry whose
    timestamp is not older is kept unchanged, so a task that began less
    than a day ago is never removed.  Nothing else in the state changes
    and no entry appears. *)
Theorem cleanup_tasks_by_age {B : Type} (now : Z) (s : State B)
    (task_id : string) (result : Dict) :
  task_results s !! task_id = Some result ->
  (timestamp_of result < now - DAY ->
     task_results (cleanup_tasks now s) !! task_id = None) /\
  (now - DAY <= timestamp_of result ->
     task_results (cleanup_tasks now s) !! task_id = Some result) /\
  active_solvers (cleanup_tasks now s) = active_solvers s /\
  coroutines (cleanup_tasks now s) = coroutines s /\
  (forall other, task_results s !! other = None ->
     task_results (cleanup_tasks now s) !! other = None).
Proof.
  intros Hentry. repeat split.
  - intros Hold. rewrite cleanup_tasks_lookup, Hentry.
    destruct (Z.ltb_spec (timestamp_of result) (now - DAY)); [reflexivity|lia].
  - intros Hyoung. rewrite cleanup_tasks_lookup, Hentry.
    destruct (Z.ltb_spec (timestamp_of result) (now - DAY)); [lia|reflexivity].
  - intros other Hnone. rewrite cleanup_tasks_lookup, Hnone. reflexivity.
Qed.

Lemma cleanup_tasks_by_age_witness :
  let old := <["timestamp" := VNum 5]> (error_result "gone" 3) in
  let s : State Scripted := set_result "a" old initial in
  task_results s !! "a" = Some old /\
  timestamp_of old < (DAY + 6) - DAY /\
  task_results (cleanup_tasks (DAY + 6) s) !! "a" = None.
Proof.
  cbv zeta. split; [reflexivity|]. split; [vm_compute; reflexivity|].
  refine (proj1 (cleanup_tasks_by_age (DAY + 6) _ "a" _ _) _).
  - reflexivity.
  - vm_compute. reflexivity.
Defined.

(** ** Stored entries *)

Lemma get_result_ext {B : Type} id (s s' : State B) :
  task_results s' !! default "" id = task_results s !! default "" id ->
  get_result id s' = get_result id s.
Proof. unfold get_result. intros ->. reflexivity. Qed.

(** C3, against the claim as stated: the resolver stores a success for
    task "a"; a read returns it with 200; closing the browser then
    raises, the [except] clause of [solve_cloudflare_task] stores an
    error over the success, and the next read returns that error. *)
Lemma stored_success_overwritten :
  exists s1 s2 : State Scripted,
    run 10 initial
      [Submit example_request "a"; open_page "a" flaky_stop; Started "a"]
      = Some s1 /\
    step 10 s1 (Stopped "a") = Some s2 /\
    code (get_result (Some "a") s1) = 200 /\
    has_status s1 "a" "success" /\
    code (get_result (Some "a") s2) = 200 /\
    has_status s2 "a" "error" /\
    body (get_result (Some "a") s1) <> body (get_result (Some "a") s2).
Proof.
  exists (default initial
            (run 10 initial
               [Submit example_request "a"; open_page "a" flaky_stop;
                Started "a"])).
  exists (default initial
            (run 10 initial
               [Submit example_request "a"; open_page "a" flaky_stop;
                Started "a"; Stopped "a"])).
  split; [vm_compute; reflexivity|].
  split; [vm_compute; reflexivity|].
  split; [vm_compute; reflexivity|].
  split; [exists friendly_entry; split; vm_compute; reflexivity|].
  split; [vm_compute; reflexivity|].
  split.
  { exists (<["timestamp" := VNum 0]>
              (error_result "browser process is gone" 0)).
    split; vm_compute; reflexivity. }
  intros Heq. apply (f_equal (fun d : Dict => d !! "reason")) in Heq.
  vm_compute in Heq. discriminate.
Qed.

(** C3, as amended.  In every reachable state every stored entry is
    consistent: with the status "processing" it holds the keys status
    and timestamp and nothing else, with "success" exactly the keys of a
    success, with "error" exactly the keys of a failure.  Once the
    coroutine of a task has returned, its entry is never written again:
    whatever the server does afterwards, a read of that task returns
    the identical response, until a turn of the sweeper removes the
    entry. *)
Theorem entries_consistent_and_settled {B : Type} `{Capability B}
    (max_concurrent_tasks : Z) (s : State B) :
  reachable max_concurrent_tasks s ->
  (forall task_id result,
      task_results s !! task_id = Some result -> consistent result) /\
  (forall task_id ls s',
      coroutines s !! task_id = Some Finished ->
      run max_concurrent_tasks s ls = Some s' ->
      get_result (Some task_id) s' = get_result (Some task_id) s \/
      (exists now, In (Sweep now) ls) /\ task_results s' !! task_id = None).
Proof.
  intros Hreach. split.
  - intros task_id result Hentry. apply shaped_consistent.
    apply (reachable_well_formed _ _ Hreach) in Hentry. exact Hentry.
  - intros task_id ls s' Hfin Hrun.
    destruct (run_keeps_finished _ _ _ _ _ Hfin Hrun) as [_ [Hsame | Hgone]].
    + left. apply get_result_ext. exact Hsame.
    + right. exact Hgone.
Qed.

Lemma entries_consistent_and_settled_witness :
  reachable 10 after_one_task /\
  (forall task_id result,
      task_results after_one_task !! task_id = Some result ->
      consistent result) /\
  (coroutines after_one_task !! "a" = Some Finished /\
   run 10 after_one_task [Submit socks5_request "b"; Query (Some "a")]
     <> None /\
   forall s',
     run 10 after_one_task [Submit socks5_request "b"; Query (Some "a")]
       = Some s' ->
     get_result (Some "a") s' = get_result (Some "a") after_one_task).
Proof.
  assert (Hreach : reachable 10 after_one_task).
  { exists one_task_done. vm_compute. reflexivity. }
  split; [exact Hreach|].
  destruct (entries_consistent_and_settled 10 after_one_task Hreach)
    as [Hcons Hsettled].
  split; [exact Hcons|].
  split; [vm_compute; reflexivity|].
  split; [vm_compute; discriminate|].
  intros s' Hrun.
  destruct (Hsettled "a" _ s' eq_refl Hrun) as [Hsame | [[now Hin] _]].
  - exact Hsame.
  - simpl in Hin. destruct Hin as [Hin | [Hin | []]]; discriminate.
Defined.

(** ** Exceptions in the resolver *)

(** C4, against the claim as stated: the page has no clearance cookie
    and the lookup of its buttons raises "DOM detached".  The resolver
    returns a failure, but its reason is the fixed text of the timeout
    failure and not the description of the exception: the [try] around
    the interaction sweep has dropped it. *)
Lemma sweep_exception_is_not_the_reason :
  let b := mkScripted detached 0 in
  ans (drv_find_all "button" b) = Raises "DOM detached" /\
  fst (solve_cloudflare 0 (mkSolver 0 None) "https://example.com"
         (mkWorld 0 b))
  = Ok (error_result "Failed to retrieve cf_clearance cookie" 0) /\
  error_result "Failed to retrieve cf_clearance cookie" 0
  <> error_result "DOM detached" 0.
Proof.
  cbv zeta. split; [reflexivity|]. split; [vm_compute; reflexivity|].
  intros Heq. apply (f_equal (fun d : Dict => d !! "reason")) in Heq.
  vm_compute in Heq. discriminate.
Qed.

Lemma status_is_success_result elapsed c ua cs :
  status_is (success_result elapsed c ua cs) "error" = false.
Proof. reflexivity. Qed.

Section ResolverExceptions.
Context {B : Type} `{Capability B}.

Lemma bind_bind {A C D : Type} (m : M B A) (k1 : A -> M B C)
    (k2 : C -> M B D) w :
  bind (bind m k1) k2 w = bind m (fun a => bind (k1 a) k2) w.
Proof. unfold bind. destruct (m w) as [[a|e|] w1]; reflexivity. Qed.

Lemma bind_ext {A C : Type} (m : M B A) (k k' : A -> M B C) w :
  (forall a w1, k a w1 = k' a w1) -> bind m k w = bind m k' w.
Proof. intros Hk. unfold bind. destruct (m w) as [[a|e|] w1]; auto. Qed.

(** The body of the outer [try] is [find_cookie] followed by
    [report]. *)
Lemma solve_body_find_cookie fuel self url start_time (w : World B) :
  solve_body fuel self url start_time w =
  (found <- find_cookie fuel self url ;; report start_time found) w.
Proof.
  unfold solve_body, find_cookie, report. symmetry.
  rewrite bind_bind. apply bind_ext. intros _ w1.
  rewrite bind_bind. reflexivity.
Qed.

(** When the first read of the cookies finds the clearance cookie,
    [find_cookie] ends there; otherwise the polling loop begins, with
    [start_wait] the time at which that read has ended. *)
Lemma find_cookie_from_first_read fuel self url (w : World B) all_cookies w2 :
  (await (drv_get url) ;; get_cookies) w = (Ok all_cookies, w2) ->
  find_cookie fuel self url w =
  match extract_clearance_cookie all_cookies with
  | Some clearance_cookie => (Ok (all_cookies, Some clearance_cookie), w2)
  | None =>
      (waited <-
         wait_loop fuel (solver_timeout self) (clock w2) all_cookies ;;
       match snd waited with
       | None => interact (fst waited)
       | Some _ => ret waited
       end) w2
  end.
Proof.
  intros Hfirst.
  apply bind_inv in Hfirst
    as [(u & w1 & Hget & Hcookies) | [(? & ? & ?) | (? & ?)]];
    try discriminate.
  unfold find_cookie, bind at 1. rewrite Hget.
  unfold bind at 1. rewrite Hcookies. cbv zeta.
  destruct (extract_clearance_cookie all_cookies); reflexivity.
Qed.

Lemma get_cookies_raises (w : World B) e :
  ans (drv_cookies_get_all (driver w)) = Raises e ->
  get_cookies w =
  (Raise e,
   mkWorld (clock w + Z.of_N (took (drv_cookies_get_all (driver w))))
     (after (drv_cookies_get_all (driver w)))).
Proof.
  intros Hread. unfold get_cookies, bind, await. rewrite Hread. reflexivity.
Qed.

(** An exception of [get_cookies] is one of [driver.cookies.get_all]. *)
Lemma get_cookies_raised (w : World B) e w' :
  get_cookies w = (Raise e, w') ->
  ans (drv_cookies_get_all (driver w)) = Raises e.
Proof.
  unfold get_cookies, bind, await.
  destruct (ans (drv_cookies_get_all (driver w))) as [cs|e'];
    intros Heq; inversion Heq; reflexivity.
Qed.

(** An exception leaves the polling loop only from a read of the
    cookies. *)
Lemma wait_loop_raised fuel timeout start_wait all_cookies (w : World B) e w' :
  wait_loop fuel timeout start_wait all_cookies w = (Raise e, w') ->
  exists b, ans (drv_cookies_get_all b) = Raises e.
Proof.
  revert all_cookies w.
  induction fuel as [|fuel IH]; intros all_cookies w;
    rewrite wait_loop_unfold;
    destruct (clock w - start_wait <? timeout * 1000); try discriminate.
  unfold bind at 1. unfold asyncio_sleep.
  destruct (loop_lateness (driver w)) as [late b].
  unfold bind at 1.
  match goal with
  | |- context [get_cookies ?w1] =>
      destruct (get_cookies w1) as [[cs|e'|] w2] eqn:Hread
  end; try discriminate.
  - destruct (extract_clearance_cookie cs); [discriminate|]. apply IH.
  - intros Heq. inversion Heq; subst.
    apply get_cookies_raised in Hread. eauto.
Qed.

Lemma interact_lookup_raises all_cookies (w : World B) e :
  ans (drv_find_all "button" (driver w)) = Raises e ->
  interact all_cookies w =
  (Ok (all_cookies, None),
   mkWorld (clock w + Z.of_N (took (drv_find_all "button" (driver w))))
     (after (drv_find_all "button" (driver w)))).
Proof.
  intros Hfind. unfold interact, try_except, bind at 1, await.
  rewrite Hfind. reflexivity.
Qed.

End ResolverExceptions.

(** C4, as amended.  No instance of [Exception] leaves
    [solve_cloudflare]: with the fuel its timeout calls for, it returns
    a dictionary.  Whatever leaves the body of the outer [try] becomes
    the failure whose reason is the description of the exception and
    whose elapsed time is the time from the start to the exception; a
    dictionary the body returns is returned as it is, and when it is a
    failure its reason is the fixed text.  An exception leaves the body
    when it is one of navigation, of the first read of the cookies, of
    a read of the cookies in the polling loop, which ends the loop at
    once and is the only thing the loop ever raises, or of the read of
    the user agent, which follows [find_cookie].  An exception raised
    inside the interaction sweep never leaves [interact]: when the
    lookup of the buttons raises, the sweep ends there without a cookie,
    and the exception is not the reason. *)
Theorem resolver_catches_exceptions {B : Type} `{Capability B}
    (fuel : nat) (self : CloudflareSolver) (url : string) (w : World B) :
  (Z.to_nat (solver_timeout self) <= fuel)%nat ->
  exists result w',
    solve_cloudflare fuel self url w = (Ok result, w') /\
    solve_body fuel self url (clock w) w =
      (found <- find_cookie fuel self url ;; report (clock w) found) w /\
    (forall e w1,
        solve_body fuel self url (clock w) w = (Raise e, w1) ->
        result = error_result e (clock w1 - clock w) /\ w' = w1) /\
    (forall r w1,
        solve_body fuel self url (clock w) w = (Ok r, w1) ->
        result = r /\ w' = w1 /\
        (status_is r "error" = true ->
         r = error_result "Failed to retrieve cf_clearance cookie"
               (clock w1 - clock w))) /\
    (forall e,
        ans (drv_get url (driver w)) = Raises e ->
        result =
          error_result e (Z.of_N (took (drv_get url (driver w))))) /\
    (forall e w1,
        await (drv_get url) w = (Ok tt, w1) ->
        ans (drv_cookies_get_all (driver w1)) = Raises e ->
        result =
          error_result e
            (clock w1 + Z.of_N (took (drv_cookies_get_all (driver w1)))
             - clock w)) /\
    (forall e all_cookies w2 w3,
        (await (drv_get url) ;; get_cookies) w = (Ok all_cookies, w2) ->
        extract_clearance_cookie all_cookies = None ->
        wait_loop fuel (solver_timeout self) (clock w2) all_cookies w2
          = (Raise e, w3) ->
        result = error_result e (clock w3 - clock w) /\
        exists b, ans (drv_cookies_get_all b) = Raises e) /\
    (forall e fuel' timeout start_wait all_cookies w0 w1,
        clock w0 - start_wait < timeout * 1000 ->
        asyncio_sleep 1 w0 = (Ok tt, w1) ->
        ans (drv_cookies_get_all (driver w1)) = Raises e ->
        fst (wait_loop (S fuel') timeout start_wait all_cookies w0)
          = Raise e) /\
    (forall e found w3,
        find_cookie fuel self url w = (Ok found, w3) ->
        ans (drv_evaluate "navigator.userAgent" (driver w3)) = Raises e ->
        result =
          error_result e
            (clock w3
             + Z.of_N (took (drv_evaluate "navigator.userAgent" (driver w3)))
             - clock w)) /\
    (forall all_cookies w2 e, fst (interact all_cookies w2) <> Raise e) /\
    (forall all_cookies w2 e,
        ans (drv_find_all "button" (driver w2)) = Raises e ->
        fst (interact all_cookies w2) = Ok (all_cookies, None)).
Proof.
  intros Hfuel.
  pose proof (total_solve_cloudflare fuel self url Hfuel w) as Htot.
  pose proof (quiet_solve_cloudflare fuel self url w) as Hquiet.
  destruct (solve_cloudflare fuel self url w) as [[result|e|] w'] eqn:Hrun;
    simpl in Htot, Hquiet;
    [| exfalso; apply (Hquiet e); reflexivity | congruence].
  exists result, w'. split; [reflexivity|].
  rewrite solve_cloudflare_unfold in Hrun.
  assert (Hraise : forall e w1,
    solve_body fuel self url (clock w) w = (Raise e, w1) ->
    result = error_result e (clock w1 - clock w) /\ w' = w1).
  { intros e w1 Hbody. rewrite Hbody in Hrun. inversion Hrun; subst. auto. }
  split; [apply solve_body_find_cookie|].
  split; [exact Hraise|].
  split; [|split; [|split; [|split; [|split; [|split; [|split]]]]]].
  - intros r w1 Hbody. rewrite Hbody in Hrun. inversion Hrun; subst.
    split; [reflexivity|]. split; [reflexivity|]. intros Hstatus.
    apply solve_body_returns in Hbody
      as [(c & ua & cs & -> & _) | [-> _]]; [|reflexivity].
    rewrite status_is_success_result in Hstatus. discriminate.
  - intros e Hget.
    destruct (Hraise e
      (mkWorld (clock w + Z.of_N (took (drv_get url (driver w))))
         (after (drv_get url (driver w))))) as [-> _].
    { unfold solve_body, bind at 1, await. rewrite Hget. reflexivity. }
    simpl. f_equal. lia.
  - intros e w1 Hget Hread.
    destruct (Hraise e
      (mkWorld (clock w1 + Z.of_N (took (drv_cookies_get_all (driver w1))))
         (after (drv_cookies_get_all (driver w1))))) as [-> _];
      [|reflexivity].
    unfold solve_body, bind at 1. rewrite Hget.
    unfold bind at 1. rewrite (get_cookies_raises w1 e Hread). reflexivity.
  - intros e all_cookies w2 w3 Hfirst Hnone Hloop.
    split; [|eapply wait_loop_raised; exact Hloop].
    destruct (Hraise e w3) as [-> _]; [|reflexivity].
    apply bind_inv in Hfirst
      as [(u & w1 & Hget & Hcookies) | [(? & ? & ?) | (? & ?)]];
      try discriminate.
    unfold solve_body, bind at 1. rewrite Hget.
    unfold bind at 1. rewrite Hcookies. cbv zeta. rewrite Hnone.
    unfold bind at 1. unfold bind at 1, time_time.
    unfold bind at 1. rewrite Hloop. reflexivity.
  - intros e fuel' timeout start_wait all_cookies w0 w1 Hlt Hsleep Hread.
    rewrite wait_loop_unfold.
    destruct (Z.ltb_spec (clock w0 - start_wait) (timeout * 1000)); [|lia].
    unfold bind at 1. rewrite Hsleep.
    unfold bind at 1. rewrite (get_cookies_raises w1 e Hread). reflexivity.
  - intros e found w3 Hfound Hua.
    destruct (Hraise e
      (mkWorld
         (clock w3
          + Z.of_N (took (drv_evaluate "navigator.userAgent" (driver w3))))
         (after (drv_evaluate "navigator.userAgent" (driver w3)))))
      as [-> _]; [|reflexivity].
    rewrite solve_body_find_cookie. unfold bind at 1. rewrite Hfound.
    unfold report, bind at 1, get_user_agent, await. rewrite Hua.
    reflexivity.
  - intros all_cookies w2 e. apply quiet_interact.
  - intros all_cookies w2 e Hfind.
    rewrite (interact_lookup_raises all_cookies w2 e Hfind). reflexivity.
Qed.

Lemma resolver_catches_exceptions_witness :
  let w := mkWorld 100 (mkScripted unreachable_site 0) in
  let polling := mkWorld 100 (mkScripted breaks_while_polling 0) in
  (Z.to_nat (solver_timeout (mkSolver 60 None)) <= 60)%nat /\
  ans (drv_get "https://example.com" (driver w))
    = Raises "net::ERR_NAME_NOT_RESOLVED" /\
  fst (solve_cloudflare 60 (mkSolver 60 None) "https://example.com" w)
    = Ok (error_result "net::ERR_NAME_NOT_RESOLVED" 7) /\
  fst (solve_cloudflare 60 (mkSolver 60 None) "https://example.com" polling)
    = Ok (error_result "connection closed" 2000).
Proof.
  cbv zeta. split; [vm_compute; lia|]. split; [reflexivity|]. split.
  - destruct (resolver_catches_exceptions 60 (mkSolver 60 None)
                "https://example.com"
                (mkWorld 100 (mkScripted unreachable_site 0)))
      as (result & w' & Hrun & _ & _ & _ & Hnav & _).
    + vm_compute. lia.
    + rewrite Hrun. simpl. f_equal. apply Hnav. reflexivity.
  - destruct (resolver_catches_exceptions 60 (mkSolver 60 None)
                "https://example.com"
                (mkWorld 100 (mkScripted breaks_while_polling 0)))
      as (result & w' & Hrun & _ & _ & _ & _ & _ & Hpoll & _).
    + vm_compute. lia.
    + rewrite Hrun. simpl. f_equal.
      destruct (Hpoll "connection closed" []
                  (mkWorld 100 (mkScripted breaks_while_polling 1))
                  (mkWorld 2100 (mkScripted breaks_while_polling 3)))
        as [-> _]; [vm_compute; reflexivity .. |].
      reflexivity.
Defined.

(** ** Validation in [solve] *)

Lemma solve_accepted {B : Type} max_concurrent_tasks req uuid (s : State B) :
  code (fst (solve max_concurrent_tasks req uuid s)) = 202 ->
  snd (solve max_concurrent_tasks req uuid s) =
  set_coroutine uuid
    (Scheduled (default "" (arg_url req)) (arg_user_agent req) (arg_proxy req)
       (limit_timeout (default 60 (arg_timeout req)))) s.
Proof.
  unfold solve.
  destruct (negb (truthy (arg_url req))); [discriminate|].
  destruct (truthy (arg_proxy req) && _); [discriminate|].
  destruct (_ >=? _); [discriminate|]. reflexivity.
Qed.

Lemma solve_refused {B : Type} max_concurrent_tasks req uuid (s : State B) :
  code (fst (solve max_concurrent_tasks req uuid s)) <> 202 ->
  snd (solve max_concurrent_tasks req uuid s) = s.
Proof.
  unfold solve.
  destruct (negb (truthy (arg_url req))); [reflexivity|].
  destruct (truthy (arg_proxy req) && _); [reflexivity|].
  destruct (_ >=? _); [reflexivity|]. simpl. congruence.
Qed.

Lemma prefix_not_empty p s : p <> "" -> String.prefix p s = true -> s <> "".
Proof. intros Hp Hpre ->. destruct p; [congruence | discriminate]. Qed.

(** C5, against the claim as stated.  With the maximum at 1 and one
    task running, a request with a valid url and the proxy
    [socks5://x] is answered 429, not 202; and a request whose proxy is
    the empty string, which starts with none of the four schemes, is
    not rejected: an empty proxy counts as no proxy. *)
Lemma valid_request_refused_at_capacity :
  reachable 1 one_task_starting /\
  code (fst (solve 1 socks5_request "b" one_task_starting)) = 429 /\
  proxy_scheme_ok "" = false /\
  code (fst (solve 1 empty_proxy_request "b" (initial (B := Scripted)))) = 202.
Proof.
  split.
  { exists [Submit example_request "a"; open_page "a" friendly].
    vm_compute. reflexivity. }
  repeat split; vm_compute; reflexivity.
Qed.

(** C5, as amended.  [solve] checks its parameters before anything
    else: a request with no url, or an empty one, is answered 400; a
    request with a proxy that is not empty and starts with none of
    [http://], [https://], [socks4://], [socks5://] is answered 400; in
    both cases the state is unchanged.  A request with a url and a proxy
    that starts with [socks5://] passes the checks: it is answered 202,
    and its coroutine is scheduled, when fewer than
    [max_concurrent_tasks] solvers are active, and 429 with the state
    unchanged otherwise.  Whenever the answer is not 202 the state is
    unchanged, and [solve] never writes [task_results] or
    [active_solvers]. *)
Theorem solve_validates_first {B : Type} (max_concurrent_tasks : Z)
    (req : Request) (uuid : string) (s : State B) :
  let response := fst (solve max_concurrent_tasks req uuid s) in
  let s' := snd (solve max_concurrent_tasks req uuid s) in
  (truthy (arg_url req) = false -> code response = 400 /\ s' = s) /\
  (forall proxy,
      arg_proxy req = Some proxy -> proxy <> "" ->
      proxy_scheme_ok proxy = false ->
      code response = 400 /\ s' = s) /\
  (forall proxy,
      truthy (arg_url req) = true -> arg_proxy req = Some proxy ->
      String.prefix "socks5://" proxy = true ->
      (Z.of_nat (size (active_solvers s)) < max_concurrent_tasks ->
       code response = 202 /\
       exists url timeout,
         s' = set_coroutine uuid
                (Scheduled url (arg_user_agent req) (Some proxy) timeout) s) /\
      (max_concurrent_tasks <= Z.of_nat (size (active_solvers s)) ->
       code response = 429 /\ s' = s)) /\
  (code response <> 202 -> s' = s) /\
  task_results s' = task_results s /\
  active_solvers s' = active_solvers s.
Proof.
  cbv zeta. split; [|split; [|split; [|split]]].
  - intros Hurl. unfold solve. rewrite Hurl. simpl. auto.
  - intros proxy Hproxy Hne Hbad. unfold solve.
    destruct (negb (truthy (arg_url req))); [simpl; auto|].
    rewrite Hproxy. simpl. rewrite Hbad.
    destruct (String.eqb_spec proxy ""); [congruence|]. simpl. auto.
  - intros proxy Hurl Hproxy Hsocks.
    assert (Hne : proxy <> "").
    { eapply prefix_not_empty; [|exact Hsocks]. discriminate. }
    assert (Hok : proxy_scheme_ok proxy = true).
    { unfold proxy_scheme_ok. rewrite Hsocks. apply orb_true_r. }
    unfold solve. rewrite Hurl, Hproxy. simpl. rewrite Hok.
    rewrite andb_false_r.
    destruct (Z.geb_spec (Z.of_nat (size (active_solvers s)))
                max_concurrent_tasks); simpl.
    + split; [lia | auto].
    + split; [eauto | lia].
  - apply solve_refused.
  - destruct (solve_leaves_dictionaries max_concurrent_tasks req uuid s)
      as (? & ? & _). auto.
Qed.

Lemma solve_validates_first_witness :
  truthy (arg_url socks5_request) = true /\
  arg_proxy socks5_request = Some "socks5://x" /\
  String.prefix "socks5://" "socks5://x" = true /\
  Z.of_nat (size (active_solvers (initial (B := Scripted)))) < 10 /\
  code (fst (solve 10 socks5_request "a" (initial (B := Scripted)))) = 202.
Proof.
  repeat (split; [reflexivity|]).
  destruct (solve_validates_first 10 socks5_request "a"
              (initial (B := Scripted)))
    as (_ & _ & Hsocks & _).
  destruct (Hsocks "socks5://x" eq_refl eq_refl eq_refl) as [Hfree _].
  apply Hfree. reflexivity.
Defined.

(** ** The timeout of a request *)

Lemma task_enter_starting {B : Type} t now latest rnd browser
    (s s' : State B) url user_agent proxy timeout url' start_time solver w :
  coroutines s !! t = Some (Scheduled url user_agent proxy timeout) ->
  task_enter t now latest rnd browser s = Some s' ->
  coroutines s' !! t = Some (Starting url' start_time solver w) ->
  url' = url /\ start_time = now /\ solver_timeout solver = timeout /\
  active_solvers s' !! t = Some solver /\
  (if truthy user_agent then solver_user_agent solver = user_agent
   else exists agents ua,
       latest = Returns agents /\
       get_chrome_user_agent agents rnd = Returns ua /\
       solver_user_agent solver = Some ua).
Proof.
  unfold task_enter. intros ->.
  destruct (truthy user_agent).
  - destruct browser as [b|e]; intros [= <-]; simpl;
      rewrite lookup_insert_eq; intros [= <- <- <- <-].
    simpl. rewrite lookup_insert_eq. auto.
  - destruct latest as [agents|e]; [|intros [= <-]; simpl;
      rewrite lookup_insert_eq; discriminate].
    destruct (get_chrome_user_agent agents rnd) as [ua|e] eqn:Hua;
      [|intros [= <-]; simpl; rewrite lookup_insert_eq; discriminate].
    destruct browser as [b|e]; intros [= <-]; simpl;
      rewrite lookup_insert_eq; intros [= <- <- <- <-].
    simpl. rewrite lookup_insert_eq. repeat split. exists agents, ua. auto.
Qed.

(** C6.  An accepted request schedules a coroutine whose timeout is at
    most 120: a requested value above 120 becomes 120, a value up to 120
    is kept, and a request without a timeout gets 60.  This is the
    timeout the coroutine hands to its solver. *)
Theorem timeout_is_limited {B : Type} (max_concurrent_tasks : Z)
    (req : Request) (uuid : string) (s : State B) :
  code (fst (solve max_concurrent_tasks req uuid s)) = 202 ->
  exists url user_agent proxy timeout,
    coroutines (snd (solve max_concurrent_tasks req uuid s)) !! uuid =
      Some (Scheduled url user_agent proxy timeout) /\
    timeout <= 120 /\
    (arg_timeout req = None -> timeout = 60) /\
    (forall t, arg_timeout req = Some t -> 120 < t -> timeout = 120) /\
    (forall t, arg_timeout req = Some t -> t <= 120 -> timeout = t) /\
    (forall now latest rnd browser s' url' start_time solver w,
        task_enter uuid now latest rnd browser
          (snd (solve max_concurrent_tasks req uuid s)) = Some s' ->
        coroutines s' !! uuid = Some (Starting url' start_time solver w) ->
        solver_timeout solver = timeout).
Proof.
  intros Hcode. rewrite (solve_accepted _ _ _ _ Hcode).
  eexists _, _, _, _. split; [simpl; apply lookup_insert_eq|].
  unfold limit_timeout. split; [|split; [|split; [|split]]].
  - destruct (Z.ltb_spec 120 (default 60 (arg_timeout req))); lia.
  - intros ->. reflexivity.
  - intros t -> Hbig. simpl. destruct (Z.ltb_spec 120 t); lia.
  - intros t -> Hsmall. simpl. destruct (Z.ltb_spec 120 t); lia.
  - intros now latest rnd browser s' url' start_time solver w Henter Hc.
    eapply task_enter_starting in Henter as (_ & _ & Ht & _); [exact Ht| |].
    + simpl. apply lookup_insert_eq.
    + exact Hc.
Qed.

Lemma timeout_is_limited_witness :
  code (fst (solve 10 slow_request "a" (initial (B := Scripted)))) = 202 /\
  coroutines (snd (solve 10 slow_request "a" (initial (B := Scripted)))) !! "a"
  = Some (Scheduled "https://example.com" None None 120).
Proof.
  split; [reflexivity|].
  destruct (timeout_is_limited 10 slow_request "a" (initial (B := Scripted)))
    as (url & ua & proxy & timeout & Hc & _ & _ & Hbig & _).
  - reflexivity.
  - assert (Ht : timeout = 120) by (apply (Hbig 300); [reflexivity | lia]).
    subst timeout. rewrite Hc. vm_compute in Hc.
    inversion Hc; subst. reflexivity.
Defined.

(** ** The time a run takes *)

(** C7, against the claim as stated.  The timeout is 5 seconds, the
    page never hands out the cookie, has nothing to click, and takes 10
    seconds to load.  The cookies are read 7 times: once on arrival, 5
    times by the polling loop between the 11th and the 15th second, all
    of them later than 5 seconds after the resolver started, and once
    after the sweep; the failure is reached after 15 seconds.  The same
    page loading in no time gives the failure after 5 seconds, so the
    sweep adds nothing: 15 seconds is not within the timeout plus the
    duration of the sweep. *)
Lemma polling_runs_past_the_timeout :
  let slow :=
    solve_cloudflare 5 (mkSolver 5 None) "https://example.com"
      (mkWorld 0 (mkScripted (stubborn 10000) 0)) in
  let fast :=
    solve_cloudflare 5 (mkSolver 5 None) "https://example.com"
      (mkWorld 0 (mkScripted (stubborn 0) 0)) in
  fst slow = Ok (error_result "Failed to retrieve cf_clearance cookie" 15000) /\
  reads (driver (snd slow)) = 7%nat /\
  fst fast = Ok (error_result "Failed to retrieve cf_clearance cookie" 5000).
Proof. cbv zeta. repeat split; vm_compute; reflexivity. Qed.

(** A run of the body of the resolver that ends in the failure has
    polled for [timeout] seconds counted from the end of the first read
    of the cookies. *)
Lemma solve_body_waits {B : Type} `{Capability B} fuel self url start_time
    (w : World B) all_cookies w2 result w' :
  (await (drv_get url) ;; get_cookies) w = (Ok all_cookies, w2) ->
  solve_body fuel self url start_time w = (Ok result, w') ->
  status_is result "error" = true ->
  solver_timeout self * 1000 <= clock w' - clock w2.
Proof.
  intros Hfirst Hbody Hstatus.
  apply bind_inv in Hfirst
    as [(u & w1 & Hget & Hcookies) | [(? & ? & ?) | (? & ?)]];
    try discriminate.
  unfold solve_body in Hbody. unfold bind at 1 in Hbody.
  rewrite Hget in Hbody. unfold bind at 1 in Hbody.
  rewrite Hcookies in Hbody. cbv zeta in Hbody.
  apply bind_inv in Hbody
    as [(found & w3 & Hfound & Hbody) | [(? & ? & ?) | (? & ?)]];
    try discriminate.
  apply bind_inv in Hbody
    as [(ua & w4 & Hua & Hbody) | [(? & ? & ?) | (? & ?)]];
    try discriminate.
  apply (mono_at _ _ _ _ (mono_await _)) in Hua.
  apply bind_inv in Hbody
    as [(now & w5 & Hnow & Hbody) | [(? & ? & ?) | (? & ?)]];
    try discriminate.
  inversion Hnow; subst now w5. clear Hnow.
  destruct found as [cs [c|]]; simpl in Hbody; inversion Hbody; subst.
  { rewrite status_is_success_result in Hstatus. discriminate. }
  destruct (extract_clearance_cookie all_cookies) as [c|] eqn:Hnone;
    [inversion Hfound|].
  apply bind_inv in Hfound
    as [(start_wait & w6 & Hsw & Hfound) | [(? & ? & ?) | (? & ?)]];
    try discriminate.
  inversion Hsw; subst start_wait w6. clear Hsw.
  apply bind_inv in Hfound
    as [(waited & w7 & Hwait & Hfound) | [(? & ? & ?) | (? & ?)]];
    try discriminate.
  destruct waited as [cs' [c|]]; simpl in Hfound; [inversion Hfound|].
  pose proof (wait_loop_exit _ _ _ _ _ _ _ _ Hwait) as Hexit.
  simpl in Hexit.
  apply (mono_at _ _ _ _ (mono_interact _)) in Hfound. lia.
Qed.

(** C7, as amended.  The polling loop measures the timeout from
    [start_wait], the time at which the waiting begins, after
    navigation and the first read of the cookies.  Once more than
    [timeout] seconds have passed since [start_wait] the loop reads no
    more; at exactly [timeout] seconds the test of the source depends on
    the rounding of a floating-point subtraction, and nothing is
    claimed.  Before [timeout] seconds have passed, a turn of the loop
    is one [asyncio.sleep(1)] followed by one read of the cookies; when
    that read finds the clearance cookie the loop returns it at once,
    with the cookies just read and in the state that read has left, and
    otherwise it goes on with the next turn.  So a cookie the loop
    returns is one of the cookies it returns, and the loop comes to an
    end.  A run of the body of the resolver that raises nothing and
    ends in a failure has polled for the whole timeout: the failure is
    the fixed one and is reached no sooner than [timeout] seconds after
    the resolver started, and no sooner than [timeout] seconds after
    the end of the first read of the cookies.  For it is there that the
    waiting begins: the body is [find_cookie] followed by [report], and
    after a first read that finds no clearance cookie [find_cookie]
    enters the loop with [start_wait] the time at which that read has
    ended; after one that finds it, there is no waiting at all. *)
Theorem polling_measured_from_start_wait {B : Type} `{Capability B}
    (fuel : nat) (self : CloudflareSolver) (url : string) (w : World B) :
  (forall timeout start_wait all_cookies w0,
      timeout * 1000 < clock w0 - start_wait ->
      wait_loop fuel timeout start_wait all_cookies w0 =
        (Ok (all_cookies, None), w0)) /\
  (forall timeout start_wait all_cookies w0 cs w1,
      clock w0 - start_wait < timeout * 1000 ->
      (asyncio_sleep 1 ;; get_cookies) w0 = (Ok cs, w1) ->
      wait_loop (S fuel) timeout start_wait all_cookies w0 =
      match extract_clearance_cookie cs with
      | Some clearance_cookie => (Ok (cs, Some clearance_cookie), w1)
      | None => wait_loop fuel timeout start_wait cs w1
      end) /\
  (forall timeout start_wait all_cookies w0 cs c w1,
      wait_loop fuel timeout start_wait all_cookies w0 = (Ok (cs, Some c), w1) ->
      extract_clearance_cookie cs = Some c) /\
  (forall timeout all_cookies w0,
      exists fuel',
        fst (wait_loop fuel' timeout (clock w0) all_cookies w0) <> Diverge) /\
  (forall result w',
      solve_body fuel self url (clock w) w = (Ok result, w') ->
      status_is result "error" = true ->
      solve_cloudflare fuel self url w = (Ok result, w') /\
      result =
        error_result "Failed to retrieve cf_clearance cookie"
          (clock w' - clock w) /\
      solver_timeout self * 1000 <= clock w' - clock w /\
      forall all_cookies w2,
        (await (drv_get url) ;; get_cookies) w = (Ok all_cookies, w2) ->
        solver_timeout self * 1000 <= clock w' - clock w2) /\
  solve_body fuel self url (clock w) w =
    (found <- find_cookie fuel self url ;; report (clock w) found) w /\
  (forall all_cookies w2,
      (await (drv_get url) ;; get_cookies) w = (Ok all_cookies, w2) ->
      find_cookie fuel self url w =
      match extract_clearance_cookie all_cookies with
      | Some clearance_cookie => (Ok (all_cookies, Some clearance_cookie), w2)
      | None =>
          (waited <-
             wait_loop fuel (solver_timeout self) (clock w2) all_cookies ;;
           match snd waited with
           | None => interact (fst waited)
           | Some _ => ret waited
           end) w2
      end).
Proof.
  split; [|split; [|split; [|split; [|split; [|split]]]]];
    [| | | | | apply solve_body_find_cookie
     | intros all_cookies w2; apply find_cookie_from_first_read].
  - intros timeout start_wait all_cookies w0 Hover.
    rewrite wait_loop_unfold.
    destruct (Z.ltb_spec (clock w0 - start_wait) (timeout * 1000));
      [lia | reflexivity].
  - intros timeout start_wait all_cookies w0 cs w1 Hlt Hturn.
    rewrite wait_loop_unfold.
    destruct (Z.ltb_spec (clock w0 - start_wait) (timeout * 1000)); [|lia].
    apply bind_inv in Hturn
      as [(u & w2 & Hsleep & Hread) | [(? & ? & ?) | (? & ?)]];
      try discriminate.
    unfold bind at 1. rewrite Hsleep. unfold bind at 1. rewrite Hread.
    destruct (extract_clearance_cookie cs); reflexivity.
  - intros timeout start_wait all_cookies w0 cs c w1 Hloop.
    exact (wait_loop_exit _ _ _ _ _ _ _ _ Hloop).
  - intros timeout all_cookies w0. exists (Z.to_nat timeout).
    apply wait_loop_terminates. lia.
  - intros result w' Hbody Hstatus. split.
    + rewrite solve_cloudflare_unfold, Hbody. reflexivity.
    + pose proof Hbody as Hreturns.
      apply solve_body_returns in Hreturns
        as [(c & ua & cs & -> & _) | [-> Htime]].
      * rewrite status_is_success_result in Hstatus. discriminate.
      * split; [reflexivity|]. split; [exact Htime|].
        intros all_cookies w2 Hfirst. eapply solve_body_waits; eauto.
Qed.

Lemma polling_measured_from_start_wait_witness :
  let w := mkWorld 0 (mkScripted (stubborn 10000) 0) in
  let self := mkSolver 5 None in
  (exists result w',
    solve_body 5 self "https://example.com" (clock w) w = (Ok result, w') /\
    status_is result "error" = true /\
    solver_timeout self * 1000 <= clock w' - clock w /\
    solver_timeout self * 1000 <= clock w' - 10000) /\
  wait_loop 5 5 0 [] (mkWorld 0 (mkScripted second_poll 1))
  = (Ok ([clearance], Some clearance),
     mkWorld 2000 (mkScripted second_poll 3)).
Proof.
  cbv zeta. split.
  - exists (error_result "Failed to retrieve cf_clearance cookie" 15000).
    exists (mkWorld 15000 (mkScripted (stubborn 10000) 7)).
    split; [vm_compute; reflexivity|]. split; [vm_compute; reflexivity|].
    destruct (polling_measured_from_start_wait 5 (mkSolver 5 None)
                "https://example.com"
                (mkWorld 0 (mkScripted (stubborn 10000) 0)))
      as (_ & _ & _ & _ & Hbound & _).
    destruct (Hbound
                (error_result "Failed to retrieve cf_clearance cookie" 15000)
                (mkWorld 15000 (mkScripted (stubborn 10000) 7)))
      as (_ & _ & Htime & Hwait).
    + vm_compute. reflexivity.
    + vm_compute. reflexivity.
    + split; [exact Htime|].
      apply (Hwait [] (mkWorld 10000 (mkScripted (stubborn 10000) 1))).
      vm_compute. reflexivity.
  - destruct (polling_measured_from_start_wait 4 (mkSolver 5 None)
                "https://example.com"
                (mkWorld 0 (mkScripted second_poll 0)))
      as (_ & Hturn & _).
    rewrite (Hturn 5 0 [] (mkWorld 0 (mkScripted second_poll 1)) []
               (mkWorld 1000 (mkScripted second_poll 2)));
      [|vm_compute; reflexivity .. ].
    change (extract_clearance_cookie []) with (@None Cookie). cbv iota.
    destruct (polling_measured_from_start_wait 3 (mkSolver 5 None)
                "https://example.com"
                (mkWorld 0 (mkScripted second_poll 0)))
      as (_ & Hturn' & _).
    rewrite (Hturn' 5 0 [] (mkWorld 1000 (mkScripted second_poll 2))
               [clearance] (mkWorld 2000 (mkScripted second_poll 3)));
      [|vm_compute; reflexivity .. ].
    reflexivity.
Defined.

(** ** The user agent of a run *)

Lemma random_choice_member {A : Type} (seq : list A) rnd x :
  random_choice seq rnd = Returns x -> In x seq.
Proof.
  unfold random_choice.
  destruct (nth_error seq (Nat.modulo rnd (length seq))) eqn:Hnth;
    [|discriminate].
  intros [= <-]. eapply nth_error_In. exact Hnth.
Qed.

Lemma random_choice_returns {A : Type} (seq : list A) rnd :
  seq <> [] -> exists x, random_choice seq rnd = Returns x.
Proof.
  intros Hne. unfold random_choice.
  destruct (nth_error seq (Nat.modulo rnd (length seq))) eqn:Hnth; [eauto|].
  apply nth_error_None in Hnth.
  assert (length seq <> 0%nat) as Hlen by (destruct seq; simpl; congruence).
  pose proof (Nat.mod_upper_bound rnd (length seq) Hlen). lia.
Qed.

Lemma get_chrome_user_agent_chrome latest rnd ua :
  get_chrome_user_agent latest rnd = Returns ua ->
  In ua latest /\ contains "Chrome" ua = true.
Proof.
  unfold get_chrome_user_agent. intros Hchoice.
  apply random_choice_member in Hchoice. apply filter_In in Hchoice.
  exact Hchoice.
Qed.

Lemma get_chrome_user_agent_returns latest rnd :
  (exists ua, In ua latest /\ contains "Chrome" ua = true) ->
  exists ua, get_chrome_user_agent latest rnd = Returns ua.
Proof.
  intros (ua & Hin & Hchrome). unfold get_chrome_user_agent.
  apply random_choice_returns. intros Hnil.
  assert (In ua (List.filter (fun user_agent => contains "Chrome" user_agent)
                   latest)) as Hf by (apply filter_In; auto).
  rewrite Hnil in Hf. exact Hf.
Qed.

(** C10, against the claim as stated.  A task is submitted without a
    user agent and accepted.  No user agent on the list is one of
    Chrome, and the coroutine ends in the exception of [random.choice]:
    no solver is built, none is in [active_solvers], and no piece of the
    coroutine is left that could start a browser.  The same happens when
    the list cannot be fetched. *)
Lemma no_chrome_no_browser :
  let s0 : State Scripted := snd (solve 10 example_request "a" initial) in
  code (fst (solve 10 example_request "a" (initial (B := Scripted)))) = 202 /\
  arg_user_agent example_request = None /\
  (exists s,
      step 10 s0
        (Enter "a" 0 (Returns firefox_only) 0 (Returns (mkScripted friendly 0)))
        = Some s /\
      coroutines s !! "a"
        = Some (Crashed "Cannot choose from an empty sequence") /\
      active_solvers s !! "a" = None /\
      occurrences (Acquired "a") s = 0%nat /\
      step 10 s (Started "a") = None) /\
  (exists s,
      step 10 s0
        (Enter "a" 0 (Raises "HTTP Error 503") 0
           (Returns (mkScripted friendly 0)))
        = Some s /\
      coroutines s !! "a" = Some (Crashed "HTTP Error 503") /\
      active_solvers s !! "a" = None /\
      occurrences (Acquired "a") s = 0%nat /\
      step 10 s (Started "a") = None).
Proof.
  cbv zeta. split; [reflexivity|]. split; [reflexivity|].
  split; eexists; (split; [vm_compute; reflexivity|]);
    repeat split; vm_compute; reflexivity.
Qed.

(** C10, as amended.  Take a task that was scheduled without a user
    agent (none, or the empty string).  Whatever the list
    [get_latest_user_agents] returns, when the first piece of the
    coroutine gets as far as building the solver, the solver's user
    agent is set, is a member of that list and contains "Chrome", and
    this is the solver in [active_solvers], the one whose browser is
    started.  When the list has a member that contains "Chrome", the
    first piece of the coroutine always gets that far unless the
    constructor of the solver raises: the coroutine is then suspended
    in [await self.driver.start()] with such a solver, and if the
    constructor raises, the coroutine returns with no solver at all. *)
Theorem default_user_agent_is_chrome {B : Type} (s : State B)
    (task_id url : string) (user_agent proxy : option string) (timeout now : Z)
    (latest : reply (list string)) (rnd : nat) (browser : reply B) :
  coroutines s !! task_id = Some (Scheduled url user_agent proxy timeout) ->
  truthy user_agent = false ->
  (forall s' url' start_time solver w,
      task_enter task_id now latest rnd browser s = Some s' ->
      coroutines s' !! task_id = Some (Starting url' start_time solver w) ->
      active_solvers s' !! task_id = Some solver /\
      exists agents ua,
        latest = Returns agents /\
        solver_user_agent solver = Some ua /\
        In ua agents /\ contains "Chrome" ua = true) /\
  (forall agents,
      latest = Returns agents ->
      (exists ua, In ua agents /\ contains "Chrome" ua = true) ->
      exists s',
        task_enter task_id now latest rnd browser s = Some s' /\
        match browser with
        | Returns b =>
            exists ua,
              In ua agents /\ contains "Chrome" ua = true /\
              coroutines s' !! task_id
                = Some (Starting url now (mkSolver timeout (Some ua))
                          (mkWorld now b)) /\
              active_solvers s' !! task_id
                = Some (mkSolver timeout (Some ua))
        | Raises e =>
            coroutines s' !! task_id = Some Finished /\
            active_solvers s' !! task_id = None
        end).
Proof.
  intros Hc Hua. split.
  - intros s' url' start_time solver w Henter Hstart.
    destruct (task_enter_starting _ _ _ _ _ _ _ _ _ _ _ _ _ _ _
                Hc Henter Hstart) as (_ & _ & _ & Hactive & Hchosen).
    rewrite Hua in Hchosen.
    destruct Hchosen as (agents & ua & -> & Hchoice & Hsolver).
    apply get_chrome_user_agent_chrome in Hchoice as [Hin Hchrome].
    split; [exact Hactive|]. exists agents, ua. auto.
  - intros agents -> Hsome.
    destruct (get_chrome_user_agent_returns agents rnd Hsome) as [ua Hchoice].
    pose proof (get_chrome_user_agent_chrome _ _ _ Hchoice) as [Hin Hchrome].
    unfold task_enter. rewrite Hc, Hua, Hchoice.
    destruct browser as [b|e]; eexists; (split; [reflexivity|]).
    + exists ua. simpl. rewrite !lookup_insert_eq. auto.
    + destruct (task_failed_at task_id now e now
                  (set_result task_id (processing_entry now) s))
        as (_ & Ha' & Hc' & _). auto.
Qed.

Lemma default_user_agent_is_chrome_witness :
  let s : State Scripted := snd (solve 10 example_request "a" initial) in
  coroutines s !! "a" = Some (Scheduled "https://example.com" None None 60) /\
  truthy None = false /\
  exists s' ua,
    task_enter "a" 0 (Returns agents) 0 (Returns (mkScripted friendly 0)) s
      = Some s' /\
    active_solvers s' !! "a" = Some (mkSolver 60 (Some ua)) /\
    In ua agents /\ contains "Chrome" ua = true.
Proof.
  cbv zeta. split; [reflexivity|]. split; [reflexivity|].
  destruct (default_user_agent_is_chrome
              (snd (solve 10 example_request "a" (initial (B := Scripted))))
              "a" "https://example.com"
              None None 60 0 (Returns agents) 0
              (Returns (mkScripted friendly 0)) eq_refl eq_refl)
    as [_ Hgoes].
  destruct (Hgoes agents eq_refl) as (s' & Henter & ua & Hin & Hchrome & _ & Ha).
  { exists "Mozilla/5.0 Chrome/120.0". split; [|reflexivity].
    right. left. reflexivity. }
  exists s', ua. auto.
Defined.

(** ** Reading a result *)

Lemma shaped_terminal result :
  shaped result -> status_is result "processing" = false -> terminal result.
Proof.
  intros [t | elapsed c ua cs t | reason elapsed t] Hstatus.
  - discriminate.
  - left. reflexivity.
  - right. reflexivity.
Qed.

(** C8, against the claim as stated.  [solve] answers 202 and schedules
    the coroutine, but writes nothing to [task_results]: the entry is
    written by the coroutine when it first runs.  If choosing the user
    agent raises there (no member of the list contains "Chrome"), the
    coroutine ends before it writes the entry, and a read of the
    identifier that [solve] returned is answered 404.  So is a read
    after the task has finished and the sweeper has removed its entry. *)
Lemma issued_id_not_found :
  code (fst (solve 10 example_request "a" (initial (B := Scripted)))) = 202 /\
  task_results (snd (solve 10 example_request "a" (initial (B := Scripted))))
    !! "a" = None /\
  (exists s : State Scripted,
      run 10 initial
        [Submit example_request "a";
         Enter "a" 0 (Returns ["Mozilla/5.0 Firefox/121.0"]) 0
           (Returns (mkScripted friendly 0))] = Some s /\
      code (get_result (Some "a") s) = 404) /\
  (exists s : State Scripted,
      run 10 initial (one_task_done ++ [Sweep (DAY + 1)]) = Some s /\
      code (get_result (Some "a") s) = 404).
Proof.
  split; [reflexivity|]. split; [reflexivity|].
  split; eexists; split; vm_compute; reflexivity.
Qed.

(** C8, as amended.  [solve] does not register the task; the first
    piece of its coroutine does, whenever that piece does not end in an
    exception.  A read is answered by the entry alone: 400 when the identifier is
    missing or empty; 404 when [task_results] has no entry for it,
    which is the case of every identifier that was never issued; 202
    with the status "processing" when the entry has that status; 200
    with the entry itself otherwise, and that entry is then a success
    or a failure. *)
Theorem get_result_by_entry {B : Type} `{Capability B}
    (max_concurrent_tasks : Z) (s : State B) (id : option string) :
  reachable max_concurrent_tasks s ->
  (truthy id = false -> code (get_result id s) = 400) /\
  (forall task_id,
      id = Some task_id -> task_id <> "" ->
      match task_results s !! task_id with
      | None => code (get_result id s) = 404
      | Some result =>
          if status_is result "processing" then
            code (get_result id s) = 202 /\
            body (get_result id s) !! "status" = Some (VStr "processing")
          else
            get_result id s = mkResponse result 200 /\ terminal result
      end) /\
  (forall task_id,
      id = Some task_id -> task_id <> "" ->
      coroutines s !! task_id = None -> code (get_result id s) = 404) /\
  (forall req uuid,
      task_results (snd (solve max_concurrent_tasks req uuid s)) =
      task_results s) /\
  (forall task_id now latest rnd browser s',
      task_enter task_id now latest rnd browser s = Some s' ->
      (forall e, coroutines s' !! task_id <> Some (Crashed e)) ->
      is_Some (task_results s' !! task_id)).
Proof.
  intros Hreach. pose proof (reachable_well_formed _ _ Hreach) as [Hco Hsh].
  assert (Hread : forall task_id, id = Some task_id -> task_id <> "" ->
    get_result id s =
    match task_results s !! task_id with
    | None => mkResponse (error_body "Task ID không tồn tại") 404
    | Some result =>
        if status_is result "processing" then
          mkResponse
            (<["status" := VStr "processing"]>
             (<["message" := VStr "Task đang được xử lý"]> ∅)) 202
        else mkResponse result 200
    end).
  { intros task_id -> Hne. unfold get_result. simpl.
    destruct (String.eqb_spec task_id ""); [congruence | reflexivity]. }
  split; [|split; [|split; [|split]]].
  - intros Hid. unfold get_result. rewrite Hid. reflexivity.
  - intros task_id Hid Hne. rewrite (Hread task_id Hid Hne).
    destruct (task_results s !! task_id) as [result|] eqn:Hentry;
      [|reflexivity].
    destruct (status_is result "processing") eqn:Hstatus.
    + split; reflexivity.
    + split; [reflexivity|]. apply shaped_terminal; eauto.
  - intros task_id Hid Hne Hnone. rewrite (Hread task_id Hid Hne).
    specialize (Hco task_id). unfold coherent in Hco. rewrite Hnone in Hco.
    destruct Hco as (-> & _). reflexivity.
  - intros req uuid.
    apply (solve_leaves_dictionaries max_concurrent_tasks req uuid s).
  - intros task_id now latest rnd browser s'. unfold task_enter.
    destruct (coroutines s !! task_id) as [[url ua proxy timeout| | | |]|];
      try discriminate.
    match goal with
    | |- context [match ?c with Returns _ => _ | Raises _ => _ end] =>
        destruct c as [user_agent|e]
    end.
    + destruct browser as [b|e]; intros [= <-] _.
      * simpl. rewrite lookup_insert_eq. eauto.
      * destruct (task_failed_at task_id now e now
                    (set_result task_id (processing_entry now) s))
          as (-> & _). eauto.
    + intros [= <-] Hnot. exfalso. apply (Hnot e). simpl.
      apply lookup_insert_eq.
Qed.

Lemma get_result_by_entry_witness :
  reachable 10 after_one_task /\
  task_results after_one_task !! "a" = Some friendly_entry /\
  get_result (Some "a") after_one_task = mkResponse friendly_entry 200 /\
  terminal friendly_entry.
Proof.
  assert (Hreach : reachable 10 after_one_task).
  { exists one_task_done. vm_compute. reflexivity. }
  split; [exact Hreach|].
  assert (Hr : task_results after_one_task !! "a" = Some friendly_entry)
    by (vm_compute; reflexivity).
  split; [exact Hr|].
  destruct (get_result_by_entry 10 after_one_task (Some "a") Hreach)
    as (_ & Hentry & _).
  specialize (Hentry "a" eq_refl ltac:(discriminate)).
  rewrite Hr in Hentry.
  assert (Hs : status_is friendly_entry "processing" = false) by reflexivity.
  rewrite Hs in Hentry. exact Hentry.
Defined.

(** ** The end of a run *)

Section Release.
Context {B : Type} `{Capability B}.
Variable max_concurrent_tasks : Z.
Implicit Types (s : State B).

(** What [task_started] stores: when [driver.start()] returns, the
    dictionary [solve_cloudflare] returns, with its timestamp; when it
    raises, the failure with the description of the exception. *)
Lemma task_started_records t s url start_time solver w :
  coroutines s !! t = Some (Starting url start_time solver w) ->
  is_Some (active_solvers s !! t) ->
  exists s',
    task_started t s = Some s' /\
    match await drv_start w with
    | (Ok _, w1) =>
        exists result w2,
          solve_cloudflare (Z.to_nat (solver_timeout solver)) solver url w1
            = (Ok result, w2) /\
          task_results s' !! t
            = Some (<["timestamp" := VNum (clock w2)]> result) /\
          coroutines s' !! t = Some (Stopping start_time w2) /\
          active_solvers s' !! t = active_solvers s !! t /\
          occurrences (Released t) s' = occurrences (Released t) s
    | (Raise e, w1) =>
        task_results s' !! t
          = Some (<["timestamp" := VNum (clock w1)]>
                    (error_result e (clock w1 - start_time))) /\
        coroutines s' !! t = Some Finished /\
        active_solvers s' !! t = None /\
        occurrences (Released t) s' = S (occurrences (Released t) s)
    | (Diverge, _) => False
    end.
Proof.
  intros Hc [solver' Ha]. unfold task_started. rewrite Hc. cbv zeta.
  unfold bind at 1.
  pose proof (total_await drv_start w) as Hstart.
  destruct (await drv_start w) as [[[]|e|] w1]; simpl in Hstart;
    [| | congruence].
  - pose proof (total_solve_cloudflare (Z.to_nat (solver_timeout solver))
                  solver url (Nat.le_refl _) w1) as Htot.
    pose proof (quiet_solve_cloudflare (Z.to_nat (solver_timeout solver))
                  solver url w1) as Hquiet.
    destruct (solve_cloudflare (Z.to_nat (solver_timeout solver)) solver url w1)
      as [[result|e|] w2]; simpl in Htot, Hquiet;
      [| exfalso; apply (Hquiet e); reflexivity | congruence].
    eexists. split; [reflexivity|]. exists result, w2.
    split; [reflexivity|]. simpl. rewrite !lookup_insert_eq. auto.
  - eexists. split; [reflexivity|].
    destruct (task_failed_at t start_time e (clock w1) s)
      as (Hr' & Ha' & Hc' & _ & Hy').
    rewrite Ha in Hy'. repeat split; auto. lia.
Qed.

(** What [task_stopped] stores: nothing when [driver.stop()] returns, so
    that the result of the resolver stays; the failure with the
    description of the exception when it raises. *)
Lemma task_stopped_records t s start_time w :
  coroutines s !! t = Some (Stopping start_time w) ->
  is_Some (active_solvers s !! t) ->
  exists s',
    task_stopped t s = Some s' /\
    coroutines s' !! t = Some Finished /\
    active_solvers s' !! t = None /\
    occurrences (Released t) s' = S (occurrences (Released t) s) /\
    match await drv_stop w with
    | (Raise e, w1) =>
        task_results s' !! t
          = Some (<["timestamp" := VNum (clock w1)]>
                    (error_result e (clock w1 - start_time)))
    | _ => task_results s' !! t = task_results s !! t
    end.
Proof.
  intros Hc [solver Ha]. unfold task_stopped. rewrite Hc.
  assert (Hdone :
    let s' := set_coroutine t Finished (release t s) in
    coroutines s' !! t = Some Finished /\
    active_solvers s' !! t = None /\
    occurrences (Released t) s' = S (occurrences (Released t) s) /\
    task_results s' !! t = task_results s !! t).
  { cbv zeta.
    change (occurrences ?e (set_coroutine ?t ?c ?s)) with (occurrences e s).
    simpl. rewrite lookup_insert_eq, release_active, release_released.
    rewrite release_results, lookup_delete_eq, Ha. repeat split. lia. }
  destruct (await drv_stop w) as [[[]|e|] w']; eexists;
    (split; [reflexivity|]); try exact Hdone.
  destruct (task_failed_at t start_time e (clock w') s)
    as (Hr' & Ha' & Hc' & _ & Hy').
  rewrite Ha in Hy'. repeat split; auto. lia.
Qed.

End Release.

(** C9, against the claim as stated.  Two runs that [solve] has accepted
    with 202.  In the first no user agent on the list is one of Chrome:
    the coroutine ends in the exception of [random.choice], before the
    [try]; no piece of it is left to run, nothing has been stored for
    the task and nothing has been deleted from [active_solvers].  In
    the second the constructor of [CloudflareSolver] raises: the
    failure is stored, but the task was never in [active_solvers] and
    the [finally] clause deletes nothing, so that the count of
    deletions is zero and not one. *)
Lemma accepted_run_without_release :
  let s0 : State Scripted := snd (solve 10 example_request "a" initial) in
  code (fst (solve 10 example_request "a" (initial (B := Scripted)))) = 202 /\
  (exists s,
      step 10 s0
        (Enter "a" 0 (Returns firefox_only) 0 (Returns (mkScripted friendly 0)))
        = Some s /\
      coroutines s !! "a"
        = Some (Crashed "Cannot choose from an empty sequence") /\
      step 10 s (Started "a") = None /\
      step 10 s (Stopped "a") = None /\
      task_results s !! "a" = None /\
      occurrences (Released "a") s = 0%nat) /\
  (exists s,
      step 10 s0 (Enter "a" 0 (Returns agents) 0 (Raises "chrome not found"))
        = Some s /\
      coroutines s !! "a" = Some Finished /\
      task_results s !! "a"
        = Some (<["timestamp" := VNum 0]>
                  (error_result "chrome not found" 0)) /\
      occurrences (Released "a") s = 0%nat).
Proof.
  cbv zeta. split; [reflexivity|].
  split; eexists; (split; [vm_compute; reflexivity|]);
    repeat split; vm_compute; reflexivity.
Qed.

(** C9, as amended.  A coroutine that holds a slot, that is one
    suspended between [active_solvers[task_id] = solver] and the
    [finally] clause, has an entry in [active_solvers] that was
    inserted once and has not been deleted yet.  From [await self.driver.start()] it always goes
    on.  When starting the browser returns, the resolver runs and
    returns a dictionary, and what is stored in [task_results] is that
    dictionary with its timestamp; the slot is still held.  When
    starting the browser raises, what is stored is the failure whose
    reason is the description of the exception, and the slot is deleted
    at once.  From [await self.driver.stop()] it always goes on to the
    end, where the slot is deleted; when closing the browser raises, the
    failure with the description of that exception replaces the result,
    and otherwise the result stays.  In each case the count of
    deletions for the task is then exactly one, and a coroutine that
    has returned has no entry in [active_solvers] and as many deletions
    as insertions, at most one. *)
Theorem slot_released_exactly_once {B : Type} `{Capability B}
    (max_concurrent_tasks : Z) (s : State B) (task_id : string) :
  reachable max_concurrent_tasks s ->
  match coroutines s !! task_id with
  | Some (Starting url start_time solver w) =>
      active_solvers s !! task_id = Some solver /\
      occurrences (Acquired task_id) s = 1%nat /\
      occurrences (Released task_id) s = 0%nat /\
      exists s',
        step max_concurrent_tasks s (Started task_id) = Some s' /\
        match await drv_start w with
        | (Ok _, w1) =>
            exists result w2,
              solve_cloudflare (Z.to_nat (solver_timeout solver)) solver url w1
                = (Ok result, w2) /\
              task_results s' !! task_id
                = Some (<["timestamp" := VNum (clock w2)]> result) /\
              coroutines s' !! task_id = Some (Stopping start_time w2) /\
              active_solvers s' !! task_id = Some solver /\
              occurrences (Released task_id) s' = 0%nat
        | (Raise e, w1) =>
            task_results s' !! task_id
              = Some (<["timestamp" := VNum (clock w1)]>
                        (error_result e (clock w1 - start_time))) /\
            coroutines s' !! task_id = Some Finished /\
            active_solvers s' !! task_id = None /\
            occurrences (Released task_id) s' = 1%nat
        | (Diverge, _) => False
        end
  | Some (Stopping start_time w) =>
      is_Some (active_solvers s !! task_id) /\
      occurrences (Acquired task_id) s = 1%nat /\
      occurrences (Released task_id) s = 0%nat /\
      exists s',
        step max_concurrent_tasks s (Stopped task_id) = Some s' /\
        coroutines s' !! task_id = Some Finished /\
        active_solvers s' !! task_id = None /\
        occurrences (Released task_id) s' = 1%nat /\
        match await drv_stop w with
        | (Raise e, w1) =>
            task_results s' !! task_id
              = Some (<["timestamp" := VNum (clock w1)]>
                        (error_result e (clock w1 - start_time)))
        | _ => task_results s' !! task_id = task_results s !! task_id
        end
  | Some Finished =>
      active_solvers s !! task_id = None /\
      occurrences (Released task_id) s = occurrences (Acquired task_id) s /\
      (occurrences (Released task_id) s <= 1)%nat
  | _ =>
      active_solvers s !! task_id = None /\
      occurrences (Released task_id) s = 0%nat
  end.
Proof.
  intros Hreach. pose proof (reachable_well_formed _ _ Hreach) as [Hco _].
  specialize (Hco task_id). unfold coherent in Hco.
  destruct (coroutines s !! task_id)
    as [[url ua proxy timeout | url start_time solver w | start_time w
        | | e]|] eqn:Hc.
  - destruct Hco as (_ & ? & _ & ?). auto.
  - destruct Hco as (Ha & Hx & Hy).
    split; [exact Ha|]. split; [exact Hx|]. split; [exact Hy|].
    destruct (task_started_records task_id s _ _ _ _ Hc)
      as (s' & Hstep & Hout); [eauto|].
    exists s'. split; [exact Hstep|].
    destruct (await drv_start w) as [[[]|e|] w1]; [| |exact Hout].
    + destruct Hout as (result & w2 & Hrun & Hr & Hc' & Ha' & Hy').
      exists result, w2. rewrite Ha', Hy'. auto.
    + rewrite Hy in Hout. exact Hout.
  - destruct Hco as (Ha & Hx & Hy).
    split; [exact Ha|]. split; [exact Hx|]. split; [exact Hy|].
    destruct (task_stopped_records task_id s _ _ Hc Ha) as (s' & Hstep & Hout).
    exists s'. split; [exact Hstep|]. rewrite Hy in Hout. exact Hout.
  - destruct Hco as (Ha & Hx & Hy). split; [exact Ha|]. split; lia.
  - destruct Hco as (_ & ? & _ & ?). auto.
  - destruct Hco as (_ & ? & _ & ?). auto.
Qed.

Lemma slot_released_exactly_once_witness :
  let solver := mkSolver 60 (Some "Mozilla/5.0 Chrome/120.0") in
  let w := mkWorld 0 (mkScripted friendly 0) in
  reachable 10 one_task_starting /\
  (exists s' result w2,
      step 10 one_task_starting (Started "a") = Some s' /\
      solve_cloudflare 60 solver "https://example.com" w = (Ok result, w2) /\
      task_results s' !! "a"
        = Some (<["timestamp" := VNum (clock w2)]> result) /\
      active_solvers s' !! "a" = Some solver /\
      occurrences (Released "a") s' = 0%nat) /\
  reachable 10 after_one_task /\
  coroutines after_one_task !! "a" = Some Finished /\
  active_solvers after_one_task !! "a" = None /\
  occurrences (Released "a") after_one_task = 1%nat.
Proof.
  cbv zeta.
  assert (Hstarting : reachable 10 one_task_starting).
  { exists [Submit example_request "a"; open_page "a" friendly].
    vm_compute. reflexivity. }
  assert (Hreach : reachable 10 after_one_task).
  { exists one_task_done. vm_compute. reflexivity. }
  split; [exact Hstarting|]. split.
  - pose proof (slot_released_exactly_once 10 one_task_starting "a" Hstarting)
      as Hw.
    assert (Hc : coroutines one_task_starting !! "a" =
                 Some (Starting "https://example.com" 0
                         (mkSolver 60 (Some "Mozilla/5.0 Chrome/120.0"))
                         (mkWorld 0 (mkScripted friendly 0))))
      by (vm_compute; reflexivity).
    rewrite Hc in Hw. destruct Hw as (_ & _ & _ & s' & Hstep & Hout).
    change (await drv_start (mkWorld 0 (mkScripted friendly 0)))
      with (Ok tt, mkWorld 0 (mkScripted friendly 0)) in Hout.
    destruct Hout as (result & w2 & Hrun & Hr & _ & Ha & Hy).
    exists s', result, w2. auto.
  - split; [exact Hreach|].
    assert (Hc : coroutines after_one_task !! "a" = Some Finished)
      by (vm_compute; reflexivity).
    split; [exact Hc|].
    pose proof (slot_released_exactly_once 10 after_one_task "a" Hreach) as Hw.
    rewrite Hc in Hw. destruct Hw as (Ha & Hx & _).
    split; [exact Ha|]. rewrite Hx. vm_compute. reflexivity.
Defined.

(** * Further properties of the code *)

(** ** The resolver *)

Lemma extract_clearance_cookie_member cookies cookie :
  extract_clearance_cookie cookies = Some cookie ->
  In cookie cookies /\ cookie_name cookie = "cf_clearance".
Proof.
  induction cookies as [|c rest IH]; simpl; [discriminate|].
  destruct (String.eqb_spec (cookie_name c) "cf_clearance") as [Hname|Hname].
  - intros [= <-]. auto.
  - intros Hrest. destruct (IH Hrest). auto.
Qed.

Lemma format_cookies_id cookies : format_cookies cookies = cookies.
Proof. unfold format_cookies. apply map_id. Qed.

(** X1.  [extract_clearance_cookie] returns the first cookie of the
    list whose name is "cf_clearance": every cookie before it has
    another name; it returns [None] exactly when no cookie of the list
    has that name. *)
Theorem extract_clearance_cookie_first (cookies : list Cookie) :
  match extract_clearance_cookie cookies with
  | Some cookie =>
      exists before rest,
        cookies = (before ++ cookie :: rest)%list /\
        cookie_name cookie = "cf_clearance" /\
        forall c, In c before -> cookie_name c <> "cf_clearance"
  | None => forall c, In c cookies -> cookie_name c <> "cf_clearance"
  end.
Proof.
  induction cookies as [|c rest IH]; simpl.
  - intros c [].
  - destruct (String.eqb_spec (cookie_name c) "cf_clearance") as [Hname|Hname].
    + exists [], rest. split; [reflexivity|]. split; [exact Hname|].
      intros c' [].
    + destruct (extract_clearance_cookie rest) as [cookie|].
      * destruct IH as (before & rest' & -> & Hcookie & Hbefore).
        exists (c :: before), rest'. split; [reflexivity|].
        split; [exact Hcookie|]. intros c' [<- | Hin]; auto.
      * intros c' [<- | Hin]; auto.
Qed.

Section ResolverMore.
Context {B : Type} `{Capability B}.

Ltac bind_ok H a w Hm :=
  apply bind_inv in H as [(a & w & Hm & H) | [(? & ? & ?) | (? & ?)]];
  [| discriminate | discriminate].

Lemma mono_solve_body fuel self url start_time :
  mono (solve_body fuel self url start_time).
Proof.
  unfold solve_body.
  apply mono_bind; [apply mono_await|]. intros _.
  apply mono_bind; [apply mono_get_cookies|]. intros all_cookies.
  apply mono_bind.
  - destruct (extract_clearance_cookie all_cookies); [apply mono_ret|].
    apply mono_bind; [apply mono_time|]. intros start_wait.
    apply mono_bind; [apply mono_wait_loop|]. intros waited.
    destruct (snd waited); [apply mono_ret | apply mono_interact].
  - intros found. apply mono_bind; [apply mono_await|]. intros ua.
    apply mono_bind; [apply mono_time|]. intros now.
    destruct (snd found); apply mono_ret.
Qed.

(** The body of the resolver ends with the read of the user agent. *)
Lemma solve_body_reads_user_agent fuel self url start_time w result w' :
  solve_body fuel self url start_time w = (Ok result, w') ->
  exists w0 ua, get_user_agent w0 = (Ok ua, w').
Proof.
  unfold solve_body. intros Heq.
  bind_ok Heq u w1 Hget. bind_ok Heq all_cookies w2 Hcookies.
  bind_ok Heq found w3 Hfound. bind_ok Heq ua w4 Hua.
  bind_ok Heq now w5 Hnow. inversion Hnow; subst.
  destruct (snd found); inversion Heq; subst; eauto.
Qed.

(** X2.  A success is never reported without the cookie: the
    dictionary of a success holds, under "all_cookies", the cookies of
    the last read, one of them is named "cf_clearance", and its value is
    what the dictionary holds under "cf_clearance". *)
Theorem success_carries_the_cookie (fuel : nat) (self : CloudflareSolver)
    (url : string) (w w' : World B) (result : Dict) :
  solve_cloudflare fuel self url w = (Ok result, w') ->
  status_is result "success" = true ->
  exists cookie all_cookies,
    result !! "all_cookies" = Some (VCookies all_cookies) /\
    In cookie all_cookies /\
    cookie_name cookie = "cf_clearance" /\
    result !! "cf_clearance" = Some (VStr (cookie_value cookie)).
Proof.
  rewrite solve_cloudflare_unfold.
  destruct (solve_body fuel self url (clock w) w) as [[r|e|] w1] eqn:Hbody;
    intros Heq Hstatus; inversion Heq; subst; clear Heq.
  - apply solve_body_returns in Hbody
      as [(c & ua & cs & -> & Hfound) | [-> _]]; [|discriminate].
    apply extract_clearance_cookie_member in Hfound as [Hin Hname].
    exists c, cs. repeat split; auto.
  - discriminate.
Qed.


(** X4.  The user agent is read before the result is built, inside the
    outer [try]: when that read raises, the resolver reports a failure
    even if the cookie was obtained. *)
Theorem no_success_without_user_agent (fuel : nat) (self : CloudflareSolver)
    (url : string) (w : World B) (e : exn) :
  (forall b, ans (drv_evaluate "navigator.userAgent" b) = Raises e) ->
  (Z.to_nat (solver_timeout self) <= fuel)%nat ->
  exists reason elapsed w',
    solve_cloudflare fuel self url w = (Ok (error_result reason elapsed), w').
Proof.
  intros Hua Hfuel.
  pose proof (total_solve_body fuel self url (clock w) Hfuel w) as Htot.
  rewrite solve_cloudflare_unfold.
  destruct (solve_body fuel self url (clock w) w) as [[r|e'|] w1] eqn:Hbody;
    simpl in Htot; [| eauto | congruence].
  apply solve_body_reads_user_agent in Hbody as (w0 & ua & Hread).
  unfold get_user_agent, await in Hread. rewrite Hua in Hread. discriminate.
Qed.


End ResolverMore.

Section SweepAndPolling.
Context {B : Type} `{Capability B}.

Lemma click_all_cons element rest (w : World B) :
  click_all (element :: rest) w =
  match
    try_except (await (drv_mouse_click element) ;; asyncio_sleep 2)
      (fun _ => ret tt) w
  with
  | (Ok _, w1) => click_all rest w1
  | (Raise e, w1) => (Raise e, w1)
  | (Diverge, w1) => (Diverge, w1)
  end.
Proof. reflexivity. Qed.

(** X6.  The sweep over a list of elements always comes to its end
    without an exception; when every click succeeds it takes two
    seconds, or more, for each element. *)
Theorem click_all_settles (elements : list Element) (w : World B) :
  fst (click_all elements w) = Ok tt /\
  ((forall element b, ans (drv_mouse_click element b) = Returns tt) ->
   clock w + 2000 * Z.of_nat (length elements)
   <= clock (snd (click_all elements w))).
Proof.
  split.
  - pose proof (total_click_all elements w) as Htot.
    pose proof (quiet_click_all elements w) as Hquiet.
    destruct (fst (click_all elements w)) as [[]|e|];
      [reflexivity | exfalso; apply (Hquiet e); reflexivity | congruence].
  - intros Hclick. revert w.
    induction elements as [|element rest IH]; intros w.
    + simpl. lia.
    + assert (Hstep : exists w1,
        try_except (await (drv_mouse_click element) ;; asyncio_sleep 2)
          (fun _ => ret tt) w = (Ok tt, w1) /\
        clock w + 2000 <= clock w1).
      { unfold try_except, bind, await, asyncio_sleep. rewrite Hclick.
        cbn [driver clock].
        destruct (loop_lateness (after (drv_mouse_click element (driver w))))
          as [late b].
        eexists. split; [reflexivity|]. simpl. lia. }
      destruct Hstep as (w1 & Hstep & Htime).
      rewrite click_all_cons, Hstep. specialize (IH w1).
      cbn [length]. lia.
Qed.

(** The polling loop when the loop is never late, reading the cookies
    takes no time, and no read finds the cookie or raises: from [k]
    seconds after [start_wait] it runs until [timeout] seconds after
    [start_wait]. *)
Lemma wait_loop_punctual fuel timeout start_wait :
  (forall b, fst (loop_lateness b) = 0%N) ->
  (forall b, took (drv_cookies_get_all b) = 0%N) ->
  (forall b, exists cs,
      ans (drv_cookies_get_all b) = Returns cs /\
      extract_clearance_cookie cs = None) ->
  forall k all_cookies (w : World B),
    0 <= k -> timeout - k <= Z.of_nat fuel ->
    clock w = start_wait + k * 1000 ->
    exists cs w',
      wait_loop fuel timeout start_wait all_cookies w = (Ok (cs, None), w') /\
      clock w' = start_wait + Z.max k timeout * 1000.
Proof.
  intros Hlate Htook Hnone.
  induction fuel as [|fuel IH]; intros k all_cookies w Hk Hfuel Hclock;
    rewrite wait_loop_unfold;
    destruct (Z.ltb_spec (clock w - start_wait) (timeout * 1000)) as [Hlt|Hge];
    try (exists all_cookies, w; split; [reflexivity | lia]); try lia.
  unfold bind at 1, asyncio_sleep.
  pose proof (Hlate (driver w)) as Hl.
  destruct (loop_lateness (driver w)) as [late b]. simpl in Hl. subst late.
  unfold bind at 1, get_cookies, bind at 1, await. cbn [driver clock].
  destruct (Hnone b) as (cs & Hans & Hcs). rewrite Hans, (Htook b).
  unfold ret. rewrite format_cookies_id, Hcs.
  destruct (IH (k + 1) cs
              (mkWorld (clock w + 1 * 1000 + Z.of_N 0 + Z.of_N 0)
                 (after (drv_cookies_get_all b))))
    as (cs' & w' & Hloop & Hend); [lia | lia | simpl; lia |].
  exists cs', w'. split; [exact Hloop | lia].
Qed.

(** X7.  On a page that never hands out the cookie, with a loop that is
    never late and reads of the cookies that take no time, the polling
    loop comes to an end without the cookie, no sooner than [timeout]
    seconds and no later than [timeout + 1] seconds after it began. *)
Theorem polling_lasts_the_timeout (timeout : Z)
    (all_cookies : list Cookie) (w : World B) :
  (forall b, fst (loop_lateness b) = 0%N) ->
  (forall b, took (drv_cookies_get_all b) = 0%N) ->
  (forall b, exists cs,
      ans (drv_cookies_get_all b) = Returns cs /\
      extract_clearance_cookie cs = None) ->
  exists fuel cs w',
    wait_loop fuel timeout (clock w) all_cookies w = (Ok (cs, None), w') /\
    timeout * 1000 <= clock w' - clock w /\
    clock w' - clock w <= Z.max 0 (timeout * 1000 + 1000).
Proof.
  intros Hlate Htook Hnone.
  destruct (wait_loop_punctual (Z.to_nat timeout) timeout (clock w)
              Hlate Htook Hnone 0 all_cookies w)
    as (cs & w' & Hloop & Hend); [lia .. |].
  exists (Z.to_nat timeout), cs, w'. split; [exact Hloop|]. lia.
Qed.

End SweepAndPolling.

(** ** The status page *)

Lemma count_status_lookup (status_counts : gmap string Z) result status :
  count_status status_counts result !! status =
  (fun n => n + if status_is result status then 1 else 0)
    <$> status_counts !! status.
Proof.
  unfold count_status, status_is.
  destruct (result !! "status") as [[v|n|cs]|];
    try (destruct (status_counts !! status); simpl; f_equal; lia).
  destruct (String.eqb_spec v status) as [->|Hne].
  - destruct (status_counts !! status) as [n|] eqn:Hn; simpl.
    + rewrite lookup_insert_eq. reflexivity.
    + rewrite Hn. reflexivity.
  - destruct (status_counts !! v) as [n|].
    + rewrite lookup_insert_ne by exact Hne.
      destruct (status_counts !! status); simpl; f_equal; lia.
    + destruct (status_counts !! status); simpl; f_equal; lia.
Qed.

Lemma fold_count_status_lookup results (status_counts : gmap string Z) status :
  List.fold_left count_status results status_counts !! status =
  (fun n => n + Z.of_nat (with_status status results))
    <$> status_counts !! status.
Proof.
  revert status_counts. unfold with_status.
  induction results as [|result results IH]; intros status_counts; simpl.
  - destruct (status_counts !! status); simpl; f_equal; lia.
  - rewrite IH, count_status_lookup.
    destruct (status_counts !! status) as [n|]; simpl; [|reflexivity].
    f_equal. destruct (status_is result status); simpl length; lia.
Qed.

Lemma shaped_one_status result :
  shaped result ->
  (with_status "processing" [result] + with_status "success" [result] +
   with_status "error" [result] = 1)%nat.
Proof. intros [t | elapsed c ua cs t | reason elapsed t]; reflexivity. Qed.

Lemma with_status_cons status result results :
  with_status status (result :: results) =
  (with_status status [result] + with_status status results)%nat.
Proof.
  unfold with_status. simpl. destruct (status_is result status); reflexivity.
Qed.

Lemma shaped_statuses_add_up results :
  Forall shaped results ->
  (with_status "processing" results + with_status "success" results +
   with_status "error" results = length results)%nat.
Proof.
  induction 1 as [|result results Hshaped _ IH]; [reflexivity|].
  rewrite (with_status_cons "processing"), (with_status_cons "success"),
    (with_status_cons "error").
  pose proof (shaped_one_status result Hshaped). simpl length. lia.
Qed.

(** X8.  [get_status] counts, for each of the three statuses, the
    entries of [task_results] that have it, and counts nothing else;
    in every reachable state the three counts add up to the total
    number of tasks it reports, and the number of active tasks it
    reports is the size of [active_solvers]. *)
Theorem get_status_counts {B : Type} `{Capability B}
    (max_concurrent_tasks : Z) (s : State B) :
  let report := fst (get_status max_concurrent_tasks s) in
  let values := List.map snd (map_to_list (task_results s)) in
  (forall status,
      report_tasks_stats report !! status =
      if bool_decide (status ∈ ["processing"; "success"; "error"])
      then Some (Z.of_nat (with_status status values))
      else None) /\
  report_active_tasks report = Z.of_nat (size (active_solvers s)) /\
  (reachable max_concurrent_tasks s ->
   Z.of_nat (with_status "processing" values) +
   Z.of_nat (with_status "success" values) +
   Z.of_nat (with_status "error" values) = report_total_tasks report).
Proof.
  cbv zeta. split; [|split; [reflexivity|]].
  - intros status. unfold get_status. simpl.
    rewrite fold_count_status_lookup.
    destruct (decide (status = "processing")) as [->|H1]; [reflexivity|].
    destruct (decide (status = "success")) as [->|H2]; [reflexivity|].
    destruct (decide (status = "error")) as [->|H3]; [reflexivity|].
    rewrite !lookup_insert_ne, lookup_empty by congruence.
    rewrite bool_decide_eq_false_2; [reflexivity|].
    rewrite !elem_of_cons, elem_of_nil. tauto.
  - intros Hreach. unfold get_status. simpl.
    rewrite <- length_map_to_list.
    rewrite <- (length_map snd (map_to_list (task_results s))).
    rewrite <- shaped_statuses_add_up; [lia|].
    apply Forall_forall. intros result Hin.
    apply list_elem_of_In, in_map_iff in Hin as ([task_id r] & <- & Hin).
    apply list_elem_of_In, elem_of_map_to_list in Hin.
    exact (proj2 (reachable_well_formed _ _ Hreach) _ _ Hin).
Qed.

(** ** More on the sweeper *)

Lemma NoDup_map_filter {A K : Type} (f : A -> K) (p : A -> bool) (l : list A) :
  NoDup (List.map f l) -> NoDup (List.map f (List.filter p l)).
Proof.
  induction l as [|x l IH]; simpl; [auto|].
  rewrite NoDup_cons. intros [Hx Hl].
  destruct (p x); simpl; [|auto].
  apply NoDup_cons. split; [|auto].
  intros Hin. apply Hx.
  apply list_elem_of_In, in_map_iff in Hin as (y & Hy & Hin).
  apply list_elem_of_In, in_map_iff. exists y. split; [exact Hy|].
  apply filter_In in Hin. tauto.
Qed.

Lemma delete_keys_size (keys : list string) (results : gmap string Dict) :
  NoDup keys -> (forall k, k ∈ keys -> is_Some (results !! k)) ->
  (size (delete_keys keys results) + length keys = size results)%nat.
Proof.
  unfold delete_keys. revert results.
  induction keys as [|key keys IH]; intros results Hnd Hin; simpl.
  - lia.
  - apply NoDup_cons in Hnd as [Hkey Hnd].
    destruct (Hin key (list_elem_of_here _ _)) as [r Hr].
    assert (Hrest : forall k, k ∈ keys -> is_Some (delete key results !! k)).
    { intros k Hk. rewrite lookup_delete_ne; [apply Hin; right; exact Hk|].
      intros ->. contradiction. }
    specialize (IH (delete key results) Hnd Hrest).
    rewrite map_size_delete_Some in IH by eauto.
    assert (size results <> 0%nat).
    { intros Hz. apply map_size_empty_inv in Hz. subst results.
      rewrite lookup_empty in Hr. discriminate. }
    lia.
Qed.

(** X9.  The number the sweeper logs, the length of [keys_to_delete],
    is the number of entries its turn removes from [task_results]. *)
Theorem cleanup_tasks_count {B : Type} (now : Z) (s : State B) :
  (size (task_results (cleanup_tasks now s)) +
   length (keys_to_delete now (task_results s)) =
   size (task_results s))%nat.
Proof.
  unfold cleanup_tasks. simpl. apply delete_keys_size.
  - unfold keys_to_delete. apply NoDup_map_filter.
    apply (NoDup_fst_map_to_list (task_results s)).
  - intros k Hk. apply keys_to_delete_spec in Hk as (result & -> & _). eauto.
Qed.

(** X10.  Two turns of the sweeper amount to one turn at the later of
    the two times; in particular a second turn at the same time removes
    nothing more. *)
Theorem cleanup_tasks_twice {B : Type} (now1 now2 : Z) (s : State B) :
  cleanup_tasks now2 (cleanup_tasks now1 s) =
  cleanup_tasks (Z.max now1 now2) s /\
  cleanup_tasks now1 (cleanup_tasks now1 s) = cleanup_tasks now1 s.
Proof.
  assert (Hcompose : forall a b,
    cleanup_tasks b (cleanup_tasks a s) = cleanup_tasks (Z.max a b) s).
  { intros a b.
    assert (Hresults :
      task_results (cleanup_tasks b (cleanup_tasks a s)) =
      task_results (cleanup_tasks (Z.max a b) s)).
    { apply map_eq. intros k. rewrite !cleanup_tasks_lookup.
      destruct (task_results s !! k) as [result|]; [|reflexivity].
      destruct (Z.ltb_spec (timestamp_of result) (a - DAY));
        destruct (Z.ltb_spec (timestamp_of result) (Z.max a b - DAY));
        try lia; try reflexivity;
        destruct (Z.ltb_spec (timestamp_of result) (b - DAY));
        try lia; reflexivity. }
    unfold cleanup_tasks in *. simpl in *. rewrite Hresults. reflexivity. }
  split; [apply Hcompose|].
  rewrite Hcompose, Z.max_id. reflexivity.
Qed.

(** ** One task at a time *)

Section Isolation.
Context {B : Type} `{Capability B}.
Variable max_concurrent_tasks : Z.
Implicit Types (s : State B).

Lemma run_app s ls1 ls2 :
  run max_concurrent_tasks s (ls1 ++ ls2) =
  match run max_concurrent_tasks s ls1 with
  | Some s1 => run max_concurrent_tasks s1 ls2
  | None => None
  end.
Proof.
  revert s. induction ls1 as [|l ls1 IH]; intros s; simpl; [reflexivity|].
  destruct (step max_concurrent_tasks s l); [apply IH | reflexivity].
Qed.

Lemma reachable_step s l s' :
  reachable max_concurrent_tasks s ->
  step max_concurrent_tasks s l = Some s' ->
  reachable max_concurrent_tasks s'.
Proof.
  intros [ls Hrun] Hstep. exists (ls ++ [l])%list.
  rewrite run_app, Hrun. simpl. rewrite Hstep. reflexivity.
Qed.

Lemma reachable_run s ls s' :
  reachable max_concurrent_tasks s ->
  run max_concurrent_tasks s ls = Some s' ->
  reachable max_concurrent_tasks s'.
Proof.
  intros [ls0 Hrun0] Hrun. exists (ls0 ++ ls)%list.
  rewrite run_app, Hrun0. exact Hrun.
Qed.

(** A property of the initial state that every step from a reachable
    state keeps holds in every reachable state. *)
Lemma reachable_invariant (P : State B -> Prop) :
  P initial ->
  (forall s l s',
      reachable max_concurrent_tasks s -> P s ->
      step max_concurrent_tasks s l = Some s' -> P s') ->
  forall s, reachable max_concurrent_tasks s -> P s.
Proof.
  intros Hinit Hstep s [ls Hrun].
  assert (Hgen : forall ls s0 s1,
    reachable max_concurrent_tasks s0 -> P s0 ->
    run max_concurrent_tasks s0 ls = Some s1 -> P s1).
  { clear ls Hrun. induction ls as [|l ls IH]; simpl; intros s0 s1 Hr0 Hp0 Hrun.
    - inversion Hrun; subst. exact Hp0.
    - destruct (step max_concurrent_tasks s0 l) as [s2|] eqn:Hs;
        [|discriminate].
      eapply (IH s2 s1); eauto using reachable_step. }
  apply (Hgen ls initial s); auto. exists []. reflexivity.
Qed.

Lemma step_elsewhere s l s' t :
  label_task l = Some t ->
  step max_concurrent_tasks s l = Some s' ->
  same_elsewhere t s s'.
Proof.
  destruct l as [req uuid | t' now latest rnd browser | t' | t' | id | now];
    simpl; intros [= <-] Hstep.
  - destruct (coroutines s !! uuid); [discriminate|].
    inversion Hstep; subst s'.
    destruct (solve_state max_concurrent_tasks req uuid s)
      as [-> | (url & ua & proxy & timeout & ->)].
    + apply same_elsewhere_refl.
    + apply same_elsewhere_set_coroutine.
  - eapply task_enter_elsewhere. exact Hstep.
  - eapply task_started_elsewhere. exact Hstep.
  - eapply task_stopped_elsewhere. exact Hstep.
Qed.

(** X11.  A request handler or a piece of a coroutine changes only what
    the state holds for its own task: the entry in [task_results], the
    entry in [active_solvers] and the coroutine of every other task are
    as before. *)
Theorem step_writes_one_task (s s' : State B) (l : Label) (t : string) :
  label_task l = Some t ->
  step max_concurrent_tasks s l = Some s' ->
  forall other, other <> t ->
    task_results s' !! other = task_results s !! other /\
    active_solvers s' !! other = active_solvers s !! other /\
    coroutines s' !! other = coroutines s !! other.
Proof.
  intros Hl Hstep other Hne.
  destruct (step_elsewhere s l s' t Hl Hstep other Hne) as (? & ? & ? & _).
  auto.
Qed.

End Isolation.

(** ** The status of a task only moves forward *)

Lemma processing_not_terminal result :
  status_is result "processing" = true -> terminal result -> False.
Proof.
  unfold terminal, status_is.
  destruct (result !! "status") as [[v|n|cs]|]; try discriminate.
  destruct (String.eqb_spec v "processing") as [->|]; [|discriminate].
  intros _ [Hs | He]; discriminate.
Qed.

Lemma terminal_stored_success elapsed c ua cs t :
  terminal (<["timestamp" := VNum t]> (success_result elapsed c ua cs)).
Proof. left. reflexivity. Qed.

Lemma terminal_stored_error reason elapsed t :
  terminal (<["timestamp" := VNum t]> (error_result reason elapsed)).
Proof. right. reflexivity. Qed.

Section Tracking.
Context {B : Type} `{Capability B}.
Variable max_concurrent_tasks : Z.
Implicit Types (s : State B).

Lemma tracked_elsewhere t s s' other :
  same_elsewhere t s s' -> other <> t -> tracked s other -> tracked s' other.
Proof.
  intros Hsame Hne. destruct (Hsame other Hne) as (Hr & _ & Hc & _).
  unfold tracked. rewrite Hr, Hc. auto.
Qed.

Lemma tracked_task_failed t start_time (e : exn) now s :
  tracked (task_failed t start_time e now s) t.
Proof.
  destruct (task_failed_at t start_time e now s) as (Hr & _ & Hc & _).
  unfold tracked. rewrite Hr, Hc. apply terminal_stored_error.
Qed.

Lemma tracked_step s l s' :
  well_formed s -> (forall t, tracked s t) ->
  step max_concurrent_tasks s l = Some s' ->
  forall t, tracked s' t.
Proof.
  intros [Hco _] Htr Hstep t.
  destruct l as [req uuid | t' now latest rnd browser | t' | t' | id | now].
  - (* a request *)
    simpl in Hstep. destruct (coroutines s !! uuid) eqn:Hfresh; [discriminate|].
    inversion Hstep; subst s'; clear Hstep.
    destruct (solve_state max_concurrent_tasks req uuid s)
      as [-> | (url & ua & proxy & timeout & ->)]; [apply Htr|].
    destruct (decide (t = uuid)) as [->|Hne].
    + specialize (Hco uuid). unfold coherent in Hco. rewrite Hfresh in Hco.
      destruct Hco as (Hr & _). unfold tracked. simpl.
      rewrite lookup_insert_eq, Hr. exact I.
    + eapply tracked_elsewhere;
        [apply same_elsewhere_set_coroutine | exact Hne | apply Htr].
  - (* the first piece of a coroutine *)
    simpl in Hstep. destruct (decide (t = t')) as [->|Hne];
      [|eapply tracked_elsewhere;
         [eapply task_enter_elsewhere; exact Hstep | exact Hne | apply Htr]].
    specialize (Hco t'). unfold coherent in Hco. unfold task_enter in Hstep.
    destruct (coroutines s !! t') as [[url ua proxy timeout| | | |]|];
      try discriminate.
    destruct Hco as (Hr & _).
    match type of Hstep with
    | context [match ?c with Returns _ => _ | Raises _ => _ end] =>
        destruct c as [user_agent|e]
    end.
    + destruct browser as [b|e]; inversion Hstep; subst s'; clear Hstep.
      * unfold tracked. simpl. rewrite !lookup_insert_eq. reflexivity.
      * apply tracked_task_failed.
    + inversion Hstep; subst s'; clear Hstep.
      unfold tracked. simpl. rewrite lookup_insert_eq, Hr. exact I.
  - (* the resolver has run *)
    simpl in Hstep. destruct (decide (t = t')) as [->|Hne];
      [|eapply tracked_elsewhere;
         [eapply task_started_elsewhere; exact Hstep | exact Hne | apply Htr]].
    unfold task_started in Hstep.
    destruct (coroutines s !! t') as [[| url start_time solver w | | |]|];
      try discriminate.
    match type of Hstep with
    | context [match ?m w with _ => _ end] =>
        destruct (m w) as [[result|e|] w'] eqn:Hrun
    end; inversion Hstep; subst s'; clear Hstep.
    + unfold tracked. simpl. rewrite !lookup_insert_eq.
      apply started_from_resolver in Hrun as [w1 Hrun].
      apply solve_cloudflare_returns in Hrun
        as [(el & c & ua & cs & ->) | (reason & el & ->)];
        [apply terminal_stored_success | apply terminal_stored_error].
    + apply tracked_task_failed.
  - (* the browser has been closed *)
    simpl in Hstep. destruct (decide (t = t')) as [->|Hne];
      [|eapply tracked_elsewhere;
         [eapply task_stopped_elsewhere; exact Hstep | exact Hne | apply Htr]].
    specialize (Htr t'). unfold tracked in Htr. unfold task_stopped in Hstep.
    destruct (coroutines s !! t') as [[| | start_time w | |]|];
      try discriminate.
    assert (Hdone : tracked (set_coroutine t' Finished (release t' s)) t').
    { unfold tracked. simpl. rewrite lookup_insert_eq, release_results.
      destruct (task_results s !! t'); auto. }
    destruct (await drv_stop w) as [[[]|e|] w'];
      inversion Hstep; subst s'; clear Hstep; auto.
    apply tracked_task_failed.
  - inversion Hstep; subst. apply Htr.
  - (* the sweeper *)
    inversion Hstep; subst s'; clear Hstep.
    specialize (Htr t). unfold tracked in *.
    rewrite cleanup_tasks_lookup. simpl.
    destruct (task_results s !! t) as [r|].
    + destruct (timestamp_of r <? now - DAY); [|exact Htr].
      destruct (coroutines s !! t) as [[]|]; exact I.
    + destruct (coroutines s !! t) as [[]|]; exact I.
Qed.

Lemma reachable_tracked s :
  reachable max_concurrent_tasks s -> forall t, tracked s t.
Proof.
  apply (reachable_invariant max_concurrent_tasks (fun s => forall t, tracked s t)).
  - intros t. unfold tracked. simpl. rewrite !lookup_empty. exact I.
  - intros s0 l s1 Hreach Htr Hstep.
    eapply tracked_step; eauto using reachable_well_formed.
Qed.

(** X12.  The status of a task never moves back.  An entry that is a
    success or a failure never becomes "processing" again: whatever the
    server does next, a later entry of that task is again a success or
    a failure, if the sweeper has not removed it. *)
Theorem status_moves_forward (s : State B) (task_id : string) (result : Dict) :
  reachable max_concurrent_tasks s ->
  task_results s !! task_id = Some result ->
  terminal result ->
  forall ls s',
    run max_concurrent_tasks s ls = Some s' ->
    match task_results s' !! task_id with
    | Some result' => terminal result'
    | None => True
    end.
Proof.
  intros Hreach Hentry. pose proof (reachable_tracked s Hreach task_id) as Htr.
  unfold tracked in Htr. rewrite Hentry in Htr.
  intros Hterm ls s' Hrun.
  assert (Hpast : coroutines s !! task_id = Some Finished \/
                  exists st w, coroutines s !! task_id = Some (Stopping st w)).
  { destruct (coroutines s !! task_id) as [[| url st solver w | | |]|];
      try contradiction; eauto.
    exfalso. eapply processing_not_terminal; eauto. }
  clear Htr Hentry Hterm result.
  revert s Hreach Hpast Hrun.
  induction ls as [|l ls IH]; simpl; intros s Hreach Hpast Hrun.
  - inversion Hrun; subst s'.
    pose proof (reachable_tracked s Hreach task_id) as Htr.
    unfold tracked in Htr.
    destruct (task_results s !! task_id) as [r|]; [|exact I].
    destruct Hpast as [Hc | (st & w & Hc)]; rewrite Hc in Htr; exact Htr.
  - destruct (step max_concurrent_tasks s l) as [s1|] eqn:Hstep;
      [|discriminate].
    apply (IH s1); [eapply reachable_step; eauto | | exact Hrun].
    destruct Hpast as [Hc | (st & w & Hc)].
    + left. eapply step_keeps_finished; eauto.
    + destruct (label_task l) as [t|] eqn:Hl.
      * destruct (decide (task_id = t)) as [->|Hne].
         -- destruct l as [req uuid | t' now latest rnd browser | t' | t'
                          | id | now]; simpl in Hl; inversion Hl; subst;
              simpl in Hstep.
            ++ rewrite Hc in Hstep. discriminate.
            ++ unfold task_enter in Hstep. rewrite Hc in Hstep. discriminate.
            ++ unfold task_started in Hstep. rewrite Hc in Hstep.
               discriminate.
            ++ left.
               destruct (task_stopped_records t s st w Hc)
                 as (s2 & Hs2 & Hfin & _).
               { pose proof (proj1 (reachable_well_formed _ _ Hreach) t) as Hco.
                 unfold coherent in Hco. rewrite Hc in Hco. tauto. }
               rewrite Hstep in Hs2. inversion Hs2; subst. exact Hfin.
         -- destruct (step_elsewhere max_concurrent_tasks s l s1 t Hl Hstep
                        task_id Hne) as (_ & _ & -> & _).
            eauto.
      * destruct l; simpl in Hl; try discriminate; simpl in Hstep;
           inversion Hstep; subst; eauto.
Qed.

End Tracking.

(** ** Admission under a prompt schedule *)

Section Prompt.
Context {B : Type} `{Capability B}.
Variable max_concurrent_tasks : Z.
Implicit Types (s : State B).

Lemma pending_set_coroutine t (c : Coroutine B) s :
  pending (set_coroutine t c s) =
  if is_scheduled c then <[t := c]> (pending s) else delete t (pending s).
Proof.
  unfold pending, set_coroutine. simpl. rewrite map_filter_insert. simpl.
  destruct (is_scheduled c).
  - rewrite decide_True by reflexivity. reflexivity.
  - rewrite decide_False by discriminate. apply map_filter_delete.
Qed.

Lemma pending_lookup t s :
  pending s !! t =
  match coroutines s !! t with
  | Some c => if is_scheduled c then Some c else None
  | None => None
  end.
Proof.
  unfold pending. destruct (coroutines s !! t) as [c|] eqn:Hc.
  - destruct (is_scheduled c) eqn:Hs.
    + apply map_lookup_filter_Some. auto.
    + apply map_lookup_filter_None. right. intros c' Hc'. simpl.
      rewrite Hc in Hc'. inversion Hc'; subst. congruence.
  - apply map_lookup_filter_None. left. exact Hc.
Qed.

Lemma size_delete_le {A : Type} t (m : gmap string A) :
  (size (delete t m) <= size m)%nat.
Proof. rewrite map_size_delete. destruct (m !! t); simpl; lia. Qed.

(** What the first piece of a coroutine does to the two counts. *)
Lemma task_enter_counts t now latest rnd browser s s' :
  well_formed s ->
  task_enter t now latest rnd browser s = Some s' ->
  (size (pending s') + 1 = size (pending s))%nat /\
  (size (active_solvers s') <= size (active_solvers s) + 1)%nat.
Proof.
  intros [Hco _] Hstep. specialize (Hco t). unfold coherent in Hco.
  assert (Hpend : exists c, pending s !! t = Some c).
  { rewrite pending_lookup.
    apply task_enter_scheduled in Hstep as (? & ? & ? & ? & ->). eauto. }
  assert (Hdel : (size (delete t (pending s)) + 1 = size (pending s))%nat).
  { destruct Hpend as [c Hc]. rewrite map_size_delete, Hc. simpl.
    assert (size (pending s) <> 0%nat).
    { intros Hz. apply map_size_empty_inv in Hz. rewrite Hz in Hc.
      rewrite lookup_empty in Hc. discriminate. }
    lia. }
  unfold task_enter in Hstep.
  destruct (coroutines s !! t) as [[url ua proxy timeout| | | |]|];
    try discriminate.
  destruct Hco as (_ & Ha & _).
  match type of Hstep with
  | context [match ?c with Returns _ => _ | Raises _ => _ end] =>
      destruct c as [user_agent|e]
  end.
  - destruct browser as [b|e]; inversion Hstep; subst s'; clear Hstep.
    + rewrite pending_set_coroutine. simpl.
      rewrite map_size_insert_None by exact Ha.
      split; [exact Hdel | lia].
    + unfold task_failed. rewrite pending_set_coroutine. simpl.
      rewrite release_active. simpl.
      unfold pending at 1. rewrite release_coroutines. simpl.
      fold (pending s). split; [exact Hdel|].
      pose proof (size_delete_le t (active_solvers s)). lia.
  - inversion Hstep; subst s'; clear Hstep.
    rewrite pending_set_coroutine. simpl. split; [exact Hdel | lia].
Qed.

Lemma task_failed_counts t start_time (e : exn) now s :
  (size (pending (task_failed t start_time e now s)) <= size (pending s))%nat /\
  (size (active_solvers (task_failed t start_time e now s))
   <= size (active_solvers s))%nat.
Proof.
  unfold task_failed. rewrite pending_set_coroutine. simpl.
  rewrite release_active. simpl.
  unfold pending at 1. rewrite release_coroutines. simpl. fold (pending s).
  split; apply size_delete_le.
Qed.

Lemma task_started_counts t s s' :
  task_started t s = Some s' ->
  (size (pending s') <= size (pending s))%nat /\
  (size (active_solvers s') <= size (active_solvers s))%nat.
Proof.
  unfold task_started.
  destruct (coroutines s !! t) as [[| url start_time solver w | | |]|];
    try discriminate.
  match goal with
  | |- context [match ?m w with _ => _ end] =>
      destruct (m w) as [[result|e|] w']
  end; intros [= <-].
  - rewrite pending_set_coroutine. simpl.
    split; [apply size_delete_le | lia].
  - apply task_failed_counts.
Qed.

Lemma task_stopped_counts t s s' :
  task_stopped t s = Some s' ->
  (size (pending s') <= size (pending s))%nat /\
  (size (active_solvers s') <= size (active_solvers s))%nat.
Proof.
  unfold task_stopped.
  destruct (coroutines s !! t) as [[| | start_time w | |]|];
    try discriminate.
  assert (Hdone :
    (size (pending (set_coroutine t Finished (release t s)))
     <= size (pending s))%nat /\
    (size (active_solvers (set_coroutine t Finished (release t s)))
     <= size (active_solvers s))%nat).
  { rewrite pending_set_coroutine. simpl. rewrite release_active.
    unfold pending at 1. rewrite release_coroutines. fold (pending s).
    split; apply size_delete_le. }
  destruct (await drv_stop w) as [[[]|e|] w']; intros [= <-];
    try exact Hdone.
  apply task_failed_counts.
Qed.

Lemma admission_step s l s' :
  well_formed s ->
  (is_submit l = true -> pending s = ∅) ->
  step max_concurrent_tasks s l = Some s' ->
  Z.of_nat (size (active_solvers s) + size (pending s))
    <= max_concurrent_tasks ->
  Z.of_nat (size (active_solvers s') + size (pending s'))
    <= max_concurrent_tasks.
Proof.
  intros Hwf Hprompt Hstep Hbound.
  destruct l as [req uuid | t now latest rnd browser | t | t | id | now];
    simpl in Hstep.
  - destruct (coroutines s !! uuid) eqn:Hfresh; [discriminate|].
    inversion Hstep; subst s'; clear Hstep.
    destruct (Z.eq_dec (code (fst (solve max_concurrent_tasks req uuid s))) 202)
      as [Hcode|Hcode].
    + pose proof (solve_accepts_below_maximum _ _ _ _ Hcode) as Hbelow.
      rewrite (solve_accepted _ _ _ _ Hcode).
      rewrite pending_set_coroutine. simpl.
      rewrite (Hprompt eq_refl), insert_empty, map_size_singleton. lia.
    + rewrite (solve_refused _ _ _ _ Hcode). exact Hbound.
  - destruct (task_enter_counts _ _ _ _ _ _ _ Hwf Hstep). lia.
  - destruct (task_started_counts _ _ _ Hstep). lia.
  - destruct (task_stopped_counts _ _ _ Hstep). lia.
  - inversion Hstep; subst. exact Hbound.
  - inversion Hstep; subst. exact Hbound.
Qed.

(** X13.  When every request is handled only after the coroutines
    created before it have run their first piece, the test of [solve]
    does keep the bound: the number of entries of [active_solvers]
    never exceeds [max_concurrent_tasks], and neither does it together
    with the coroutine that waits to run. *)
Theorem prompt_schedule_keeps_the_bound (ls : list Label) (s : State B) :
  0 <= max_concurrent_tasks ->
  prompt max_concurrent_tasks initial ls ->
  run max_concurrent_tasks initial ls = Some s ->
  Z.of_nat (size (active_solvers s)) <= max_concurrent_tasks /\
  Z.of_nat (size (active_solvers s) + size (pending s))
    <= max_concurrent_tasks.
Proof.
  intros Hmax Hprompt Hrun.
  assert (Hgen : forall ls s0 s1,
    well_formed s0 ->
    Z.of_nat (size (active_solvers s0) + size (pending s0))
      <= max_concurrent_tasks ->
    prompt max_concurrent_tasks s0 ls ->
    run max_concurrent_tasks s0 ls = Some s1 ->
    Z.of_nat (size (active_solvers s1) + size (pending s1))
      <= max_concurrent_tasks).
  { clear. induction ls as [|l ls IH]; simpl;
      intros s0 s1 Hwf Hbound Hprompt Hrun.
    - inversion Hrun; subst. exact Hbound.
    - destruct Hprompt as [Hnow Hlater].
      destruct (step max_concurrent_tasks s0 l) as [s2|] eqn:Hstep;
        [|discriminate].
      apply (IH s2 s1); auto.
      + eapply well_formed_step; eauto.
      + eapply admission_step; eauto. }
  assert (Hsum : Z.of_nat (size (active_solvers s) + size (pending s))
                 <= max_concurrent_tasks).
  { apply (Hgen ls initial s);
      [apply well_formed_initial | | exact Hprompt | exact Hrun].
    unfold pending. simpl. rewrite map_filter_empty, !map_size_empty. simpl.
    exact Hmax. }
  split; [lia | exact Hsum].
Qed.

End Prompt.

(** ** Every solver is configured *)

Lemma limit_timeout_le timeout : limit_timeout timeout <= 120.
Proof. unfold limit_timeout. destruct (Z.ltb_spec 120 timeout); lia. Qed.

Lemma truthy_some user_agent :
  truthy user_agent = true -> exists ua, user_agent = Some ua /\ ua <> "".
Proof.
  destruct user_agent as [ua|]; simpl; [|discriminate].
  destruct (String.eqb_spec ua ""); [discriminate|]. eauto.
Qed.

Lemma contains_not_empty pat s : pat <> "" -> contains pat s = true -> s <> "".
Proof. intros Hpat Hc ->. destruct pat; [congruence | discriminate]. Qed.

Section Configured.
Context {B : Type} `{Capability B}.
Variable max_concurrent_tasks : Z.
Implicit Types (s : State B).

Lemma configured_update t (c' : Coroutine B) s s' :
  is_scheduled c' = false ->
  coroutines s' = <[t := c']> (coroutines s) ->
  (forall other solver,
      active_solvers s' !! other = Some solver ->
      active_solvers s !! other = Some solver \/ solver_ok solver) ->
  configured s -> configured s'.
Proof.
  intros Hc' Hco Hact [Hsched Hsolv]. split.
  - intros task_id url ua proxy timeout. rewrite Hco.
    destruct (decide (task_id = t)) as [->|Hne].
    + rewrite lookup_insert_eq. intros [= ->]. discriminate.
    + rewrite lookup_insert_ne by congruence. apply Hsched.
  - intros task_id solver Hs.
    destruct (Hact _ _ Hs) as [Hold | Hok]; [eapply Hsolv; eauto | exact Hok].
Qed.

Lemma task_failed_configured t start_time (e : exn) now s :
  configured s -> configured (task_failed t start_time e now s).
Proof.
  apply (configured_update t Finished); [reflexivity | |].
  - unfold task_failed. simpl. rewrite release_coroutines. reflexivity.
  - intros other solver. unfold task_failed. simpl. rewrite release_active.
    simpl. intros Hs. left.
    destruct (decide (other = t)) as [->|Hne].
    + rewrite lookup_delete_eq in Hs. discriminate.
    + rewrite lookup_delete_ne in Hs by congruence. exact Hs.
Qed.

Lemma configured_step s l s' :
  configured s -> step max_concurrent_tasks s l = Some s' -> configured s'.
Proof.
  intros Hconf Hstep.
  destruct l as [req uuid | t now latest rnd browser | t | t | id | now];
    simpl in Hstep.
  - destruct (coroutines s !! uuid) eqn:Hfresh; [discriminate|].
    inversion Hstep; subst s'; clear Hstep.
    destruct (Z.eq_dec (code (fst (solve max_concurrent_tasks req uuid s))) 202)
      as [Hcode|Hcode]; [|rewrite (solve_refused _ _ _ _ Hcode); exact Hconf].
    rewrite (solve_accepted _ _ _ _ Hcode). destruct Hconf as [Hsched Hsolv].
    split; [|exact Hsolv].
    intros task_id url ua proxy timeout. simpl.
    destruct (decide (task_id = uuid)) as [->|Hne].
    + rewrite lookup_insert_eq. intros [= _ _ _ <-]. apply limit_timeout_le.
    + rewrite lookup_insert_ne by congruence. apply Hsched.
  - unfold task_enter in Hstep.
    destruct (coroutines s !! t) as [[url ua proxy timeout| | | |]|] eqn:Hc;
      try discriminate.
    pose proof (proj1 Hconf _ _ _ _ _ Hc) as Htimeout.
    assert (Hchosen : forall user_agent,
      (if truthy ua then Returns ua
       else match latest with
            | Returns agents =>
                match get_chrome_user_agent agents rnd with
                | Returns ua0 => Returns (Some ua0)
                | Raises e => Raises e
                end
            | Raises e => Raises e
            end) = Returns user_agent ->
      exists ua0, user_agent = Some ua0 /\ ua0 <> "").
    { intros user_agent. destruct (truthy ua) eqn:Hua.
      - intros [= <-]. apply truthy_some. exact Hua.
      - destruct latest as [agents|e]; [|discriminate].
        destruct (get_chrome_user_agent agents rnd) as [ua0|e] eqn:Hpick;
          [|discriminate].
        intros [= <-]. exists ua0. split; [reflexivity|].
        apply get_chrome_user_agent_chrome in Hpick as [_ Hchrome].
        eapply contains_not_empty; [|exact Hchrome]. discriminate. }
    match type of Hstep with
    | context [match ?c with Returns _ => _ | Raises _ => _ end] =>
        destruct c as [user_agent|e]
    end.
    + destruct browser as [b|e]; inversion Hstep; subst s'; clear Hstep.
      * apply (configured_update t
                 (Starting url now (mkSolver timeout user_agent)
                    (mkWorld now b)) s); [reflexivity | reflexivity | |
                                          exact Hconf].
        intros other solver. simpl.
        destruct (decide (other = t)) as [->|Hne].
        -- rewrite lookup_insert_eq. intros [= <-]. right.
           split; [exact Htimeout | apply Hchosen; reflexivity].
        -- rewrite lookup_insert_ne by congruence. auto.
      * apply task_failed_configured. exact Hconf.
    + inversion Hstep; subst s'; clear Hstep.
      apply (configured_update t (Crashed e) s);
        [reflexivity | reflexivity | auto | exact Hconf].
  - unfold task_started in Hstep.
    destruct (coroutines s !! t) as [[| url start_time solver w | | |]|];
      try discriminate.
    match type of Hstep with
    | context [match ?m w with _ => _ end] =>
        destruct (m w) as [[result|e|] w']
    end; inversion Hstep; subst s'; clear Hstep.
    + apply (configured_update t (Stopping start_time w') s);
        [reflexivity | reflexivity | auto | exact Hconf].
    + apply task_failed_configured. exact Hconf.
  - unfold task_stopped in Hstep.
    destruct (coroutines s !! t) as [[| | start_time w | |]|];
      try discriminate.
    assert (Hdone : configured (set_coroutine t Finished (release t s))).
    { apply (configured_update t Finished s); [reflexivity | | | exact Hconf].
      - simpl. rewrite release_coroutines. reflexivity.
      - intros other solver. simpl. rewrite release_active. intros Hs. left.
        destruct (decide (other = t)) as [->|Hne].
        + rewrite lookup_delete_eq in Hs. discriminate.
        + rewrite lookup_delete_ne in Hs by congruence. exact Hs. }
    destruct (await drv_stop w) as [[[]|e|] w'];
      inversion Hstep; subst s'; clear Hstep; try exact Hdone.
    apply task_failed_configured. exact Hconf.
  - inversion Hstep; subst. exact Hconf.
  - inversion Hstep; subst. exact Hconf.
Qed.

(** X14.  In every reachable state every solver in [active_solvers],
    whether its task came with a user agent or not, has a timeout of at
    most 120 seconds and a user agent that is set and not empty. *)
Theorem active_solvers_are_configured (s : State B) (task_id : string)
    (solver : CloudflareSolver) :
  reachable max_concurrent_tasks s ->
  active_solvers s !! task_id = Some solver ->
  solver_timeout solver <= 120 /\
  exists ua, solver_user_agent solver = Some ua /\ ua <> "".
Proof.
  intros Hreach Hsolver.
  assert (Hconf : configured s).
  { revert s Hreach Hsolver. intros s Hreach _. revert s Hreach.
    apply (reachable_invariant max_concurrent_tasks configured).
    - split.
      + intros t url ua proxy timeout. simpl. rewrite lookup_empty.
        discriminate.
      + intros t sv. simpl. rewrite lookup_empty. discriminate.
    - intros s0 l s1 _ Hc Hstep. eapply configured_step; eauto. }
  exact (proj2 Hconf _ _ Hsolver).
Qed.

End Configured.

(** ** From a request to its first answer *)

Section RoundTrip.
Context {B : Type} `{Capability B}.
Variable max_concurrent_tasks : Z.
Implicit Types (s : State B).

(** X15.  The identifier in the body of a 202 answer is the one under
    which the task is found again.  Once the coroutine has run its first
    piece (which it does without an exception when the request came
    with a user agent or the list of user agents has a member
    containing "Chrome"), a read with that identifier is answered 202
    when the browser could be built, and 200 with a failure whose
    reason is the description of the exception when building it
    raised. *)
Theorem submitted_task_is_found (s : State B) (req : Request) (uuid : string)
    (now : Z) (latest : reply (list string)) (rnd : nat) (browser : reply B) :
  uuid <> "" ->
  code (fst (solve max_concurrent_tasks req uuid s)) = 202 ->
  truthy (arg_user_agent req) = true \/
  (exists agents ua,
      latest = Returns agents /\ In ua agents /\
      contains "Chrome" ua = true) ->
  body (fst (solve max_concurrent_tasks req uuid s)) !! "task_id"
    = Some (VStr uuid) /\
  exists s2,
    task_enter uuid now latest rnd browser
      (snd (solve max_concurrent_tasks req uuid s)) = Some s2 /\
    match browser with
    | Returns _ => code (get_result (Some uuid) s2) = 202
    | Raises e =>
        code (get_result (Some uuid) s2) = 200 /\
        body (get_result (Some uuid) s2) !! "reason" = Some (VStr e)
    end.
Proof.
  intros Hid Hcode Hagent. split.
  - revert Hcode. unfold solve.
    destruct (negb (truthy (arg_url req))); [discriminate|].
    destruct (truthy (arg_proxy req) && _); [discriminate|].
    destruct (_ >=? _); [discriminate|]. reflexivity.
  - rewrite (solve_accepted _ _ _ _ Hcode). unfold task_enter. simpl.
    rewrite lookup_insert_eq.
    assert (Hread : forall s2 : State B, get_result (Some uuid) s2 =
      match task_results s2 !! uuid with
      | None => mkResponse (error_body "Task ID không tồn tại") 404
      | Some result =>
          if status_is result "processing" then
            mkResponse
              (<["status" := VStr "processing"]>
               (<["message" := VStr "Task đang được xử lý"]> ∅)) 202
          else mkResponse result 200
      end).
    { intros s2. unfold get_result. simpl.
      destruct (String.eqb_spec uuid ""); [congruence | reflexivity]. }
    assert (Hchosen : exists user_agent,
      (if truthy (arg_user_agent req) then Returns (arg_user_agent req)
       else match latest with
            | Returns agents =>
                match get_chrome_user_agent agents rnd with
                | Returns ua0 => Returns (Some ua0)
                | Raises e => Raises e
                end
            | Raises e => Raises e
            end) = Returns user_agent).
    { destruct (truthy (arg_user_agent req)) eqn:Hua; [eauto|].
      destruct Hagent as [? | (agents & ua & -> & Hin & Hchrome)];
        [discriminate|].
      destruct (get_chrome_user_agent_returns agents rnd) as [ua0 ->]; eauto. }
    destruct Hchosen as [user_agent ->].
    destruct browser as [b|e]; eexists; (split; [reflexivity|]).
    + rewrite Hread. simpl. rewrite lookup_insert_eq. reflexivity.
    + rewrite Hread.
      match goal with
      | |- context [task_failed ?t ?st ?e ?n ?s0] =>
          destruct (task_failed_at t st e n s0) as (-> & _)
      end.
      split; reflexivity.
Qed.

End RoundTrip.

(** ** Choosing the user agent *)

Lemma append_cons a p rest :
  String.append (String a p) rest = String a (String.append p rest).
Proof. reflexivity. Qed.

Lemma prefix_spec p s :
  String.prefix p s = true <-> exists rest, s = String.append p rest.
Proof.
  revert s. induction p as [|a p IH]; intros s; simpl.
  - destruct s; split; eauto.
  - destruct s as [|b s]; simpl.
    + split; [discriminate|].
      intros [rest Hrest]. rewrite append_cons in Hrest. discriminate.
    + destruct (Ascii.ascii_dec a b) as [->|Hne].
      * rewrite IH. split; intros [rest Hrest]; exists rest;
          rewrite append_cons in *; congruence.
      * split; [discriminate|].
        intros [rest Hrest]. rewrite append_cons in Hrest. congruence.
Qed.

Lemma contains_spec pat s :
  contains pat s = true <->
  exists before rest, s = String.append before (String.append pat rest).
Proof.
  induction s as [|a s IH]; cbn [contains].
  - rewrite orb_false_r, prefix_spec. split.
    + intros [rest Hrest]. exists "", rest. exact Hrest.
    + intros (before & rest & Hs). destruct before; [eauto|].
      rewrite append_cons in Hs. discriminate.
  - rewrite orb_true_iff, IH, prefix_spec. split.
    + intros [[rest Hrest] | (before & rest & ->)].
      * exists "", rest. exact Hrest.
      * exists (String a before), rest. reflexivity.
    + intros (before & rest & Hs). destruct before as [|b before].
      * left. eauto.
      * right. rewrite append_cons in Hs. inversion Hs; subst. eauto.
Qed.

(** X16.  [get_chrome_user_agent] raises exactly when no member of the
    list contains "Chrome"; otherwise it returns a member that reads
    [before ++ "Chrome" ++ rest], and every such member of the list can
    be the one it returns. *)
Theorem get_chrome_user_agent_choice (latest : list string) :
  (forall rnd,
      (exists e, get_chrome_user_agent latest rnd = Raises e) <->
      (forall ua, In ua latest -> contains "Chrome" ua = false)) /\
  (forall rnd ua,
      get_chrome_user_agent latest rnd = Returns ua ->
      In ua latest /\
      exists before rest,
        ua = String.append before (String.append "Chrome" rest)) /\
  (forall ua,
      In ua latest -> contains "Chrome" ua = true ->
      exists rnd, get_chrome_user_agent latest rnd = Returns ua).
Proof.
  split; [|split].
  - intros rnd. split.
    + intros [e Hraise] ua Hin.
      destruct (contains "Chrome" ua) eqn:Hchrome; [|reflexivity].
      destruct (get_chrome_user_agent_returns latest rnd) as [ua0 Hret];
        [eauto | congruence].
    + intros Hnone.
      destruct (get_chrome_user_agent latest rnd) as [ua|e] eqn:Hpick;
        [|eauto].
      apply get_chrome_user_agent_chrome in Hpick as [Hin Hchrome].
      rewrite (Hnone ua Hin) in Hchrome. discriminate.
  - intros rnd ua Hpick.
    apply get_chrome_user_agent_chrome in Hpick as [Hin Hchrome].
    split; [exact Hin|]. apply contains_spec. exact Hchrome.
  - intros ua Hin Hchrome. unfold get_chrome_user_agent, random_choice.
    assert (Hf : In ua (List.filter
                          (fun user_agent => contains "Chrome" user_agent)
                          latest)) by (apply filter_In; auto).
    apply In_nth_error in Hf as [n Hn]. exists n.
    assert (n < length (List.filter
                          (fun user_agent => contains "Chrome" user_agent)
                          latest))%nat as Hlt
      by (apply nth_error_Some; congruence).
    rewrite Nat.mod_small by exact Hlt. rewrite Hn. reflexivity.
Qed.

(** ** Instances of the properties above *)

Lemma success_carries_the_cookie_witness :
  let w := mkWorld 0 (mkScripted friendly 0) in
  let result :=
    success_result 0 clearance "Mozilla/5.0 Chrome/120" [clearance] in
  solve_cloudflare 0 (mkSolver 60 None) "https://example.com" w
    = (Ok result, mkWorld 0 (mkScripted friendly 1)) /\
  status_is result "success" = true /\
  exists cookie all_cookies,
    result !! "all_cookies" = Some (VCookies all_cookies) /\
    In cookie all_cookies /\
    cookie_name cookie = "cf_clearance" /\
    result !! "cf_clearance" = Some (VStr (cookie_value cookie)).
Proof.
  cbv zeta. split; [vm_compute; reflexivity|]. split; [reflexivity|].
  apply (success_carries_the_cookie 0 (mkSolver 60 None) "https://example.com"
           (mkWorld 0 (mkScripted friendly 0))
           (mkWorld 0 (mkScripted friendly 1))).
  - vm_compute. reflexivity.
  - reflexivity.
Defined.


Lemma no_success_without_user_agent_witness :
  (forall b : nat,
      ans (@drv_evaluate nat (replay mute) "navigator.userAgent" b)
      = Raises "Runtime.evaluate failed") /\
  (Z.to_nat (solver_timeout (mkSolver 60 None)) <= 60)%nat /\
  exists reason elapsed w',
    @solve_cloudflare nat (replay mute) 60 (mkSolver 60 None)
      "https://example.com" (mkWorld 0 0%nat)
    = (Ok (error_result reason elapsed), w').
Proof.
  split; [reflexivity|]. split; [vm_compute; lia|].
  apply (@no_success_without_user_agent nat (replay mute) 60 (mkSolver 60 None)
           "https://example.com" (mkWorld 0 0%nat) "Runtime.evaluate failed").
  - reflexivity.
  - vm_compute. lia.
Defined.


Lemma click_all_settles_witness :
  (forall (element : Element) (b : nat),
      ans (@drv_mouse_click nat (replay friendly) element b) = Returns tt) /\
  0 + 2000 * Z.of_nat (length [1; 2; 3]%nat)
  <= clock (snd (@click_all nat (replay friendly) [1; 2; 3]%nat
                   (mkWorld 0 0%nat))).
Proof.
  split; [reflexivity|].
  apply (proj2 (@click_all_settles nat (replay friendly) [1; 2; 3]%nat
                  (mkWorld 0 0%nat))).
  reflexivity.
Defined.

Lemma polling_lasts_the_timeout_witness :
  (forall b : nat, fst (@loop_lateness nat (replay (stubborn 0)) b) = 0%N) /\
  exists fuel cs w',
    @wait_loop nat (replay (stubborn 0)) fuel 30 (clock (mkWorld 500 0%nat)) []
      (mkWorld 500 0%nat) = (Ok (cs, None), w') /\
    30 * 1000 <= clock w' - 500 /\
    clock w' - 500 <= Z.max 0 (30 * 1000 + 1000).
Proof.
  split; [reflexivity|].
  apply (@polling_lasts_the_timeout nat (replay (stubborn 0)) 30 []
           (mkWorld 500 0%nat)).
  - reflexivity.
  - reflexivity.
  - intros b. exists []. split; reflexivity.
Defined.

Lemma get_status_counts_witness :
  reachable 10 after_one_task /\
  let values := List.map snd (map_to_list (task_results after_one_task)) in
  Z.of_nat (with_status "processing" values) +
  Z.of_nat (with_status "success" values) +
  Z.of_nat (with_status "error" values)
  = report_total_tasks (fst (get_status 10 after_one_task)).
Proof.
  assert (Hreach : reachable 10 after_one_task).
  { exists one_task_done. vm_compute. reflexivity. }
  split; [exact Hreach|].
  apply (proj2 (proj2 (get_status_counts 10 after_one_task))). exact Hreach.
Defined.

Lemma step_writes_one_task_witness :
  label_task (B := Scripted) (Started "a") = Some "a" /\
  exists s' : State Scripted,
    step 10 one_task_starting (Started "a") = Some s' /\
    forall other, other <> "a" ->
      task_results s' !! other = task_results one_task_starting !! other /\
      active_solvers s' !! other = active_solvers one_task_starting !! other /\
      coroutines s' !! other = coroutines one_task_starting !! other.
Proof.
  split; [reflexivity|].
  exists (default initial (step 10 one_task_starting (Started "a"))).
  assert (Hstep : step 10 one_task_starting (Started "a") =
                  Some (default initial
                          (step 10 one_task_starting (Started "a"))))
    by (vm_compute; reflexivity).
  split; [exact Hstep|].
  apply (step_writes_one_task 10 one_task_starting _ (Started "a") "a");
    [reflexivity | exact Hstep].
Defined.

Lemma status_moves_forward_witness :
  reachable 10 after_one_task /\
  task_results after_one_task !! "a" = Some friendly_entry /\
  terminal friendly_entry /\
  forall ls s',
    run 10 after_one_task ls = Some s' ->
    match task_results s' !! "a" with
    | Some result' => terminal result'
    | None => True
    end.
Proof.
  assert (Hreach : reachable 10 after_one_task).
  { exists one_task_done. vm_compute. reflexivity. }
  assert (Hentry : task_results after_one_task !! "a" = Some friendly_entry)
    by (vm_compute; reflexivity).
  assert (Hterm : terminal friendly_entry) by (left; reflexivity).
  split; [exact Hreach|]. split; [exact Hentry|]. split; [exact Hterm|].
  apply (status_moves_forward 10 after_one_task "a" friendly_entry
           Hreach Hentry).
  exact Hterm.
Defined.

Lemma prompt_schedule_keeps_the_bound_witness :
  0 <= 1 /\
  prompt 1 initial one_after_the_other /\
  exists s : State Scripted,
    run 1 initial one_after_the_other = Some s /\
    Z.of_nat (size (active_solvers s)) <= 1.
Proof.
  assert (Hprompt : prompt 1 initial one_after_the_other).
  { simpl. split; [intros _; reflexivity|].
    split; [discriminate|].
    split; [intros _; vm_compute; reflexivity | exact I]. }
  split; [lia|]. split; [exact Hprompt|].
  exists (default initial (run 1 initial one_after_the_other)).
  assert (Hrun : run 1 initial one_after_the_other =
                 Some (default initial (run 1 initial one_after_the_other)))
    by (vm_compute; reflexivity).
  split; [exact Hrun|].
  apply (proj1 (prompt_schedule_keeps_the_bound 1 one_after_the_other _
                  ltac:(lia) Hprompt Hrun)).
Defined.

Lemma active_solvers_are_configured_witness :
  reachable 10 one_task_starting /\
  active_solvers one_task_starting !! "a"
    = Some (mkSolver 60 (Some "Mozilla/5.0 Chrome/120.0")) /\
  solver_timeout (mkSolver 60 (Some "Mozilla/5.0 Chrome/120.0")) <= 120.
Proof.
  assert (Hreach : reachable 10 one_task_starting).
  { exists [Submit example_request "a"; open_page "a" friendly].
    vm_compute. reflexivity. }
  assert (Hsolver : active_solvers one_task_starting !! "a"
                    = Some (mkSolver 60 (Some "Mozilla/5.0 Chrome/120.0")))
    by (vm_compute; reflexivity).
  split; [exact Hreach|]. split; [exact Hsolver|].
  apply (proj1 (active_solvers_are_configured 10 one_task_starting "a" _
                  Hreach Hsolver)).
Defined.

Lemma submitted_task_is_found_witness :
  "a" <> "" /\
  code (fst (solve 10 example_request "a" (initial (B := Scripted)))) = 202 /\
  exists s2 : State Scripted,
    task_enter "a" 0 (Returns agents) 0 (Raises "chrome not found")
      (snd (solve 10 example_request "a" initial)) = Some s2 /\
    code (get_result (Some "a") s2) = 200 /\
    body (get_result (Some "a") s2) !! "reason"
      = Some (VStr "chrome not found").
Proof.
  split; [discriminate|]. split; [reflexivity|].
  apply (proj2 (submitted_task_is_found 10 (initial (B := Scripted))
                  example_request "a" 0 (Returns agents) 0
                  (Raises "chrome not found") ltac:(discriminate) eq_refl
                  (or_intror
                     (ex_intro _ agents
                        (ex_intro _ "Mozilla/5.0 Chrome/120.0"
                           (conj eq_refl
                              (conj (or_intror (or_introl eq_refl))
                                 eq_refl))))))).
Defined.

Lemma get_chrome_user_agent_choice_witness :
  In "Mozilla/5.0 Chrome/120.0" agents /\
  contains "Chrome" "Mozilla/5.0 Chrome/120.0" = true /\
  exists rnd,
    get_chrome_user_agent agents rnd = Returns "Mozilla/5.0 Chrome/120.0".
Proof.
  split; [right; left; reflexivity|]. split; [reflexivity|].
  apply (proj2 (proj2 (get_chrome_user_agent_choice agents))).
  - right; left; reflexivity.
  - reflexivity.
Defined.
